(** * CoAP message codec (coap.c / coap.h): shallow embedding and properties

    The C routines of [coap.c] are embedded as Rocq functions over [Z].
    - A fixed-width C integer is a [Z] with its wrap-around written out
      ([u8], [u16], [s8], [s16], [s32]); a conversion to a signed type that
      does not fit wraps modulo 2^w, as every two's complement compiler for
      the target does.
    - The byte array behind a [uint8_t *] is a [list Z]; a pointer into it
      is the offset from [pBuffer].  The length a caller passes
      ([bufferLength], [*pBufferLength]) is a separate number, as in the
      source: the array may be longer (a 1460 byte datagram buffer) or
      shorter than the length claimed for it.
    - A read or write outside of the array is C undefined behaviour, and a
      local that was never assigned holds an indeterminate value: a run
      that does the one or depends on the other ends with [Undef].  The
      data pointer that coapGetOption hands back when no option was decoded
      is such a value and nothing else depends on it: it is recorded as
      indeterminate in the result ([got_data]).
    - Loops are run with fuel; [OutOfFuel] is the exhausted fuel, which the
      source's loops never reach (see the lemmas on fuel below). *)

From Stdlib Require Import ZArith Lia Bool List.
From stdpp Require Import base list.
Import ListNotations.
Open Scope Z_scope.

(** ** Results of a run *)

Inductive res (A : Type) : Type :=
| Ret (a : A)
| Undef
| OutOfFuel.
Arguments Ret {A} a.
Arguments Undef {A}.
Arguments OutOfFuel {A}.

Definition bind {A B : Type} (m : res A) (k : A -> res B) : res B :=
  match m with
  | Ret a => k a
  | Undef => Undef
  | OutOfFuel => OutOfFuel
  end.

Notation "'do' x <- m ; k" := (bind m (fun x => k))
  (at level 10, x pattern, m at level 100, k at level 200).

(** ** Fixed-width integers *)

Definition u8 (x : Z) : Z := x mod 256.
Definition u16 (x : Z) : Z := x mod 65536.
Definition s8 (x : Z) : Z := (x + 128) mod 256 - 128.
Definition s16 (x : Z) : Z := (x + 32768) mod 65536 - 32768.
Definition s32 (x : Z) : Z := (x + 2147483648) mod 4294967296 - 2147483648.

(** ** Memory: the array behind [pBuffer] *)

Definition rd (m : list Z) (p : Z) : res Z :=
  if p <? 0 then Undef
  else match m !! Z.to_nat p with
       | Some b => Ret b
       | None => Undef
       end.

Definition wr (m : list Z) (p : Z) (v : Z) : res (list Z) :=
  if (0 <=? p) && (p <? Z.of_nat (length m))
  then Ret (<[Z.to_nat p := v]> m)
  else Undef.

(** A zeroed array, and the length of an array as a C integer. *)
Definition zeros (n : nat) : list Z := repeat 0 n.

Definition len_of (l : list Z) : Z := Z.of_nat (length l).

(** [memcpy dst src n]: [n] bytes of the source array [src] are written
    from offset [dst] on. *)
Fixpoint memcpy_from (m : list Z) (dst : Z) (src : list Z) (n : nat)
  : res (list Z) :=
  match n with
  | O => Ret m
  | S n' =>
      match src with
      | [] => Undef
      | b :: src' =>
          do m' <- wr m dst b;
          memcpy_from m' (dst + 1) src' n'
      end
  end.

Definition memcpy (m : list Z) (dst : Z) (src : list Z) (n : Z)
  : res (list Z) :=
  memcpy_from m dst src (Z.to_nat n).

(** ** Constants of coap.h *)

Definition COAP_VERSION : Z := 1.
Definition COAP_HDR_BYTES : Z := 4.
Definition MAX_BUFFER_SIZE : Z := 1460.
Definition COAP_PAYLOAD_MARKER : Z := 255.

Definition COAP_OK : Z := 0.
Definition COAP_INVALID_PACKET : Z := -1.
Definition COAP_INVALID_VERSION : Z := -2.
Definition COAP_INVALID_TOKEN_LENGTH : Z := -3.
Definition COAP_UNKNOWN_CODE : Z := -4.
Definition COAP_OPTIONS_OUT_OF_ORDER : Z := -6.
Definition COAP_INSUFFICIENT_BUFFER : Z := -7.
Definition COAP_FOUND_PAYLOAD_MARKER : Z := -8.
Definition COAP_END_OF_PACKET : Z := -9.
Definition COAP_INVALID_PAYLOAD : Z := -10.
Definition COAP_INVALID_OPTION : Z := -11.
Definition COAP_INVALID_TYPE : Z := -16.

(** The CoapCode enumeration. *)
Definition coap_codes : list Z :=
  [ 0x00; 0x01; 0x02; 0x03; 0x04;
    0x41; 0x42; 0x43; 0x44; 0x45;
    0x80; 0x81; 0x82; 0x83; 0x84; 0x85; 0x86; 0x8C; 0x8D; 0x8F;
    0xA0; 0xA1; 0xA2; 0xA3; 0xA4; 0xA5 ].

(** ** Validity predicates *)

(** [bool coapVersionIsValid(int8_t version)] *)
Definition coapVersionIsValid (version : Z) : bool :=
  if negb (version =? COAP_VERSION) then false else true.

(** [bool coapTypeIsValid(int8_t type)] *)
Definition coapTypeIsValid (type : Z) : bool :=
  if (type >? 3) || (type <? 0) then false else true.

(** [bool coapTokenLengthIsValid(int8_t tokenLength)] *)
Definition coapTokenLengthIsValid (tokenLength : Z) : bool :=
  if tokenLength >=? 9 then false else true.

(** [bool coapCodeIsValid(int16_t code)]: the switch over the CoapCode
    enumerators. *)
Definition coapCodeIsValid (code : Z) : bool :=
  existsb (Z.eqb code) coap_codes.

(** [bool coapOptionIsValid(uint8_t option)] *)
Definition coapOptionIsValid (option : Z) : bool :=
  if (option =? 2) || (option =? 9) || (option =? 10) then false
  else if (option =? 128) || (option =? 132) || (option =? 136)
          || (option =? 140) then false
  else true.

(** ** Header accessors *)

(** [int8_t coapGetVersion(uint8_t *pBuffer, uint16_t bufferLength)] *)
Definition coapGetVersion (pBuffer : list Z) (bufferLength : Z) : res Z :=
  if bufferLength <? COAP_HDR_BYTES then Ret COAP_INVALID_PACKET
  else
    do byte <- rd pBuffer 0;
    let version := s8 (Z.shiftr byte 6) in
    if negb (coapVersionIsValid version) then Ret COAP_INVALID_VERSION
    else Ret version.

(** [int8_t coapGetType(uint8_t *pBuffer, uint16_t bufferLength)] *)
Definition coapGetType (pBuffer : list Z) (bufferLength : Z) : res Z :=
  if bufferLength <? COAP_HDR_BYTES then Ret COAP_INVALID_PACKET
  else
    do byte <- rd pBuffer 0;
    let type := s8 (Z.land (Z.shiftr byte 4) 0x03) in
    if negb (coapTypeIsValid type) then Ret COAP_INVALID_TYPE
    else Ret type.

(** [int8_t coapGetTokenLength(uint8_t *pBuffer, uint16_t bufferLength)];
    the source computes [(int8_t)byte & 0x0F]. *)
Definition coapGetTokenLength (pBuffer : list Z) (bufferLength : Z) : res Z :=
  if bufferLength <? COAP_HDR_BYTES then Ret COAP_INVALID_PACKET
  else
    do byte <- rd pBuffer 0;
    let tokenLength := s8 (Z.land (s8 byte) 0x0F) in
    if negb (coapTokenLengthIsValid tokenLength)
    then Ret COAP_INVALID_TOKEN_LENGTH
    else Ret tokenLength.

(** [int16_t coapGetCode(uint8_t *pBuffer, uint16_t bufferLength)]; the
    local [code] is declared [int8_t], so the byte is narrowed before it is
    tested and returned. *)
Definition coapGetCode (pBuffer : list Z) (bufferLength : Z) : res Z :=
  if bufferLength <? COAP_HDR_BYTES then Ret COAP_INVALID_PACKET
  else
    do byte <- rd pBuffer 1;
    let code := s8 (s16 byte) in
    if negb (coapCodeIsValid code) then Ret COAP_UNKNOWN_CODE
    else Ret code.

(** [int16_t coapGetMessageId(uint8_t *pBuffer, uint16_t bufferLength)] *)
Definition coapGetMessageId (pBuffer : list Z) (bufferLength : Z) : res Z :=
  if bufferLength <? COAP_HDR_BYTES then Ret COAP_INVALID_PACKET
  else
    do firstHalf <- rd pBuffer 2;
    do secondHalf <- rd pBuffer 3;
    let messageId := s16 (Z.lor (Z.shiftl (s16 firstHalf) 8) (s16 secondHalf)) in
    Ret messageId.

(** [n] bytes read from offset [p] on (the source side of a [memcpy] out
    of the buffer). *)
Fixpoint rd_range (m : list Z) (p : Z) (n : nat) : res (list Z) :=
  match n with
  | O => Ret []
  | S n' =>
      do b <- rd m p;
      do bs <- rd_range m (p + 1) n';
      Ret (b :: bs)
  end.

(** [int8_t coapGetToken(uint8_t *pBuffer, uint16_t bufferLength,
    uint8_t *pToken)]: the status, and the bytes copied to [pToken] when
    the copy is made. *)
Definition coapGetToken (pBuffer : list Z) (bufferLength : Z)
  : res (Z * option (list Z)) :=
  if bufferLength <? COAP_HDR_BYTES then Ret (COAP_INVALID_PACKET, None)
  else
    do tokenLength <- coapGetTokenLength pBuffer bufferLength;
    if tokenLength <? 0 then Ret (tokenLength, None)
    else if COAP_HDR_BYTES + tokenLength >? bufferLength
    then Ret (COAP_INSUFFICIENT_BUFFER, None)
    else
      let pointer := COAP_HDR_BYTES in
      if tokenLength >? 0 then
        do tok <- rd_range pBuffer pointer (Z.to_nat tokenLength);
        Ret (COAP_OK, Some tok)
      else Ret (COAP_OK, None).

(** ** Option walk of coapGetOptionCount *)

(** The walk state: [pointer], [newLength] (uint16_t), [count] (int32_t). *)
Record walk := { w_pointer : Z; w_newLength : Z; w_count : Z }.

(** Body of [case 0x0D:] in coapGetOptionCount ([optionLength] is a
    uint8_t there). *)
Definition count_case_0D (pBuffer : list Z) (w : walk) : res walk :=
  let count := s32 (w_count w + 1) in
  let pointer := w_pointer w + 1 in
  do additionalByte <- rd pBuffer pointer;
  let optionLength := u8 (additionalByte + 13) in
  let newLength := u16 (w_newLength w - (optionLength + 2)) in
  let pointer := pointer + (optionLength + 1) in
  Ret {| w_pointer := pointer; w_newLength := newLength; w_count := count |}.

(** Body of [case 0x0E:]; it has no [break] and runs on into
    [case 0x0D:]. *)
Definition count_case_0E (pBuffer : list Z) (w : walk) : res walk :=
  let count := s32 (w_count w + 1) in
  let pointer := w_pointer w + 1 in
  do additionalByte <- rd pBuffer pointer;
  let optionLength := u8 (additionalByte + 269) in
  let newLength := u16 (w_newLength w - (optionLength + 2)) in
  let pointer := pointer + (optionLength + 1) in
  count_case_0D pBuffer
    {| w_pointer := pointer; w_newLength := newLength; w_count := count |}.

(** Body of [default:]. *)
Definition count_default (optionLength : Z) (w : walk) : walk :=
  {| w_pointer := w_pointer w + (optionLength + 1);
     w_newLength := u16 (w_newLength w - (optionLength + 1));
     w_count := s32 (w_count w + 1) |}.

(** [while( byte != COAP_PAYLOAD_MARKER && newLength != 0 )] *)
Fixpoint count_loop (fuel : nat) (pBuffer : list Z) (byte : Z) (w : walk)
  : res Z :=
  match fuel with
  | O => OutOfFuel
  | S fuel' =>
      if negb (byte =? COAP_PAYLOAD_MARKER) && negb (w_newLength w =? 0) then
        let optionLength := u8 (Z.land byte 0x0F) in
        if optionLength =? 0x0F then Ret COAP_INVALID_PACKET
        else
          do w' <- (if optionLength =? 0x0E then count_case_0E pBuffer w
                    else if optionLength =? 0x0D then count_case_0D pBuffer w
                    else Ret (count_default optionLength w));
          do byte' <- rd pBuffer (w_pointer w');
          count_loop fuel' pBuffer byte' w'
      else Ret (w_count w)
  end.

(** [int32_t coapGetOptionCount(uint8_t *pBuffer, uint16_t bufferLength)].
    Every turn of the loop moves the pointer forward and then reads the
    byte under it, so the loop makes at most [length pBuffer] turns. *)
Definition coapGetOptionCount (pBuffer : list Z) (bufferLength : Z) : res Z :=
  if bufferLength <? COAP_HDR_BYTES then Ret COAP_INVALID_PACKET
  else
    do tokenLength <- coapGetTokenLength pBuffer bufferLength;
    if tokenLength <? 0 then Ret tokenLength
    else if COAP_HDR_BYTES + tokenLength =? bufferLength then Ret 0
    else
      let pointer := COAP_HDR_BYTES + tokenLength in
      let newLength := u16 (bufferLength - (COAP_HDR_BYTES + tokenLength)) in
      do byte <- rd pBuffer pointer;
      count_loop (S (length pBuffer)) pBuffer byte
        {| w_pointer := pointer; w_newLength := newLength; w_count := 0 |}.

(** ** Single option decoder *)

(** What coapDecodeOption leaves behind: the return value and the
    out-parameters it wrote ([None]: not written). *)
Record decoded := {
  dec_ret : Z;
  dec_number : option Z;
  dec_data : option Z;
  dec_new : option Z
}.

Definition dec_error (code : Z) : decoded :=
  {| dec_ret := code; dec_number := None; dec_data := None; dec_new := None |}.

(** The extended delta: [optionDelta] is a uint8_t.  [None] is the
    [return COAP_INVALID_PACKET]. *)
Definition decode_delta (m : list Z) (optionDelta p : Z)
  : res (option (Z * Z)) :=
  if optionDelta =? 0x0F then Ret None
  else if optionDelta =? 0x0E then
    do hi <- rd m p;
    do lo <- rd m (p + 1);
    Ret (Some (u8 (Z.shiftl hi 8 + lo + 269), p + 2))
  else if optionDelta =? 0x0D then
    do b <- rd m p;
    Ret (Some (u8 (b + 13), p + 1))
  else if optionDelta <? 0x0D then Ret (Some (optionDelta, p))
  else Ret None.

(** The extended length: [optionLength] is a uint16_t. *)
Definition decode_length (m : list Z) (optionLength p : Z)
  : res (option (Z * Z)) :=
  if optionLength =? 0x0F then Ret None
  else if optionLength =? 0x0E then
    do hi <- rd m p;
    do lo <- rd m (p + 1);
    Ret (Some (u16 (Z.shiftl hi 8 + lo + 269), p + 2))
  else if optionLength =? 0x0D then
    do b <- rd m p;
    Ret (Some (u16 (b + 13), p + 1))
  else if optionLength <? 0x0D then Ret (Some (optionLength, p))
  else Ret None.

(** [int32_t coapDecodeOption(uint8_t *pPointer, uint16_t bufferLength,
    uint8_t *pOptionNumber, uint8_t **pOptionData, uint8_t **pNewPointer)].
    [pOptionNumber] is [Some n] for a pointer to a cell that holds [n] and
    [None] for NULL; [pOptionData] tells whether that pointer is non-NULL. *)
Definition coapDecodeOption (m : list Z) (pPointer : Z) (bufferLength : Z)
    (pOptionNumber : option Z) (pOptionData : bool) : res decoded :=
  if bufferLength =? 0 then Ret (dec_error COAP_END_OF_PACKET)
  else
    do byte <- rd m pPointer;
    if byte =? COAP_PAYLOAD_MARKER then Ret (dec_error COAP_FOUND_PAYLOAD_MARKER)
    else
      let optionDelta := u8 (Z.shiftr byte 4) in
      let optionLength := u16 (Z.land byte 0x0F) in
      let p := pPointer + 1 in
      do d <- decode_delta m optionDelta p;
      match d with
      | None => Ret (dec_error COAP_INVALID_PACKET)
      | Some (optionDelta, p) =>
          do l <- decode_length m optionLength p;
          match l with
          | None => Ret (dec_error COAP_INVALID_PACKET)
          | Some (optionLength, p) =>
              Ret {| dec_ret := optionLength;
                     dec_number :=
                       match pOptionNumber with
                       | Some n => Some (u8 (n + optionDelta))
                       | None => None
                       end;
                     dec_data := if pOptionData then Some p else None;
                     dec_new := Some (p + optionLength) |}
          end
      end.

(** ** Option lookup *)

(** The locals of coapGetOption that the loop changes.  [None] is a
    variable that was never assigned. *)
Record getopt := {
  go_pointer : option Z;
  go_newPointer : option Z;
  go_optionData : option Z;
  go_optionLength : Z;
  go_optionNumber : Z
}.

(** What coapGetOption leaves behind: the return value, and what it does
    to [*pOptionNumber] and [*pOptionData].  For [*pOptionNumber], [None]
    means that nothing is written.  For [*pOptionData], [None] means that
    nothing is written (the call returns before its last test),
    [Some (Some p)] that [pBuffer + p] is stored, and [Some None] that the
    last test [optionData != 0] is made on a local [optionData] that was
    never assigned: the value tested is indeterminate, so [*pOptionData] is
    left alone or receives an indeterminate pointer. *)
Record got := {
  got_ret : Z;
  got_number : option Z;
  got_data : option (option Z)
}.

(** [for( i=0; i < optionIndex; i++ )]: [inl] is the [return] from inside
    the loop.  The result of coapDecodeOption is stored in the uint8_t
    [optionLength], and [newLength] is not changed by the loop. *)
Fixpoint getopt_loop (n : nat) (m : list Z) (newLength : Z) (g : getopt)
  : res (Z + getopt) :=
  match n with
  | O => Ret (inr g)
  | S n' =>
      match go_pointer g with
      | None => Undef
      | Some pointer =>
          do byte <- rd m pointer;
          if byte =? COAP_PAYLOAD_MARKER then Ret (inl COAP_FOUND_PAYLOAD_MARKER)
          else
            do d <- coapDecodeOption m pointer newLength
                      (Some (go_optionNumber g)) true;
            let optionLength := u8 (dec_ret d) in
            if optionLength <? 0 then Ret (inl optionLength)
            else
              let optionNumber :=
                match dec_number d with Some n => n | None => go_optionNumber g end in
              let optionData :=
                match dec_data d with Some p => Some p | None => go_optionData g end in
              let newPointer :=
                match dec_new d with Some p => Some p | None => go_newPointer g end in
              getopt_loop n' m newLength
                {| go_pointer := newPointer;
                   go_newPointer := newPointer;
                   go_optionData := optionData;
                   go_optionLength := optionLength;
                   go_optionNumber := optionNumber |}
      end
  end.

(** [int32_t coapGetOption(uint8_t *pBuffer, uint16_t bufferLength,
    uint8_t optionIndex, uint8_t *pOptionNumber, uint8_t **pOptionData,
    uint8_t *pNewPointer)].  [optionIndex] is a uint8_t: the loop makes
    [u8 optionIndex] turns.  [*pOptionNumber] is written when the number is
    not 0.  The local [optionData] is tested and stored at the end: it
    points into the buffer and is not null when a decoded option assigned
    it, and is indeterminate when none did. *)
Definition coapGetOption (pBuffer : list Z) (bufferLength : Z)
    (optionIndex : Z) : res got :=
  let fail code := Ret {| got_ret := code; got_number := None; got_data := None |} in
  if bufferLength <? COAP_HDR_BYTES then fail COAP_INVALID_PACKET
  else
    do tokenLength <- coapGetTokenLength pBuffer bufferLength;
    if tokenLength <? 0 then fail tokenLength
    else if bufferLength - (COAP_HDR_BYTES + tokenLength) =? 0
    then fail COAP_END_OF_PACKET
    else
      let pointer := COAP_HDR_BYTES + tokenLength in
      let newLength := u16 (bufferLength - (COAP_HDR_BYTES + tokenLength)) in
      do r <- getopt_loop (Z.to_nat (u8 optionIndex)) pBuffer newLength
                {| go_pointer := Some pointer;
                   go_newPointer := None;
                   go_optionData := None;
                   go_optionLength := 0;
                   go_optionNumber := 0 |};
      match r with
      | inl code => fail code
      | inr g =>
          Ret {| got_ret := go_optionLength g;
                 got_number :=
                   if negb (go_optionNumber g =? 0)
                   then Some (go_optionNumber g) else None;
                 got_data := Some (go_optionData g) |}
      end.

(** ** Payload lookup *)

(** The walk state of coapGetPayload: [pointer], [newLength] (int16_t),
    [optionCount] (int32_t). *)
Record pwalk := { pw_pointer : Z; pw_newLength : Z; pw_optionCount : Z }.

(** Body of [case 0x0D:] in coapGetPayload ([optionLength] is an int32_t
    there). *)
Definition payload_case_0D (pBuffer : list Z) (w : pwalk) : res pwalk :=
  let pointer := pw_pointer w + 1 in
  do additionalByte <- rd pBuffer pointer;
  let optionLength := additionalByte + 13 in
  let newLength := s16 (pw_newLength w - (optionLength + 2)) in
  let pointer := pointer + (optionLength + 1) in
  Ret {| pw_pointer := pointer; pw_newLength := newLength;
         pw_optionCount := pw_optionCount w |}.

(** Body of [case 0x0E:], which runs on into [case 0x0D:]. *)
Definition payload_case_0E (pBuffer : list Z) (w : pwalk) : res pwalk :=
  let pointer := pw_pointer w + 1 in
  do additionalByte <- rd pBuffer pointer;
  let optionLength := additionalByte + 269 in
  let newLength := s16 (pw_newLength w - (optionLength + 2)) in
  let pointer := pointer + (optionLength + 1) in
  payload_case_0D pBuffer
    {| pw_pointer := pointer; pw_newLength := newLength;
       pw_optionCount := pw_optionCount w |}.

(** Body of [default:]. *)
Definition payload_default (optionLength : Z) (w : pwalk) : pwalk :=
  {| pw_pointer := pw_pointer w + (optionLength + 1);
     pw_newLength := s16 (pw_newLength w - (optionLength + 1));
     pw_optionCount := pw_optionCount w |}.

(** [while( byte != COAP_PAYLOAD_MARKER || newLength == 0 )]: [inl] is the
    [return] from inside the loop, [inr] the state and byte it is left
    with. *)
Fixpoint payload_loop (fuel : nat) (pBuffer : list Z) (byte : Z) (w : pwalk)
  : res (Z + (Z * pwalk)) :=
  match fuel with
  | O => OutOfFuel
  | S fuel' =>
      if negb (byte =? COAP_PAYLOAD_MARKER) || (pw_newLength w =? 0) then
        let optionLength := Z.land byte 0x0F in
        if optionLength =? 0x0F then Ret (inl COAP_INVALID_PACKET)
        else
          do w' <- (if optionLength =? 0x0E then payload_case_0E pBuffer w
                    else if optionLength =? 0x0D then payload_case_0D pBuffer w
                    else Ret (payload_default optionLength w));
          do byte' <- rd pBuffer (pw_pointer w');
          payload_loop fuel' pBuffer byte'
            {| pw_pointer := pw_pointer w'; pw_newLength := pw_newLength w';
               pw_optionCount := s32 (pw_optionCount w' - 1) |}
      else Ret (inr (byte, w))
  end.

(** [int16_t coapGetPayload(uint8_t *pBuffer, uint16_t bufferLength,
    uint8_t **pPayloadData)]: the return value and the pointer written to
    [*pPayloadData] ([None]: not written). *)
Definition coapGetPayload (pBuffer : list Z) (bufferLength : Z)
  : res (Z * option Z) :=
  let payloadSize := 0 in
  if bufferLength <? COAP_HDR_BYTES then Ret (COAP_INVALID_PACKET, None)
  else
    let newLength := s16 bufferLength in
    do optionCount <- coapGetOptionCount pBuffer bufferLength;
    do tokenLength <- coapGetTokenLength pBuffer bufferLength;
    if optionCount <? 0 then Ret (s16 optionCount, None)
    else if tokenLength <? 0 then Ret (tokenLength, None)
    else if COAP_HDR_BYTES + tokenLength >? bufferLength
    then Ret (COAP_INSUFFICIENT_BUFFER, None)
    else if COAP_HDR_BYTES + tokenLength =? bufferLength
    then Ret (s16 payloadSize, None)
    else
      let pointer := COAP_HDR_BYTES + tokenLength in
      let newLength := s16 (newLength - (COAP_HDR_BYTES + tokenLength)) in
      do byte <- rd pBuffer pointer;
      if (optionCount =? 0) && (byte =? COAP_PAYLOAD_MARKER) then
        let pointer := pointer + 1 in
        let newLength := s16 (newLength - 1) in
        Ret (newLength, Some pointer)
      else if (optionCount >? 0) && (byte =? COAP_PAYLOAD_MARKER) then
        Ret (COAP_INVALID_PACKET, None)
      else
        do r <- payload_loop (S (length pBuffer)) pBuffer byte
                  {| pw_pointer := pointer; pw_newLength := newLength;
                     pw_optionCount := optionCount |};
        match r with
        | inl code => Ret (code, None)
        | inr (byte, w) =>
            if (byte =? COAP_PAYLOAD_MARKER) && negb (pw_newLength w =? 0) then
              let pointer := pw_pointer w + 1 in
              let newLength := s16 (pw_newLength w - 1) in
              Ret (newLength, Some pointer)
            else Ret (COAP_INVALID_PACKET, None)
        end.

(** ** Header mutators

    A mutator gets the array and the value of [*pBufferLength] and gives
    back its return value with the new array and the new [*pBufferLength]. *)

Definition set_result : Type := Z * list Z * Z.

(** [int8_t coapSetVersion(uint8_t *pBuffer, uint16_t *pBufferLength,
    uint8_t version)] *)
Definition coapSetVersion (pBuffer : list Z) (bufferLength : Z) (version : Z)
  : res set_result :=
  if negb (coapVersionIsValid (s8 version))
  then Ret (COAP_INVALID_VERSION, pBuffer, bufferLength)
  else
    do b0 <- rd pBuffer 0;
    do m <- wr pBuffer 0 (u8 (Z.lor (Z.shiftl version 6) (Z.land b0 0x3F)));
    Ret (COAP_OK, m, 1).

(** [int8_t coapSetType(uint8_t *pBuffer, uint16_t *pBufferLength,
    uint8_t type)] *)
Definition coapSetType (pBuffer : list Z) (bufferLength : Z) (type : Z)
  : res set_result :=
  if negb (coapTypeIsValid (s8 type))
  then Ret (COAP_INVALID_TYPE, pBuffer, bufferLength)
  else
    do b0 <- rd pBuffer 0;
    do m <- wr pBuffer 0 (u8 (Z.lor (Z.shiftl type 4) (Z.land b0 0xCF)));
    Ret (COAP_OK, m, 1).

(** [int8_t coapSetTokenLength(uint8_t *pBuffer, uint16_t *pBufferLength,
    uint8_t tokenLength)] *)
Definition coapSetTokenLength (pBuffer : list Z) (bufferLength : Z)
    (tokenLength : Z) : res set_result :=
  if negb (coapTokenLengthIsValid (s8 tokenLength))
  then Ret (COAP_INVALID_TOKEN_LENGTH, pBuffer, bufferLength)
  else
    do b0 <- rd pBuffer 0;
    do m <- wr pBuffer 0 (u8 (Z.lor (Z.land tokenLength 0x0F) b0));
    Ret (COAP_OK, m, 1).

(** [int8_t coapSetCode(uint8_t *pBuffer, uint16_t *pBufferLength,
    CoapCode code)] *)
Definition coapSetCode (pBuffer : list Z) (bufferLength : Z) (code : Z)
  : res set_result :=
  if negb (coapCodeIsValid (s16 code))
  then Ret (COAP_UNKNOWN_CODE, pBuffer, bufferLength)
  else
    do m <- wr pBuffer 1 (u8 code);
    Ret (COAP_OK, m, 2).

(** [int8_t coapSetMessageId(uint8_t *pBuffer, uint16_t *pBufferLength,
    uint16_t messageId)] *)
Definition coapSetMessageId (pBuffer : list Z) (bufferLength : Z)
    (messageId : Z) : res set_result :=
  do m <- wr pBuffer 2 (u8 (Z.shiftr messageId 8));
  do m <- wr m 3 (u8 (Z.land messageId 0xFF));
  Ret (COAP_OK, m, COAP_HDR_BYTES).

(** [int8_t coapSetToken(uint8_t *pBuffer, uint16_t *pBufferLength,
    uint8_t *pToken, uint8_t tokenLength)] *)
Definition coapSetToken (pBuffer : list Z) (bufferLength : Z)
    (pToken : list Z) (tokenLength : Z) : res set_result :=
  if negb (coapTokenLengthIsValid (s8 tokenLength))
  then Ret (COAP_INVALID_TOKEN_LENGTH, pBuffer, bufferLength)
  else
    do m <- memcpy pBuffer COAP_HDR_BYTES pToken tokenLength;
    Ret (COAP_OK, m, u16 (COAP_HDR_BYTES + tokenLength)).

(** [int8_t coapSetPacketHeader(uint8_t *pBuffer, uint16_t *pBufferLength,
    uint8_t version, uint8_t type, uint8_t tokenLength, CoapCode code,
    uint16_t messageId)]; [results] is a uint8_t. *)
Definition coapSetPacketHeader (pBuffer : list Z) (bufferLength : Z)
    (version type tokenLength code messageId : Z) : res set_result :=
  do (r, m, len) <- coapSetVersion pBuffer bufferLength version;
  let results := u8 r in
  if results <? 0 then Ret (s8 results, m, len)
  else
    do (r, m, len) <- coapSetType m len type;
    let results := u8 r in
    if results <? 0 then Ret (s8 results, m, len)
    else
      do (r, m, len) <- coapSetTokenLength m len tokenLength;
      let results := u8 r in
      if results <? 0 then Ret (s8 results, m, len)
      else
        do (r, m, len) <- coapSetCode m len code;
        let results := u8 r in
        if results <? 0 then Ret (s8 results, m, len)
        else
          do (_, m, len) <- coapSetMessageId m len messageId;
          Ret (COAP_OK, m, len).

(** ** Option inserter *)

(** [int8_t coapBuildOptionHeaderLength(uint8_t option, uint8_t optionLength,
    uint8_t pPreviousOption)]; [difference] and [delta] are int8_t. *)
Definition coapBuildOptionHeaderLength (option optionLength pPreviousOption : Z)
  : Z :=
  let length := 1 in
  if negb (coapOptionIsValid option) then COAP_INVALID_OPTION
  else
    let difference := s8 (option - pPreviousOption) in
    if difference <? 0 then COAP_OPTIONS_OUT_OF_ORDER
    else
      let delta := difference in
      let length :=
        if delta <? 13 then length
        else if (delta >=? 13) && (delta <? 269) then s8 (length + 1)
        else if delta >=? 269 then s8 (length + 2)
        else length in
      let length :=
        if optionLength <? 13 then length
        else if (optionLength >=? 13) && (optionLength <? 269) then s8 (length + 1)
        else if optionLength >=? 269 then s8 (length + 2)
        else length in
      length.

(** [int8_t coapBuildOptionHeader(uint8_t *pBuffer, uint16_t *pBufferLength,
    uint8_t option, uint8_t previousOption, uint8_t optionLength,
    uint8_t optionHeaderLength, uint8_t **pNewPointer)]: the return value,
    the new array and the new [*pNewPointer].  [delta] and [length] are
    uint8_t. *)
Definition coapBuildOptionHeader (pBuffer : list Z) (bufferLength : Z)
    (option previousOption optionLength optionHeaderLength : Z)
    (pNewPointer : Z) : res (Z * list Z * Z) :=
  let pointer := pNewPointer in
  let newPointer := pNewPointer in
  let length := optionLength in
  if bufferLength <? COAP_HDR_BYTES
  then Ret (COAP_INVALID_PACKET, pBuffer, pNewPointer)
  else if negb (coapOptionIsValid option)
          || negb (coapOptionIsValid previousOption)
  then Ret (COAP_INVALID_OPTION, pBuffer, pNewPointer)
  else
    do tokenLength <- coapGetTokenLength pBuffer bufferLength;
    if tokenLength <? 0 then Ret (tokenLength, pBuffer, pNewPointer)
    else if COAP_HDR_BYTES + tokenLength + optionLength + optionHeaderLength
            >? MAX_BUFFER_SIZE
    then Ret (COAP_INSUFFICIENT_BUFFER, pBuffer, pNewPointer)
    else
      let delta := u8 (option - previousOption) in
      if delta <? 0 then Ret (COAP_OPTIONS_OUT_OF_ORDER, pBuffer, pNewPointer)
      else
        let newPointer := if delta <? 13 then newPointer + 1 else newPointer in
        do (delta, m, newPointer) <-
          (if (delta >=? 13) && (delta <? 269) then
             let newPointer := newPointer + 1 in
             do m <- wr pBuffer newPointer (u8 (option - 13));
             Ret (0x0D, m, newPointer)
           else if delta >=? 269 then
             let delta := 0x0E in
             let newPointer := newPointer + 1 in
             do m <- wr pBuffer newPointer (u8 (Z.shiftr (delta - 269) 8));
             let newPointer := newPointer + 1 in
             do m <- wr m newPointer (u8 (Z.land (delta - 269) 0xFF));
             Ret (delta, m, newPointer)
           else Ret (delta, pBuffer, newPointer));
        do (length, m, newPointer) <-
          (if (optionLength >=? 13) && (optionLength <? 269) then
             do m <- wr m newPointer (u8 (optionLength - 13));
             Ret (0x0D, m, newPointer + 1)
           else if optionLength >=? 269 then
             do m <- wr m newPointer (u8 (Z.shiftr (optionLength - 269) 8));
             let newPointer := newPointer + 1 in
             do m <- wr m newPointer (u8 (Z.land (optionLength - 269) 0xFF));
             Ret (0x0E, m, newPointer + 1)
           else Ret (length, m, newPointer));
        do m <- wr m pointer
                  (u8 (Z.lor (Z.shiftl (Z.land delta 0x0F) 4) length));
        Ret (s8 newPointer, m, newPointer).

(** What coapAddOption leaves behind: return value, array,
    [*pBufferLength] and [*pNewPointer]. *)
Record added := {
  add_ret : Z;
  add_buffer : list Z;
  add_length : Z;
  add_newPointer : option Z
}.

(** [int8_t coapAddOption(uint8_t *pBuffer, uint16_t *pBufferLength,
    uint8_t option, uint8_t optionLength, uint8_t *pOptionData,
    uint8_t **pNewPointer)].  [pNewPointer] is the value of [*pNewPointer]:
    [Some p] for [pBuffer + p], [None] for a null pointer.  [tokenLength]
    is a uint8_t, [optionCount], [previousOption] and [optionHeaderLength]
    are int8_t; [previousOption] stays unassigned when coapGetOption does
    not write it. *)
Definition coapAddOption (pBuffer : list Z) (bufferLength : Z)
    (option optionLength : Z) (pOptionData : list Z)
    (pNewPointer : Datatypes.option Z)
  : res added :=
  let stop code :=
    Ret {| add_ret := code; add_buffer := pBuffer;
           add_length := bufferLength; add_newPointer := pNewPointer |} in
  let newPointer := pNewPointer in
  if bufferLength <? COAP_HDR_BYTES then stop COAP_INVALID_PACKET
  else
    do tl <- coapGetTokenLength pBuffer bufferLength;
    let tokenLength := u8 tl in
    do oc <- coapGetOptionCount pBuffer bufferLength;
    let optionCount := s8 oc in
    if tokenLength <? 0 then stop (s8 tokenLength)
    else if optionCount <? 0 then stop optionCount
    else if negb (coapOptionIsValid option) then stop COAP_INVALID_OPTION
    else
      do (previousOption, newPointer) <-
        (if optionCount >? 0 then
           do g <- coapGetOption pBuffer bufferLength (u8 optionCount);
           match got_number g with
           | Some n => Ret (s8 n, newPointer)
           | None => Undef
           end
         else
           match newPointer with
           | Some p => Ret (0, Some (p + (COAP_HDR_BYTES + tokenLength)))
           | None => Undef
           end);
      let optionHeaderLength :=
        s8 (coapBuildOptionHeaderLength option optionLength (u8 previousOption)) in
      if optionHeaderLength <? 0 then stop optionHeaderLength
      else if COAP_HDR_BYTES + tokenLength + optionLength + optionHeaderLength
              >? MAX_BUFFER_SIZE
      then stop COAP_INSUFFICIENT_BUFFER
      else
        match newPointer with
        | None => Undef
        | Some np =>
            if negb (np =? bufferLength) && bool_decide (pNewPointer <> None)
            then stop COAP_INVALID_PACKET
            else
              do (r, m, np) <-
                coapBuildOptionHeader pBuffer bufferLength option
                  (u8 previousOption) optionLength (u8 optionHeaderLength) np;
              let bufferLength := u16 r in
              if bufferLength <? 0 then
                Ret {| add_ret := s8 bufferLength; add_buffer := m;
                       add_length := bufferLength;
                       add_newPointer := pNewPointer |}
              else
                do m <- memcpy m np pOptionData optionLength;
                let bufferLength := u16 (bufferLength + optionLength) in
                let np := np + optionLength in
                Ret {| add_ret := COAP_OK; add_buffer := m;
                       add_length := bufferLength;
                       add_newPointer := Some np |}
        end.

(** ** Payload mutator *)

(** What coapSetPayload leaves behind: return value, array,
    [*pBufferLength] and [*pNewPointer]. *)
Record payload_set := {
  ps_ret : Z;
  ps_buffer : list Z;
  ps_length : Z;
  ps_newPointer : option Z
}.

(** [int32_t coapSetPayload(uint8_t *pBuffer, uint16_t *pBufferLength,
    uint16_t payloadLength, uint8_t *pPayloadData, uint8_t *pPointer,
    uint8_t **pNewPointer)]; [tokenLength] is a uint8_t.  The guard
    [*pPayloadData != 0] reads the first byte of the payload data. *)
Definition coapSetPayload (pBuffer : list Z) (bufferLength : Z)
    (payloadLength : Z) (pPayloadData : list Z) (pPointer : Z)
    (pNewPointer : option Z) : res payload_set :=
  let stop code :=
    Ret {| ps_ret := code; ps_buffer := pBuffer;
           ps_length := bufferLength; ps_newPointer := pNewPointer |} in
  if bufferLength <? COAP_HDR_BYTES then stop COAP_INVALID_PACKET
  else
    do tl <- coapGetTokenLength pBuffer bufferLength;
    let tokenLength := u8 tl in
    if tokenLength <? 0 then stop tokenLength
    else if payloadLength <=? 0 then stop COAP_INVALID_PAYLOAD
    else if (payloadLength >=? MAX_BUFFER_SIZE)
            || (COAP_HDR_BYTES + tokenLength + payloadLength >? MAX_BUFFER_SIZE)
    then stop COAP_INSUFFICIENT_BUFFER
    else
      do first <- rd pPayloadData 0;
      if negb (first =? 0) then
        do m <- wr pBuffer pPointer COAP_PAYLOAD_MARKER;
        let pPointer := pPointer + 1 in
        do m <- memcpy m pPointer pPayloadData payloadLength;
        Ret {| ps_ret := COAP_OK; ps_buffer := m;
               ps_length := u16 (bufferLength + (payloadLength + 1));
               ps_newPointer := Some (pPointer + payloadLength) |}
      else stop COAP_OK.

(** ** Packet validator *)

(** The four header tests, which both branches of coapValidatePacket make
    in the same way: [Some r] is [return r].  The last one passes the
    result of coapGetType to coapCodeIsValid. *)
Definition validate_header (pBuffer : list Z) (bufferLength : Z)
  : res (option Z) :=
  do v <- coapGetVersion pBuffer bufferLength;
  if negb (coapVersionIsValid v) then Ret (Some v)
  else
    do t <- coapGetType pBuffer bufferLength;
    if negb (coapTypeIsValid t) then Ret (Some t)
    else
      do tl <- coapGetTokenLength pBuffer bufferLength;
      if negb (coapTokenLengthIsValid tl) then Ret (Some tl)
      else
        do t <- coapGetType pBuffer bufferLength;
        if negb (coapCodeIsValid t) then Ret (Some t)
        else Ret None.

(** [for( i=0; i<optionCount; i++ )] with [n] turns left; the index is
    passed as a uint8_t. *)
Fixpoint validate_options (n : nat) (pBuffer : list Z) (bufferLength : Z)
    (i : Z) : res Z :=
  match n with
  | O => Ret COAP_OK
  | S n' =>
      do g <- coapGetOption pBuffer bufferLength (u8 i);
      if got_ret g <? 0 then Ret (s8 (got_ret g))
      else validate_options n' pBuffer bufferLength (i + 1)
  end.

(** [int8_t coapValidatePacket(uint8_t *pBuffer, uint16_t bufferLength)];
    on an error of coapGetOptionCount the source has [return false]. *)
Definition coapValidatePacket (pBuffer : list Z) (bufferLength : Z) : res Z :=
  if bufferLength =? COAP_HDR_BYTES then
    do h <- validate_header pBuffer bufferLength;
    match h with
    | Some r => Ret r
    | None => Ret COAP_OK
    end
  else
    do h <- validate_header pBuffer bufferLength;
    match h with
    | Some r => Ret r
    | None =>
        do optionCount <- coapGetOptionCount pBuffer bufferLength;
        if optionCount <? 0 then Ret 0
        else validate_options (Z.to_nat optionCount) pBuffer bufferLength 0
    end.

(** ** The round trip of a logical message

    The encode and decode pipelines of the round-trip property, composed of
    the routines above the way a caller composes them: header, token, one
    coapAddOption per option (the tail pointer starts at [pBuffer] and is
    threaded through [*pNewPointer]), then the payload at the tail.  The
    buffer is a zeroed array of [capacity] bytes.  [None] is an error code
    returned by one of the routines. *)

Record message := {
  msg_version : Z;
  msg_type : Z;
  msg_token : list Z;
  msg_code : Z;
  msg_id : Z;
  msg_options : list (Z * list Z);
  msg_payload : list Z
}.

Fixpoint add_options (opts : list (Z * list Z)) (m : list Z) (len : Z)
    (tail : option Z) : res (option (list Z * Z * option Z)) :=
  match opts with
  | [] => Ret (Some (m, len, tail))
  | (number, value) :: opts' =>
      do a <- coapAddOption m len number (len_of value) value tail;
      if add_ret a <? 0 then Ret None
      else add_options opts' (add_buffer a) (add_length a) (add_newPointer a)
  end.

Definition encode (capacity : nat) (M : message)
  : res (option (list Z * Z)) :=
  do (r, m, len) <- coapSetPacketHeader (zeros capacity) 0 (msg_version M)
                      (msg_type M) (len_of (msg_token M)) (msg_code M)
                      (msg_id M);
  if r <? 0 then Ret None
  else
    do (r, m, len) <- coapSetToken m len (msg_token M) (len_of (msg_token M));
    if r <? 0 then Ret None
    else
      do o <- add_options (msg_options M) m len (Some 0);
      match o with
      | None => Ret None
      | Some (m, len, tail) =>
          match msg_payload M with
          | [] => Ret (Some (m, len))
          | _ :: _ =>
              let pPointer :=
                match msg_options M, tail with
                | _ :: _, Some p => p
                | _, _ => len
                end in
              do s <- coapSetPayload m len (len_of (msg_payload M))
                        (msg_payload M) pPointer tail;
              if ps_ret s <? 0 then Ret None
              else Ret (Some (ps_buffer s, ps_length s))
          end
      end.

(** The option that coapGetOption hands back for [optionIndex]: number and
    value bytes. *)
Definition get_option (m : list Z) (len : Z) (optionIndex : Z)
  : res (option (Z * list Z)) :=
  do g <- coapGetOption m len optionIndex;
  if got_ret g <? 0 then Ret None
  else
    match got_number g, got_data g with
    | Some number, Some (Some p) =>
        do value <- rd_range m p (Z.to_nat (got_ret g));
        Ret (Some (number, value))
    | _, _ => Ret None
    end.

(** Options 1 .. n, the indices for which coapGetOption decodes an
    option (coapAddOption fetches the last option with index
    [optionCount]). *)
Fixpoint get_options (n : nat) (m : list Z) (len : Z) (optionIndex : Z)
  : res (option (list (Z * list Z))) :=
  match n with
  | O => Ret (Some [])
  | S n' =>
      do o <- get_option m len optionIndex;
      match o with
      | None => Ret None
      | Some x =>
          do r <- get_options n' m len (optionIndex + 1);
          Ret (option_map (cons x) r)
      end
  end.

Definition decode (m : list Z) (len : Z) : res (option message) :=
  do version <- coapGetVersion m len;
  do type <- coapGetType m len;
  do (rt, token) <- coapGetToken m len;
  do code <- coapGetCode m len;
  do id <- coapGetMessageId m len;
  do count <- coapGetOptionCount m len;
  do (rp, pdata) <- coapGetPayload m len;
  if (version <? 0) || (type <? 0) || (rt <? 0) || (code <? 0)
     || (count <? 0) || (rp <? 0)
  then Ret None
  else
    do options <- get_options (Z.to_nat count) m len 1;
    do payload <- match pdata with
                  | Some p => rd_range m p (Z.to_nat rp)
                  | None => Ret []
                  end;
    match options with
    | None => Ret None
    | Some options =>
        Ret (Some {| msg_version := version; msg_type := type;
                     msg_token := match token with Some t => t | None => [] end;
                     msg_code := code;
                     msg_id := id; msg_options := options;
                     msg_payload := payload |})
    end.

Definition round_trip (capacity : nat) (M : message) : Prop :=
  exists m len, encode capacity M = Ret (Some (m, len))
                /\ decode m len = Ret (Some M).

Definition get_request (opts : list (Z * list Z)) (payload : list Z) : message :=
  {| msg_version := 1; msg_type := 0; msg_token := []; msg_code := 1;
     msg_id := 0x1234; msg_options := opts; msg_payload := payload |}.

(** ** Bytes read by the option decoder *)

(** Number of extension bytes that a delta or length nibble selects. *)
Definition ext_bytes (nibble : Z) : Z :=
  if nibble =? 0x0E then 2 else if nibble =? 0x0D then 1 else 0.

(** The byte at position [p] of the array (0 outside of it). *)
Definition byte_at (m : list Z) (p : Z) : Z := nth (Z.to_nat p) m 0.

(** The value of a nibble whose extension bytes start at [p], as
    coapDecodeOption computes it before it is stored in the uint8_t
    [optionDelta] or the uint16_t [optionLength]: the nibble itself below
    13, [*pPointer + 13] for 13, and
    [( *pPointer << 8 ) + *(pPointer + 1) + 269] for 14. *)
Definition ext_value (m : list Z) (nibble p : Z) : Z :=
  if nibble =? 0x0E then byte_at m p * 256 + byte_at m (p + 1) + 269
  else if nibble =? 0x0D then byte_at m p + 13
  else nibble.

(** ** Option regions without a delta escape

    An option as a pair of its delta and its value.  [wire_option] is its
    wire form when the delta fits the nibble (0..12) and the value is at
    most 255 bytes long (the range of the uint8_t [optionLength] of
    coapAddOption): one option byte, the one-byte length extension for a
    length of 13 or more, and the value. *)

Definition wire_option (o : Z * list Z) : list Z :=
  if len_of (snd o) <? 13
  then (fst o * 16 + len_of (snd o)) :: snd o
  else (fst o * 16 + 13) :: (len_of (snd o) - 13) :: snd o.

Definition wire_options (os : list (Z * list Z)) : list Z :=
  flat_map wire_option os.

Definition option_ok (o : Z * list Z) : Prop :=
  0 <= fst o <= 12 /\ len_of (snd o) <= 255.

(** The option byte of [wire_option]: its two nibbles. *)
Definition option_byte (o : Z * list Z) : Z :=
  fst o * 16 + (if len_of (snd o) <? 13 then len_of (snd o) else 13).

(** The number of the last option: the sum of the deltas. *)
Definition last_number (os : list (Z * list Z)) : Z :=
  fold_right (fun o acc => fst o + acc) 0 os.

(** A buffer with header byte 0 .. 3, a token, an option region without
    delta escapes, and the bytes [rest] of the array behind the length. *)
Definition plain_buffer (b0 c i1 i2 : Z) (token : list Z)
    (os : list (Z * list Z)) (rest : list Z) : list Z :=
  [b0; c; i1; i2] ++ token ++ wire_options os ++ rest.

Definition plain_length (token : list Z) (os : list (Z * list Z)) : Z :=
  COAP_HDR_BYTES + len_of token + len_of (wire_options os).

(** An array of unsigned bytes. *)
Definition bytes_unsigned (m : list Z) : Prop := Forall (fun b => 0 <= b) m.

(** ** Size of a zero-terminated buffer *)

(** [while( *pointer != 0 )] of coapGetSize; [count] is an int16_t. *)
Fixpoint size_loop (fuel : nat) (pBuffer : list Z) (pointer count : Z)
  : res Z :=
  match fuel with
  | O => OutOfFuel
  | S fuel' =>
      do byte <- rd pBuffer pointer;
      if negb (byte =? 0)
      then size_loop fuel' pBuffer (pointer + 1) (s16 (count + 1))
      else Ret count
  end.

(** [int16_t coapGetSize(uint8_t *pBuffer)].  Every turn of the loop reads
    the byte under the pointer and moves the pointer forward, so the loop
    makes at most [length pBuffer] turns before it reads behind the
    array. *)
Definition coapGetSize (pBuffer : list Z) : res Z :=
  size_loop (S (length pBuffer)) pBuffer 0 0.

(** ** Messages whose options need no delta escape

    The options of a [message] carry their numbers.  [deltas previous opts]
    is the same list with every number replaced by its difference to the
    number before it, [previous] being the number before the first one. *)

Fixpoint deltas (previous : Z) (opts : list (Z * list Z)) : list (Z * list Z) :=
  match opts with
  | [] => []
  | (number, value) :: opts' => (number - previous, value) :: deltas number opts'
  end.

(** Options that coapAddOption accepts one after the other, each without a
    delta escape: numbers 1..255 that coapOptionIsValid accepts, each 0..12
    above the one before, with values of at most 255 bytes. *)
Fixpoint options_plain (previous : Z) (opts : list (Z * list Z)) : Prop :=
  match opts with
  | [] => True
  | (number, value) :: opts' =>
      coapOptionIsValid number = true
      /\ 0 < number <= 255
      /\ 0 <= number - previous <= 12
      /\ len_of value <= 255
      /\ options_plain number opts'
  end.

(** A message that the pipeline [encode] writes without a delta escape and
    that its accessors read back: version 1, a type 0..3, a token of at most
    8 bytes, a code of the enumeration below 0x80, a message id below
    0x8000, options as above that end at an offset of at most 127, and
    either a payload whose first byte is not 0 or neither options nor
    payload. *)
Definition message_plain (M : message) : Prop :=
  msg_version M = COAP_VERSION
  /\ 0 <= msg_type M <= 3
  /\ len_of (msg_token M) <= 8
  /\ In (msg_code M) coap_codes /\ msg_code M < 0x80
  /\ 0 <= msg_id M < 0x8000
  /\ options_plain 0 (msg_options M)
  /\ plain_length (msg_token M) (deltas 0 (msg_options M)) <= 127
  /\ match msg_payload M with
     | [] => msg_options M = []
     | first :: _ =>
         first <> 0
         /\ COAP_HDR_BYTES + len_of (msg_token M) + len_of (msg_payload M)
            <= MAX_BUFFER_SIZE
     end.

(** The length of the message that [encode] writes. *)
Definition encoded_length (M : message) : Z :=
  plain_length (msg_token M) (deltas 0 (msg_options M))
  + match msg_payload M with
    | [] => 0
    | _ :: _ => 1 + len_of (msg_payload M)
    end.

(** What [encode] writes for a message of [message_plain]: the header
    bytes, the token, the options with their deltas, and the marker with the
    payload if there is one; [rest] is what is left of the zeroed array. *)
Definition encoded (M : message) (rest : list Z) : list Z :=
  plain_buffer (64 + 16 * msg_type M + len_of (msg_token M)) (msg_code M)
    (msg_id M / 256) (msg_id M mod 256) (msg_token M)
    (deltas 0 (msg_options M))
    (match msg_payload M with
     | [] => rest
     | _ :: _ => COAP_PAYLOAD_MARKER :: msg_payload M ++ rest
     end).

(** * Properties *)

(** ** Arithmetic of the fixed-width conversions *)

Lemma u8_small x : 0 <= x < 256 -> u8 x = x.
Proof. intros H. unfold u8. apply Z.mod_small. exact H. Qed.

Lemma u16_small x : 0 <= x < 65536 -> u16 x = x.
Proof. intros H. unfold u16. apply Z.mod_small. exact H. Qed.

Lemma s8_small x : -128 <= x < 128 -> s8 x = x.
Proof. intros H. unfold s8. rewrite Z.mod_small; lia. Qed.

Lemma s16_small x : -32768 <= x < 32768 -> s16 x = x.
Proof. intros H. unfold s16. rewrite Z.mod_small; lia. Qed.

Lemma s32_small x : -2147483648 <= x < 2147483648 -> s32 x = x.
Proof. intros H. unfold s32. rewrite Z.mod_small; lia. Qed.

Lemma s16_high x : 32768 <= x < 65536 -> s16 x = x - 65536.
Proof.
  intros H. unfold s16.
  replace (x + 32768) with ((x - 32768) + 1 * 65536) by lia.
  rewrite Z.mod_add by lia. rewrite Z.mod_small; lia.
Qed.

Lemma u8_nonneg (x : Z) : 0 <= u8 x.
Proof. unfold u8. apply Z.mod_pos_bound. lia. Qed.

Lemma u8_add_u8 (a b : Z) : u8 (u8 a + b) = u8 (a + b).
Proof. unfold u8. apply Zplus_mod_idemp_l. Qed.

Lemma u8_s8 (x : Z) : u8 (s8 x) = u8 x.
Proof.
  unfold u8, s8. rewrite Zminus_mod_idemp_l.
  replace (x + 128 - 128) with x by lia. reflexivity.
Qed.

Lemma land_15_mod x : Z.land x 0x0F = x mod 16.
Proof. change 0x0F with (Z.ones 4). rewrite Z.land_ones by lia. reflexivity. Qed.

Lemma s8_mod_16 x : s8 x mod 16 = x mod 16.
Proof.
  unfold s8.
  pose proof (Z.mod_pos_bound (x + 128) 256 ltac:(lia)).
  pose proof (Z.div_mod (x + 128) 256 ltac:(lia)).
  replace ((x + 128) mod 256 - 128)
    with (x + (- 16 * ((x + 128) / 256)) * 16) by lia.
  apply Z.mod_add. lia.
Qed.

Lemma nibbles (d l : Z) :
  0 <= d -> 0 <= l < 16 ->
  Z.shiftr (d * 16 + l) 4 = d /\ Z.land (d * 16 + l) 0x0F = l.
Proof.
  intros Hd Hl. split.
  - rewrite Z.shiftr_div_pow2 by lia. change (2 ^ 4) with 16.
    rewrite Z.div_add_l by lia. rewrite Z.div_small by lia. lia.
  - rewrite land_15_mod. rewrite Z.add_comm, Z.mod_add by lia.
    apply Z.mod_small. lia.
Qed.

Lemma lor_shiftl_8 hi lo :
  0 <= hi -> 0 <= lo < 256 -> Z.lor (Z.shiftl hi 8) lo = hi * 256 + lo.
Proof.
  intros Hhi Hlo.
  assert (Hland : Z.land (Z.shiftl hi 8) lo = 0).
  { apply Z.bits_inj'. intros n Hn.
    rewrite Z.land_spec, Z.bits_0.
    destruct (Z.lt_ge_cases n 8) as [Hlt | Hge].
    - rewrite Z.shiftl_spec_low by lia. reflexivity.
    - destruct (Z.eq_dec lo 0) as [-> | Hne].
      + rewrite Z.bits_0. apply andb_false_r.
      + rewrite (Z.bits_above_log2 lo n); [apply andb_false_r | lia |].
        apply Z.log2_lt_pow2; [lia |].
        apply Z.lt_le_trans with (2 ^ 8); [simpl; lia |].
        apply Z.pow_le_mono_r; lia. }
  pose proof (Z.add_lor_land (Z.shiftl hi 8) lo) as Hadd.
  rewrite Hland, Z.add_0_r in Hadd.
  rewrite Hadd, Z.shiftl_mul_pow2 by lia. reflexivity.
Qed.

Lemma lor_below_256 a b : 0 <= a < 256 -> 0 <= b < 256 -> 0 <= Z.lor a b < 256.
Proof.
  intros Ha Hb.
  assert (Hnn : 0 <= Z.lor a b) by (apply Z.lor_nonneg; lia).
  split; [exact Hnn |].
  assert (Heq : Z.lor a b = Z.lor a b mod 2 ^ 8).
  { apply Z.bits_inj'. intros n Hn.
    destruct (Z.lt_ge_cases n 8) as [Hlt | Hge].
    - rewrite Z.mod_pow2_bits_low by lia. reflexivity.
    - rewrite Z.mod_pow2_bits_high by lia.
      rewrite Z.lor_spec.
      assert (Hbit : forall c, 0 <= c < 256 -> Z.testbit c n = false).
      { intros c Hc. destruct (Z.eq_dec c 0) as [-> | Hne].
        - apply Z.bits_0.
        - apply Z.bits_above_log2; [lia |].
          apply Z.lt_le_trans with 8; [| lia].
          apply Z.log2_lt_pow2; simpl; lia. }
      rewrite (Hbit a Ha), (Hbit b Hb). reflexivity. }
  rewrite Heq. apply Z.mod_pos_bound. simpl; lia.
Qed.

(** ** Reads and the result monad *)

Lemma rd_lookup (m : list Z) (p b : Z) :
  0 <= p -> m !! Z.to_nat p = Some b -> rd m p = Ret b.
Proof.
  intros Hp Hb. unfold rd.
  destruct (p <? 0) eqn:E; [apply Z.ltb_lt in E; lia |].
  rewrite Hb. reflexivity.
Qed.

Lemma rd_inside (m : list Z) (p : Z) :
  0 <= p < len_of m -> exists b, rd m p = Ret b.
Proof.
  intros Hp. unfold len_of in Hp.
  destruct (lookup_lt_is_Some_2 m (Z.to_nat p)) as [b Hb]; [lia |].
  exists b. apply rd_lookup; [lia | exact Hb].
Qed.

Lemma rd_Ret_inside (m : list Z) (p b : Z) :
  rd m p = Ret b -> 0 <= p < len_of m /\ m !! Z.to_nat p = Some b.
Proof.
  unfold rd, len_of. destruct (p <? 0) eqn:E; [discriminate |].
  apply Z.ltb_ge in E.
  destruct (m !! Z.to_nat p) as [c |] eqn:Hl; [| discriminate].
  intros [= ->]. apply lookup_lt_Some in Hl as Hlt. split; [lia | reflexivity].
Qed.

Lemma rd_outside (m : list Z) (p : Z) : len_of m <= p -> rd m p = Undef.
Proof.
  intros Hp. unfold rd, len_of in *.
  destruct (Z.ltb_spec p 0); [reflexivity |].
  rewrite lookup_ge_None_2 by lia. reflexivity.
Qed.

Lemma rd_head (x : Z) (l : list Z) : rd (x :: l) 0 = Ret x.
Proof. reflexivity. Qed.

Lemma rd_second (x y : Z) (l : list Z) : rd (x :: y :: l) 1 = Ret y.
Proof. reflexivity. Qed.

Lemma len_of_app (a b : list Z) : len_of (a ++ b) = len_of a + len_of b.
Proof. unfold len_of. rewrite length_app. lia. Qed.

Lemma len_of_nonneg (a : list Z) : 0 <= len_of a.
Proof. unfold len_of. lia. Qed.

Lemma rd_app_r (pre l : list Z) (k : Z) :
  0 <= k -> rd (pre ++ l) (len_of pre + k) = rd l k.
Proof.
  intros Hk. unfold rd, len_of.
  destruct (Z.ltb_spec (Z.of_nat (length pre) + k) 0) as [E1 | E1]; [lia |].
  destruct (Z.ltb_spec k 0) as [E2 | E2]; [lia |].
  rewrite lookup_app_r by lia.
  replace (Z.to_nat (Z.of_nat (length pre) + k) - length pre)%nat
    with (Z.to_nat k) by lia.
  reflexivity.
Qed.

Lemma rd_app_0 (pre l : list Z) : rd (pre ++ l) (len_of pre) = rd l 0.
Proof. rewrite <- (rd_app_r pre l 0) by lia. rewrite Z.add_0_r. reflexivity. Qed.

Lemma rd_unsigned (m : list Z) (p b : Z) :
  bytes_unsigned m -> rd m p = Ret b -> 0 <= b.
Proof.
  intros Hm Hb. apply rd_Ret_inside in Hb as [_ Hb].
  unfold bytes_unsigned in Hm. rewrite Forall_lookup in Hm.
  apply (Hm _ _ Hb).
Qed.

Lemma bind_has_fuel {A B : Type} (x : res A) (k : A -> res B) :
  x <> OutOfFuel -> (forall a, x = Ret a -> k a <> OutOfFuel) ->
  bind x k <> OutOfFuel.
Proof.
  intros Hx Hk. destruct x as [a | |]; cbn [bind];
    [apply Hk; reflexivity | discriminate | contradiction].
Qed.

Lemma rd_has_fuel (m : list Z) (p : Z) : rd m p <> OutOfFuel.
Proof.
  unfold rd. destruct (p <? 0); [discriminate |].
  destruct (m !! Z.to_nat p); discriminate.
Qed.

(** ** Header accessors and mutators *)

(** The token length is the low nibble of byte 0, or
    COAP_INVALID_TOKEN_LENGTH for 9..15. *)
Lemma coapGetTokenLength_spec (m : list Z) (len b0 : Z) :
  COAP_HDR_BYTES <= len -> rd m 0 = Ret b0 -> 0 <= b0 < 256 ->
  coapGetTokenLength m len
  = Ret (if b0 mod 16 <? 9 then b0 mod 16 else COAP_INVALID_TOKEN_LENGTH).
Proof.
  intros Hlen Hb0 Hr. unfold coapGetTokenLength.
  destruct (len <? COAP_HDR_BYTES) eqn:E; [apply Z.ltb_lt in E; lia |].
  rewrite Hb0. simpl.
  rewrite land_15_mod, s8_mod_16.
  pose proof (Z.mod_pos_bound b0 16 ltac:(lia)) as Hm.
  rewrite s8_small by lia.
  unfold coapTokenLengthIsValid.
  destruct (b0 mod 16 >=? 9) eqn:E1, (b0 mod 16 <? 9) eqn:E2; try reflexivity; lia.
Qed.

Lemma coapGetTokenLength_range (m : list Z) (len r : Z) :
  coapGetTokenLength m len = Ret r ->
  (r = COAP_INVALID_PACKET /\ len < COAP_HDR_BYTES)
  \/ r = COAP_INVALID_TOKEN_LENGTH \/ 0 <= r < 9.
Proof.
  unfold coapGetTokenLength.
  destruct (len <? COAP_HDR_BYTES) eqn:E.
  - intros [= <-]. left. split; [reflexivity | apply Z.ltb_lt; exact E].
  - destruct (rd m 0) as [byte | |]; cbn [bind]; try discriminate.
    rewrite land_15_mod.
    pose proof (Z.mod_pos_bound (s8 byte) 16 ltac:(lia)) as Hm.
    rewrite s8_small by lia.
    unfold coapTokenLengthIsValid.
    destruct (s8 byte mod 16 >=? 9) eqn:E9; cbn [negb]; intros [= <-].
    + right; left; reflexivity.
    + right; right. lia.
Qed.

Lemma coapGetTokenLength_has_fuel (m : list Z) (len : Z) :
  coapGetTokenLength m len <> OutOfFuel.
Proof.
  unfold coapGetTokenLength. destruct (len <? COAP_HDR_BYTES); [discriminate |].
  apply bind_has_fuel; [apply rd_has_fuel |].
  intros byte _. cbv zeta.
  destruct (negb _); discriminate.
Qed.

(** C9: for a buffer of at least four bytes coapGetMessageId returns the
    big-endian 16-bit value of bytes 2 and 3 narrowed to int16_t.  A
    message id of 0x8000 or more comes back negative, and 0xFFFF comes back
    as -1, the value of COAP_INVALID_PACKET that a too short buffer
    yields. *)
Theorem coapGetMessageId_signed (m : list Z) (len b2 b3 : Z) :
  COAP_HDR_BYTES <= len ->
  rd m 2 = Ret b2 -> rd m 3 = Ret b3 ->
  0 <= b2 < 256 -> 0 <= b3 < 256 ->
  coapGetMessageId m len = Ret (s16 (b2 * 256 + b3))
  /\ (b2 * 256 + b3 < 0x8000 -> s16 (b2 * 256 + b3) = b2 * 256 + b3)
  /\ (0x8000 <= b2 * 256 + b3 ->
      s16 (b2 * 256 + b3) = b2 * 256 + b3 - 65536
      /\ -32768 <= s16 (b2 * 256 + b3) < 0)
  /\ (b2 * 256 + b3 = 0xFFFF ->
      coapGetMessageId m len = Ret COAP_INVALID_PACKET
      /\ coapGetMessageId m len = coapGetMessageId [] 0).
Proof.
  intros Hlen H2 H3 Hb2 Hb3.
  assert (Hget : coapGetMessageId m len = Ret (s16 (b2 * 256 + b3))).
  { unfold coapGetMessageId.
    destruct (len <? COAP_HDR_BYTES) eqn:E; [apply Z.ltb_lt in E; lia |].
    rewrite H2, H3. cbn [bind].
    rewrite (s16_small b2), (s16_small b3) by lia.
    rewrite lor_shiftl_8 by lia. reflexivity. }
  split; [exact Hget |].
  split; [intros Hlt; apply s16_small; lia |].
  split.
  - intros Hge. rewrite s16_high by lia. lia.
  - intros Heq. rewrite Hget, Heq. split; reflexivity.
Qed.

Lemma coapGetMessageId_signed_witness :
  coapGetMessageId [0x40; 0x01; 0xFF; 0xFF] 4 = Ret (s16 (255 * 256 + 255))
  /\ (255 * 256 + 255 < 0x8000 -> s16 (255 * 256 + 255) = 255 * 256 + 255)
  /\ (0x8000 <= 255 * 256 + 255 ->
      s16 (255 * 256 + 255) = 255 * 256 + 255 - 65536
      /\ -32768 <= s16 (255 * 256 + 255) < 0)
  /\ (255 * 256 + 255 = 0xFFFF ->
      coapGetMessageId [0x40; 0x01; 0xFF; 0xFF] 4 = Ret COAP_INVALID_PACKET
      /\ coapGetMessageId [0x40; 0x01; 0xFF; 0xFF] 4 = coapGetMessageId [] 0).
Proof.
  apply (coapGetMessageId_signed [0x40; 0x01; 0xFF; 0xFF] 4 255 255);
    [unfold COAP_HDR_BYTES; lia | reflexivity | reflexivity | lia | lia].
Defined.

(** C10: for every old value [b] of byte 0 and token length [t] in 0..8,
    coapSetTokenLength stores [b | (t & 0x0F)] in byte 0 without clearing
    the old nibble, so the stored token length is the bitwise or of the old
    and the new one, and it sets the length counter to 1 whatever it was. *)
Theorem coapSetTokenLength_ors (b : Z) (rest : list Z) (len t : Z) :
  0 <= b < 256 -> 0 <= t <= 8 ->
  coapSetTokenLength (b :: rest) len t
  = Ret (COAP_OK, Z.lor b (Z.land t 0x0F) :: rest, 1)
  /\ Z.land (Z.lor b (Z.land t 0x0F)) 0x0F
     = Z.lor (Z.land b 0x0F) (Z.land t 0x0F).
Proof.
  intros Hb Ht. split.
  - unfold coapSetTokenLength.
    rewrite s8_small by lia.
    unfold coapTokenLengthIsValid.
    destruct (t >=? 9) eqn:E; [lia |]. simpl.
    assert (Hland : 0 <= Z.land t 15 < 256).
    { rewrite land_15_mod. pose proof (Z.mod_pos_bound t 16 ltac:(lia)). lia. }
    rewrite Z.lor_comm.
    rewrite u8_small by (apply lor_below_256; lia).
    reflexivity.
  - rewrite Z.land_lor_distr_l, <- Z.land_assoc, Z.land_diag. reflexivity.
Qed.

Lemma coapSetTokenLength_ors_witness :
  coapSetTokenLength (0x43 :: [0; 0; 0]) 7 4
  = Ret (COAP_OK, Z.lor 0x43 (Z.land 4 0x0F) :: [0; 0; 0], 1)
  /\ Z.land (Z.lor 0x43 (Z.land 4 0x0F)) 0x0F
     = Z.lor (Z.land 0x43 0x0F) (Z.land 4 0x0F).
Proof.
  apply (coapSetTokenLength_ors 0x43 [0; 0; 0] 7 4); lia.
Defined.

(** ** The single option decoder *)

Lemma ext_bytes_bounds nibble : 0 <= ext_bytes nibble <= 2.
Proof.
  unfold ext_bytes.
  destruct (nibble =? 14); [lia |]. destruct (nibble =? 13); lia.
Qed.

Lemma decode_delta_inside (m : list Z) (nibble p : Z) :
  0 <= p -> p + ext_bytes nibble <= len_of m ->
  exists r, decode_delta m nibble p = Ret r
    /\ match r with
       | None => 0x0F <= nibble
       | Some (v, q) => q = p + ext_bytes nibble /\ nibble <> 0x0F
       end.
Proof.
  intros Hp Hin. unfold decode_delta, ext_bytes in *.
  destruct (Z.eqb_spec nibble 15) as [E15 | E15];
    [eexists; split; [reflexivity | cbn; lia] |].
  destruct (Z.eqb_spec nibble 14) as [E14 | E14].
  - destruct (rd_inside m p) as [hi Hhi]; [lia |].
    destruct (rd_inside m (p + 1)) as [lo Hlo]; [lia |].
    rewrite Hhi, Hlo. cbn [bind]. eexists; split; [reflexivity |].
    split; [reflexivity | lia].
  - destruct (Z.eqb_spec nibble 13) as [E13 | E13].
    + destruct (rd_inside m p) as [b Hb]; [lia |].
      rewrite Hb. cbn [bind]. eexists; split; [reflexivity |].
      split; [reflexivity | lia].
    + destruct (Z.ltb_spec nibble 13); eexists; (split; [reflexivity |]);
        cbn; lia.
Qed.

Lemma decode_length_inside (m : list Z) (nibble p : Z) :
  0 <= p -> p + ext_bytes nibble <= len_of m ->
  exists r, decode_length m nibble p = Ret r
    /\ match r with
       | None => 0x0F <= nibble
       | Some (v, q) => q = p + ext_bytes nibble /\ nibble <> 0x0F
       end.
Proof.
  intros Hp Hin. unfold decode_length, ext_bytes in *.
  destruct (Z.eqb_spec nibble 15) as [E15 | E15];
    [eexists; split; [reflexivity | cbn; lia] |].
  destruct (Z.eqb_spec nibble 14) as [E14 | E14].
  - destruct (rd_inside m p) as [hi Hhi]; [lia |].
    destruct (rd_inside m (p + 1)) as [lo Hlo]; [lia |].
    rewrite Hhi, Hlo. cbn [bind]. eexists; split; [reflexivity |].
    split; [reflexivity | lia].
  - destruct (Z.eqb_spec nibble 13) as [E13 | E13].
    + destruct (rd_inside m p) as [b Hb]; [lia |].
      rewrite Hb. cbn [bind]. eexists; split; [reflexivity |].
      split; [reflexivity | lia].
    + destruct (Z.ltb_spec nibble 13); eexists; (split; [reflexivity |]);
        cbn; lia.
Qed.

(** C5 as stated fails: with a remaining length of 1 the decoder reads
    the extension byte behind the option byte, outside the array, and it
    accepts an option whose value ends behind the end. *)
Lemma coapDecodeOption_no_bounds_check :
  coapDecodeOption [0xD0] 0 1 (Some 0) true = Undef
  /\ coapDecodeOption [0x05] 0 1 (Some 0) true
     = Ret {| dec_ret := 5; dec_number := Some 0; dec_data := Some 1;
              dec_new := Some 6 |}.
Proof. split; vm_compute; reflexivity. Qed.

(** A read inside the array gives the byte there. *)
Lemma rd_byte_at (m : list Z) (p : Z) :
  0 <= p < len_of m -> rd m p = Ret (byte_at m p).
Proof.
  intros Hp. destruct (rd_inside m p Hp) as [b Hb]. rewrite Hb.
  apply rd_Ret_inside in Hb as [_ Hl]. unfold byte_at.
  rewrite (nth_lookup_Some _ _ 0 _ Hl). reflexivity.
Qed.

(** The delta and the length that the decoder computes when the
    extension bytes lie inside the array. *)
Lemma decode_delta_value (m : list Z) (nibble p : Z) :
  0 <= p -> p + ext_bytes nibble <= len_of m -> 0 <= nibble < 0x0F ->
  decode_delta m nibble p
  = Ret (Some (u8 (ext_value m nibble p), p + ext_bytes nibble)).
Proof.
  intros Hp Hin Hn. unfold decode_delta, ext_bytes, ext_value in *.
  destruct (Z.eqb_spec nibble 15); [lia |].
  destruct (Z.eqb_spec nibble 14).
  - rewrite !rd_byte_at by lia. cbn [bind].
    rewrite Z.shiftl_mul_pow2 by lia. reflexivity.
  - destruct (Z.eqb_spec nibble 13).
    + rewrite rd_byte_at by lia. reflexivity.
    + destruct (Z.ltb_spec nibble 13); [| lia].
      rewrite u8_small by lia. rewrite Z.add_0_r. reflexivity.
Qed.

Lemma decode_length_value (m : list Z) (nibble p : Z) :
  0 <= p -> p + ext_bytes nibble <= len_of m -> 0 <= nibble < 0x0F ->
  decode_length m nibble p
  = Ret (Some (u16 (ext_value m nibble p), p + ext_bytes nibble)).
Proof.
  intros Hp Hin Hn. unfold decode_length, ext_bytes, ext_value in *.
  destruct (Z.eqb_spec nibble 15); [lia |].
  destruct (Z.eqb_spec nibble 14).
  - rewrite !rd_byte_at by lia. cbn [bind].
    rewrite Z.shiftl_mul_pow2 by lia. reflexivity.
  - destruct (Z.eqb_spec nibble 13).
    + rewrite rd_byte_at by lia. reflexivity.
    + destruct (Z.ltb_spec nibble 13); [| lia].
      rewrite u16_small by lia. rewrite Z.add_0_r. reflexivity.
Qed.

(** C5 (amended): coapDecodeOption uses the remaining length only for the
    test [bufferLength == 0] (COAP_END_OF_PACKET); the extension bytes are
    read and the cursor is moved behind the value without a comparison with
    the remaining length.  It reads the option byte and the extension bytes
    that the two nibbles select and nothing else: when the option byte is a
    byte (0..255) and these bytes lie inside the array, the run reads no
    byte outside of it.  It ends with COAP_FOUND_PAYLOAD_MARKER for the byte
    0xFF and with COAP_INVALID_PACKET for another byte with a nibble of 15.
    Otherwise it returns the length that the length nibble stands for (the
    nibble itself below 13, the extension byte plus 13 for 13, the two
    extension bytes, big-endian, plus 269 for 14; modulo 2^16), adds the
    delta, decoded in the same way modulo 256, to the option number modulo
    256 when a number is asked for, hands back the position of the value,
    [cursor + 1 + extension bytes], when the data pointer is asked for, and
    moves the cursor to [cursor + 1 + extension bytes + length]; the result
    is the same for every non-zero remaining length. *)
Theorem coapDecodeOption_reads_header_only (m : list Z) (p len byte : Z)
    (pOptionNumber : option Z) (pOptionData : bool) :
  rd m p = Ret byte -> 0 <= byte < 256 ->
  p + ext_bytes (Z.shiftr byte 4) + ext_bytes (Z.land byte 0x0F) < len_of m ->
  coapDecodeOption m p 0 pOptionNumber pOptionData
  = Ret (dec_error COAP_END_OF_PACKET)
  /\ (forall len', len <> 0 -> len' <> 0 ->
      coapDecodeOption m p len' pOptionNumber pOptionData
      = coapDecodeOption m p len pOptionNumber pOptionData)
  /\ exists d, coapDecodeOption m p len pOptionNumber pOptionData = Ret d
      /\ (len <> 0 -> byte = COAP_PAYLOAD_MARKER ->
          d = dec_error COAP_FOUND_PAYLOAD_MARKER)
      /\ (len <> 0 -> byte <> COAP_PAYLOAD_MARKER ->
          Z.shiftr byte 4 = 0x0F \/ Z.land byte 0x0F = 0x0F ->
          d = dec_error COAP_INVALID_PACKET)
      /\ (len <> 0 -> Z.shiftr byte 4 <> 0x0F -> Z.land byte 0x0F <> 0x0F ->
          0 <= dec_ret d
          /\ dec_new d = Some (p + 1 + ext_bytes (Z.shiftr byte 4)
                               + ext_bytes (Z.land byte 0x0F) + dec_ret d)
          /\ dec_ret d
             = u16 (ext_value m (Z.land byte 0x0F)
                      (p + 1 + ext_bytes (Z.shiftr byte 4)))
          /\ dec_number d
             = match pOptionNumber with
               | Some n =>
                   Some (u8 (n + u8 (ext_value m (Z.shiftr byte 4) (p + 1))))
               | None => None
               end
          /\ dec_data d
             = if pOptionData
               then Some (p + 1 + ext_bytes (Z.shiftr byte 4)
                          + ext_bytes (Z.land byte 0x0F))
               else None).
Proof.
  intros Hbyte Hr Hin.
  destruct (rd_Ret_inside m p byte Hbyte) as [Hp _].
  split; [reflexivity |].
  split.
  { intros len' Hlen Hlen'. unfold coapDecodeOption.
    destruct (Z.eqb_spec len' 0); [contradiction |].
    destruct (Z.eqb_spec len 0); [contradiction |].
    reflexivity. }
  unfold coapDecodeOption.
  destruct (Z.eqb_spec len 0) as [E0 | E0].
  { eexists; split; [reflexivity |]. repeat split; intros; contradiction. }
  rewrite Hbyte. cbn [bind].
  assert (Hdn : 0 <= Z.shiftr byte 4 < 16).
  { rewrite Z.shiftr_div_pow2 by lia. change (2 ^ 4) with 16.
    split; [apply Z.div_pos; lia | apply Z.div_lt_upper_bound; lia]. }
  assert (Hln : 0 <= Z.land byte 15 < 16).
  { rewrite land_15_mod. apply Z.mod_pos_bound. lia. }
  destruct (Z.eqb_spec byte COAP_PAYLOAD_MARKER) as [EM | EM].
  { eexists; split; [reflexivity |].
    split; [reflexivity |].
    split; [intros _ Hne; contradiction |].
    intros _ Hd _. subst byte. exfalso. apply Hd. reflexivity. }
  rewrite (u8_small (Z.shiftr byte 4)) by lia.
  rewrite (u16_small (Z.land byte 15)) by lia.
  pose proof (ext_bytes_bounds (Z.shiftr byte 4)) as He1.
  pose proof (ext_bytes_bounds (Z.land byte 15)) as He2.
  destruct (Z.eq_dec (Z.shiftr byte 4) 15) as [Ed | Ed].
  { rewrite Ed. cbn [decode_delta Z.eqb Pos.eqb bind].
    eexists; split; [reflexivity |].
    split; [intros _ Hc; contradiction |].
    split; [reflexivity |].
    intros _ Hne _. contradiction. }
  rewrite decode_delta_value by lia. cbn [bind].
  destruct (Z.eq_dec (Z.land byte 15) 15) as [El | El].
  { rewrite El. cbn [decode_length Z.eqb Pos.eqb bind].
    eexists; split; [reflexivity |].
    split; [intros _ Hc; contradiction |].
    split; [reflexivity |].
    intros _ _ Hne. contradiction. }
  rewrite decode_length_value by lia. cbn [bind].
  eexists; split; [reflexivity |].
  split; [intros _ Hc; contradiction |].
  split; [intros _ _ [Hc | Hc]; contradiction |].
  intros _ _ _. cbn [dec_ret dec_new dec_number dec_data].
  split; [apply Z.mod_pos_bound; lia |].
  split; [f_equal; lia |].
  split; [reflexivity |].
  split; [reflexivity |].
  destruct pOptionData; reflexivity.
Qed.

Lemma coapDecodeOption_reads_header_only_witness :
  coapDecodeOption [0xD1; 0x02; 0x61] 0 0 (Some 0) true
  = Ret (dec_error COAP_END_OF_PACKET)
  /\ (forall len', 3 <> 0 -> len' <> 0 ->
      coapDecodeOption [0xD1; 0x02; 0x61] 0 len' (Some 0) true
      = coapDecodeOption [0xD1; 0x02; 0x61] 0 3 (Some 0) true)
  /\ exists d, coapDecodeOption [0xD1; 0x02; 0x61] 0 3 (Some 0) true = Ret d
      /\ (3 <> 0 -> 0xD1 = COAP_PAYLOAD_MARKER ->
          d = dec_error COAP_FOUND_PAYLOAD_MARKER)
      /\ (3 <> 0 -> 0xD1 <> COAP_PAYLOAD_MARKER ->
          Z.shiftr 0xD1 4 = 0x0F \/ Z.land 0xD1 0x0F = 0x0F ->
          d = dec_error COAP_INVALID_PACKET)
      /\ (3 <> 0 -> Z.shiftr 0xD1 4 <> 0x0F -> Z.land 0xD1 0x0F <> 0x0F ->
          0 <= dec_ret d
          /\ dec_new d = Some (0 + 1 + ext_bytes (Z.shiftr 0xD1 4)
                               + ext_bytes (Z.land 0xD1 0x0F) + dec_ret d)
          /\ dec_ret d
             = u16 (ext_value [0xD1; 0x02; 0x61] (Z.land 0xD1 0x0F)
                      (0 + 1 + ext_bytes (Z.shiftr 0xD1 4)))
          /\ dec_number d
             = Some (u8 (0 + u8 (ext_value [0xD1; 0x02; 0x61]
                                   (Z.shiftr 0xD1 4) (0 + 1))))
          /\ dec_data d
             = Some (0 + 1 + ext_bytes (Z.shiftr 0xD1 4)
                     + ext_bytes (Z.land 0xD1 0x0F))).
Proof.
  apply (coapDecodeOption_reads_header_only [0xD1; 0x02; 0x61] 0 3 0xD1
           (Some 0) true);
    [reflexivity | lia | vm_compute; reflexivity].
Defined.

(** ** The loops end before the fuel does *)

Lemma count_case_0D_forward (m : list Z) (w w' : walk) :
  count_case_0D m w = Ret w' -> w_pointer w < w_pointer w'.
Proof.
  unfold count_case_0D.
  destruct (rd m (w_pointer w + 1)) as [b | |]; cbn [bind]; try discriminate.
  intros [= <-]. cbn [w_pointer]. pose proof (u8_nonneg (b + 13)). lia.
Qed.

Lemma count_case_0E_forward (m : list Z) (w w' : walk) :
  count_case_0E m w = Ret w' -> w_pointer w < w_pointer w'.
Proof.
  unfold count_case_0E.
  destruct (rd m (w_pointer w + 1)) as [b | |]; cbn [bind]; try discriminate.
  intros H. apply count_case_0D_forward in H. cbn [w_pointer] in H.
  pose proof (u8_nonneg (b + 269)). lia.
Qed.

Lemma count_case_0D_has_fuel (m : list Z) (w : walk) :
  count_case_0D m w <> OutOfFuel.
Proof.
  unfold count_case_0D. apply bind_has_fuel; [apply rd_has_fuel |].
  intros b _. discriminate.
Qed.

Lemma count_case_0E_has_fuel (m : list Z) (w : walk) :
  count_case_0E m w <> OutOfFuel.
Proof.
  unfold count_case_0E. apply bind_has_fuel; [apply rd_has_fuel |].
  intros b _. apply count_case_0D_has_fuel.
Qed.

(** Every turn moves the pointer forward and reads the byte under it, so
    the loop ends within [length m] turns. *)
Lemma count_loop_has_fuel (fuel : nat) :
  forall (m : list Z) (byte : Z) (w : walk),
  0 <= w_pointer w ->
  (length m - Z.to_nat (w_pointer w) < fuel)%nat ->
  count_loop fuel m byte w <> OutOfFuel.
Proof.
  induction fuel as [| fuel IH]; intros m byte w Hp Hfuel; [lia |].
  cbn [count_loop].
  destruct (negb (byte =? COAP_PAYLOAD_MARKER) && negb (w_newLength w =? 0));
    [| discriminate].
  cbv zeta.
  destruct (u8 (Z.land byte 15) =? 15); [discriminate |].
  assert (Hstep : forall w', w_pointer w < w_pointer w' ->
            (do byte' <- rd m (w_pointer w'); count_loop fuel m byte' w')
            <> OutOfFuel).
  { intros w' Hw'. apply bind_has_fuel; [apply rd_has_fuel |].
    intros b Hb. apply rd_Ret_inside in Hb as [Hin _]. unfold len_of in Hin.
    apply IH; lia. }
  apply bind_has_fuel.
  - destruct (u8 (Z.land byte 15) =? 14); [apply count_case_0E_has_fuel |].
    destruct (u8 (Z.land byte 15) =? 13); [apply count_case_0D_has_fuel |].
    discriminate.
  - intros w' Hw'. apply Hstep.
    destruct (u8 (Z.land byte 15) =? 14);
      [apply (count_case_0E_forward m); exact Hw' |].
    destruct (u8 (Z.land byte 15) =? 13);
      [apply (count_case_0D_forward m); exact Hw' |].
    injection Hw' as <-. unfold count_default. cbn [w_pointer].
    pose proof (u8_nonneg (Z.land byte 15)). lia.
Qed.

(** The fuel of coapGetOptionCount is enough on every input. *)
Lemma coapGetOptionCount_has_fuel (m : list Z) (len : Z) :
  coapGetOptionCount m len <> OutOfFuel.
Proof.
  unfold coapGetOptionCount. destruct (len <? COAP_HDR_BYTES); [discriminate |].
  apply bind_has_fuel; [apply coapGetTokenLength_has_fuel |].
  intros tl _. destruct (Z.ltb_spec tl 0); [discriminate |].
  destruct (COAP_HDR_BYTES + tl =? len); [discriminate |].
  cbv zeta. apply bind_has_fuel; [apply rd_has_fuel |].
  intros byte _. apply count_loop_has_fuel; cbn [w_pointer];
    unfold COAP_HDR_BYTES; lia.
Qed.

Lemma payload_case_0D_forward (m : list Z) (w w' : pwalk) :
  bytes_unsigned m ->
  payload_case_0D m w = Ret w' -> pw_pointer w < pw_pointer w'.
Proof.
  intros Hm. unfold payload_case_0D.
  destruct (rd m (pw_pointer w + 1)) as [b | |] eqn:E; cbn [bind];
    try discriminate.
  intros [= <-]. cbn [pw_pointer]. pose proof (rd_unsigned m _ b Hm E). lia.
Qed.

Lemma payload_case_0E_forward (m : list Z) (w w' : pwalk) :
  bytes_unsigned m ->
  payload_case_0E m w = Ret w' -> pw_pointer w < pw_pointer w'.
Proof.
  intros Hm. unfold payload_case_0E.
  destruct (rd m (pw_pointer w + 1)) as [b | |] eqn:E; cbn [bind];
    try discriminate.
  intros H. apply payload_case_0D_forward in H; [| exact Hm].
  cbn [pw_pointer] in H. pose proof (rd_unsigned m _ b Hm E). lia.
Qed.

Lemma payload_case_0D_has_fuel (m : list Z) (w : pwalk) :
  payload_case_0D m w <> OutOfFuel.
Proof.
  unfold payload_case_0D. apply bind_has_fuel; [apply rd_has_fuel |].
  intros b _. discriminate.
Qed.

Lemma payload_case_0E_has_fuel (m : list Z) (w : pwalk) :
  payload_case_0E m w <> OutOfFuel.
Proof.
  unfold payload_case_0E. apply bind_has_fuel; [apply rd_has_fuel |].
  intros b _. apply payload_case_0D_has_fuel.
Qed.

(** The same for the loop of coapGetPayload, whose extension byte is not
    narrowed: here the bytes have to be unsigned. *)
Lemma payload_loop_has_fuel (fuel : nat) :
  forall (m : list Z) (byte : Z) (w : pwalk),
  bytes_unsigned m -> 0 <= pw_pointer w ->
  (length m - Z.to_nat (pw_pointer w) < fuel)%nat ->
  payload_loop fuel m byte w <> OutOfFuel.
Proof.
  induction fuel as [| fuel IH]; intros m byte w Hm Hp Hfuel; [lia |].
  cbn [payload_loop].
  destruct (negb (byte =? COAP_PAYLOAD_MARKER) || (pw_newLength w =? 0));
    [| discriminate].
  cbv zeta.
  destruct (Z.land byte 15 =? 15); [discriminate |].
  apply bind_has_fuel.
  - destruct (Z.land byte 15 =? 14); [apply payload_case_0E_has_fuel |].
    destruct (Z.land byte 15 =? 13); [apply payload_case_0D_has_fuel |].
    discriminate.
  - intros w' Hw'.
    assert (Hfw : pw_pointer w < pw_pointer w').
    { destruct (Z.land byte 15 =? 14);
        [apply (payload_case_0E_forward m); assumption |].
      destruct (Z.land byte 15 =? 13);
        [apply (payload_case_0D_forward m); assumption |].
      injection Hw' as <-. unfold payload_default. cbn [pw_pointer].
      assert (0 <= Z.land byte 15) by (apply Z.land_nonneg; lia). lia. }
    apply bind_has_fuel; [apply rd_has_fuel |].
    intros b Hb. apply rd_Ret_inside in Hb as [Hin _]. unfold len_of in Hin.
    apply IH; cbn [pw_pointer]; [exact Hm | lia | lia].
Qed.

(** The fuel of coapGetPayload is enough on every array of bytes. *)
Lemma coapGetPayload_has_fuel (m : list Z) (len : Z) :
  bytes_unsigned m -> coapGetPayload m len <> OutOfFuel.
Proof.
  intros Hm. unfold coapGetPayload.
  destruct (len <? COAP_HDR_BYTES); [discriminate |].
  cbv zeta.
  apply bind_has_fuel; [apply coapGetOptionCount_has_fuel |].
  intros oc _.
  apply bind_has_fuel; [apply coapGetTokenLength_has_fuel |].
  intros tl _.
  destruct (oc <? 0); [discriminate |].
  destruct (Z.ltb_spec tl 0); [discriminate |].
  destruct (COAP_HDR_BYTES + tl >? len); [discriminate |].
  destruct (COAP_HDR_BYTES + tl =? len); [discriminate |].
  apply bind_has_fuel; [apply rd_has_fuel |].
  intros byte _.
  destruct ((oc =? 0) && (byte =? COAP_PAYLOAD_MARKER)); [discriminate |].
  destruct ((oc >? 0) && (byte =? COAP_PAYLOAD_MARKER)); [discriminate |].
  apply bind_has_fuel.
  - apply payload_loop_has_fuel; cbn [pw_pointer];
      [exact Hm | unfold COAP_HDR_BYTES; lia | unfold COAP_HDR_BYTES; lia].
  - intros [code | [b w]] _; [discriminate |].
    destruct ((b =? COAP_PAYLOAD_MARKER) && negb (pw_newLength w =? 0));
      discriminate.
Qed.

(** ** Option regions without a delta escape *)

Lemma wire_option_length (o : Z * list Z) :
  len_of (wire_option o)
  = 1 + (if len_of (snd o) <? 13 then 0 else 1) + len_of (snd o).
Proof.
  unfold wire_option. destruct (len_of (snd o) <? 13); unfold len_of; cbn [length]; lia.
Qed.

Lemma wire_options_cons (o : Z * list Z) (os : list (Z * list Z)) :
  wire_options (o :: os) = wire_option o ++ wire_options os.
Proof. reflexivity. Qed.

Lemma wire_options_length (os : list (Z * list Z)) :
  Z.of_nat (length os) <= len_of (wire_options os).
Proof.
  induction os as [| o os IH]; [unfold len_of; cbn; lia |].
  rewrite wire_options_cons, len_of_app, wire_option_length.
  pose proof (len_of_nonneg (snd o)).
  cbn [length]. destruct (len_of (snd o) <? 13); lia.
Qed.

(** An option without a delta escape takes at most 257 bytes. *)
Lemma wire_options_bound (os : list (Z * list Z)) :
  Forall option_ok os -> len_of (wire_options os) <= 257 * Z.of_nat (length os).
Proof.
  induction 1 as [| o os' [_ Hl] _ IH];
    [unfold len_of, wire_options; cbn [flat_map length]; lia |].
  rewrite wire_options_cons, len_of_app, wire_option_length.
  pose proof (len_of_nonneg (snd o)). cbn [length].
  destruct (len_of (snd o) <? 13); lia.
Qed.

Lemma wire_option_head (o : Z * list Z) :
  exists tl, wire_option o = option_byte o :: tl.
Proof.
  unfold wire_option, option_byte.
  destruct (len_of (snd o) <? 13); eexists; reflexivity.
Qed.

Lemma option_byte_facts (o : Z * list Z) :
  option_ok o ->
  0 <= option_byte o < 255
  /\ Z.shiftr (option_byte o) 4 = fst o
  /\ Z.land (option_byte o) 0x0F
     = (if len_of (snd o) <? 13 then len_of (snd o) else 13).
Proof.
  intros [Hd Hl]. pose proof (len_of_nonneg (snd o)) as Hnn.
  unfold option_byte.
  set (l := if len_of (snd o) <? 13 then len_of (snd o) else 13).
  assert (Hl13 : 0 <= l <= 13) by (unfold l; destruct (Z.ltb_spec (len_of (snd o)) 13); lia).
  destruct (nibbles (fst o) l) as [H1 H2]; [lia | lia |].
  repeat split; try assumption; lia.
Qed.

Lemma last_number_cons (o : Z * list Z) (os : list (Z * list Z)) :
  last_number (o :: os) = fst o + last_number os.
Proof. reflexivity. Qed.

Lemma last_number_nonneg (os : list (Z * list Z)) :
  Forall option_ok os -> 0 <= last_number os.
Proof.
  induction 1 as [| o os' [Ho _] _ IH]; [cbn; lia |].
  rewrite last_number_cons. lia.
Qed.


(** On an option region without delta escapes the loop of
    coapGetOptionCount counts every option once. *)
Lemma count_loop_plain (os : list (Z * list Z)) :
  forall (fuel : nat) (m pre rest : list Z) (count byte : Z),
  Forall option_ok os -> (length os < fuel)%nat -> rest <> [] ->
  m = pre ++ wire_options os ++ rest ->
  len_of (wire_options os) < 65536 ->
  0 <= count -> count + Z.of_nat (length os) < 2147483648 ->
  rd m (len_of pre) = Ret byte ->
  count_loop fuel m byte
    {| w_pointer := len_of pre; w_newLength := len_of (wire_options os);
       w_count := count |}
  = Ret (count + Z.of_nat (length os)).
Proof.
  induction os as [| o os IH]; intros fuel m pre rest count byte Hok Hfuel Hrest Hm Hlen Hc Hc2 Hbyte.
  - destruct fuel as [| fuel]; [cbn in Hfuel; lia |].
    cbn. rewrite andb_false_r. f_equal. lia.
  - destruct fuel as [| fuel]; [cbn in Hfuel; lia |].
    apply Forall_cons in Hok as [Ho Hok].
    destruct (option_byte_facts o Ho) as (Hb & Hhi & Hlo).
    destruct (wire_option_head o) as [tl Htl].
    rewrite wire_options_cons in *.
    assert (Hbyte' : byte = option_byte o).
    { rewrite Hm, rd_app_0, Htl in Hbyte. cbn [app] in Hbyte.
      rewrite rd_head in Hbyte. congruence. }
    subst byte.
    pose proof (wire_option_length o) as Hwl.
    pose proof (len_of_nonneg (snd o)) as Hnn.
    pose proof (len_of_nonneg (wire_options os)) as Hnn2.
    rewrite len_of_app in *.
    destruct Ho as [Hd Hl].
    cbn [length] in Hc2, Hfuel.
    cbn [count_loop w_newLength].
    unfold COAP_PAYLOAD_MARKER.
    destruct (Z.eqb_spec (option_byte o) 255) as [E | _]; [lia |].
    destruct (Z.eqb_spec (len_of (wire_option o) + len_of (wire_options os)) 0) as [E | _];
      [destruct (len_of (snd o) <? 13); lia |].
    cbn [negb andb].
    rewrite Hlo.
    assert (Hm' : m = (pre ++ wire_option o) ++ wire_options os ++ rest).
    { rewrite Hm. rewrite <- !app_assoc. reflexivity. }
    assert (Hnext : exists b, rd m (len_of (pre ++ wire_option o)) = Ret b).
    { rewrite Hm', rd_app_0. destruct (wire_options os ++ rest) as [| x xs] eqn:E.
      - apply app_eq_nil in E as [_ E]. contradiction.
      - exists x. apply rd_head. }
    destruct Hnext as [b Hnext].
    destruct (Z.ltb_spec (len_of (snd o)) 13) as [Hshort | Hlong].
    +       rewrite (u8_small (len_of (snd o))) by lia.
      destruct (Z.eqb_spec (len_of (snd o)) 15); [lia |].
      destruct (Z.eqb_spec (len_of (snd o)) 14); [lia |].
      destruct (Z.eqb_spec (len_of (snd o)) 13); [lia |].
      cbn [bind]. unfold count_default. cbn [w_pointer w_newLength w_count].
      replace (len_of pre + (len_of (snd o) + 1)) with (len_of (pre ++ wire_option o))
        by (rewrite len_of_app; lia).
      rewrite Hnext. cbn [bind].
      rewrite u16_small by lia. rewrite s32_small by lia.
      replace (len_of (wire_option o) + len_of (wire_options os) - (len_of (snd o) + 1))
        with (len_of (wire_options os)) by lia.
      rewrite (IH fuel m (pre ++ wire_option o) rest (count + 1) b); try assumption;
        try lia.
      f_equal. cbn [length]. lia.
    +       rewrite (u8_small 13) by lia. cbn [Z.eqb Pos.eqb].
      unfold count_case_0D. cbn [w_pointer w_newLength w_count].
      assert (Hext : rd m (len_of pre + 1) = Ret (len_of (snd o) - 13)).
      { rewrite Hm, rd_app_r by lia. unfold wire_option.
        destruct (Z.ltb_spec (len_of (snd o)) 13); [lia |].
        cbn [app]. apply rd_second. }
      rewrite Hext. cbn [bind w_pointer w_newLength w_count].
      replace (len_of (snd o) - 13 + 13) with (len_of (snd o)) by lia.
      rewrite (u8_small (len_of (snd o))) by lia.
      replace (len_of pre + 1 + (len_of (snd o) + 1)) with (len_of (pre ++ wire_option o))
        by (rewrite len_of_app; lia).
      rewrite Hnext. cbn [bind].
      rewrite u16_small by lia. rewrite s32_small by lia.
      replace (len_of (wire_option o) + len_of (wire_options os) - (len_of (snd o) + 2))
        with (len_of (wire_options os)) by lia.
      rewrite (IH fuel m (pre ++ wire_option o) rest (count + 1) b); try assumption;
        try lia.
      f_equal. cbn [length]. lia.
Qed.

(** coapDecodeOption on an option without a delta escape. *)
Lemma coapDecodeOption_plain (m pre rest : list Z) (o : Z * list Z)
    (newLength n : Z) :
  option_ok o -> m = pre ++ wire_option o ++ rest -> newLength <> 0 ->
  coapDecodeOption m (len_of pre) newLength (Some n) true
  = Ret {| dec_ret := len_of (snd o);
           dec_number := Some (u8 (n + fst o));
           dec_data := Some (len_of pre + len_of (wire_option o) - len_of (snd o));
           dec_new := Some (len_of pre + len_of (wire_option o)) |}.
Proof.
  intros Ho Hm Hlen.
  destruct (option_byte_facts o Ho) as (Hb & Hhi & Hlo).
  destruct (wire_option_head o) as [tl Htl].
  pose proof (wire_option_length o) as Hwl.
  pose proof (len_of_nonneg (snd o)) as Hnn.
  destruct Ho as [Hd Hl].
  assert (Hbyte : rd m (len_of pre) = Ret (option_byte o)).
  { rewrite Hm, rd_app_0, Htl. apply rd_head. }
  unfold coapDecodeOption.
  destruct (Z.eqb_spec newLength 0) as [E | _]; [contradiction |].
  rewrite Hbyte. cbn [bind]. unfold COAP_PAYLOAD_MARKER.
  destruct (Z.eqb_spec (option_byte o) 255) as [E | _]; [lia |].
  rewrite Hhi, Hlo. rewrite (u8_small (fst o)) by lia.
  unfold decode_delta.
  destruct (Z.eqb_spec (fst o) 15); [lia |].
  destruct (Z.eqb_spec (fst o) 14); [lia |].
  destruct (Z.eqb_spec (fst o) 13); [lia |].
  destruct (Z.ltb_spec (fst o) 13); [| lia].
  cbn [bind]. unfold decode_length.
  destruct (Z.ltb_spec (len_of (snd o)) 13) as [Hshort | Hlong].
  - rewrite (u16_small (len_of (snd o))) by lia.
    destruct (Z.eqb_spec (len_of (snd o)) 15); [lia |].
    destruct (Z.eqb_spec (len_of (snd o)) 14); [lia |].
    destruct (Z.eqb_spec (len_of (snd o)) 13); [lia |].
    destruct (Z.ltb_spec (len_of (snd o)) 13); [| lia].
    cbn [bind]. do 2 f_equal; f_equal; lia.
  - rewrite (u16_small 13) by lia. cbn [Z.eqb Pos.eqb].
    assert (Hext : rd m (len_of pre + 1) = Ret (len_of (snd o) - 13)).
    { rewrite Hm, rd_app_r by lia. unfold wire_option.
      destruct (Z.ltb_spec (len_of (snd o)) 13); [lia |].
      cbn [app]. apply rd_second. }
    rewrite Hext. cbn [bind].
    replace (len_of (snd o) - 13 + 13) with (len_of (snd o)) by lia.
    rewrite (u16_small (len_of (snd o))) by lia.
    do 2 f_equal; f_equal; lia.
Qed.

(** The loop of coapGetOption returns COAP_FOUND_PAYLOAD_MARKER or goes
    on: the uint8_t [optionLength] is never negative. *)
Lemma getopt_loop_ret (n : nat) (m : list Z) (newLength : Z) (g : getopt)
    (r : Z + getopt) :
  0 <= go_optionLength g ->
  getopt_loop n m newLength g = Ret r ->
  match r with
  | inl code => code = COAP_FOUND_PAYLOAD_MARKER
  | inr g' => 0 <= go_optionLength g'
  end.
Proof.
  revert g. induction n as [| n IH]; intros g Hg; cbn [getopt_loop].
  - intros [= <-]. exact Hg.
  - destruct (go_pointer g) as [pointer |]; [| discriminate].
    destruct (rd m pointer) as [byte | |]; cbn [bind]; try discriminate.
    destruct (byte =? COAP_PAYLOAD_MARKER); [intros [= <-]; reflexivity |].
    destruct (coapDecodeOption m pointer newLength (Some (go_optionNumber g)) true)
      as [d | |]; cbn [bind]; try discriminate.
    pose proof (Z.mod_pos_bound (dec_ret d) 256 ltac:(lia)) as Hu.
    fold (u8 (dec_ret d)) in Hu.
    destruct (u8 (dec_ret d) <? 0) eqn:E; [lia |].
    apply IH. cbn. lia.
Qed.

(** The loop of coapGetOption sums up the deltas of the options it
    passes. *)
Lemma getopt_loop_plain (os : list (Z * list Z)) :
  forall (m pre rest : list Z) (newLength : Z) (g : getopt),
  Forall option_ok os -> m = pre ++ wire_options os ++ rest ->
  newLength <> 0 ->
  go_pointer g = Some (len_of pre) ->
  0 <= go_optionNumber g < 256 ->
  exists g', getopt_loop (length os) m newLength g = Ret (inr g')
    /\ go_optionNumber g' = u8 (go_optionNumber g + last_number os).
Proof.
  induction os as [| o os IH]; intros m pre rest newLength g Hok Hm Hlen Hp Hn.
  - exists g. split; [reflexivity |]. cbn. rewrite Z.add_0_r, u8_small; lia.
  - apply Forall_cons in Hok as [Ho Hok].
    rewrite wire_options_cons in Hm.
    cbn [length getopt_loop]. rewrite Hp.
    destruct (option_byte_facts o Ho) as (Hb & _ & _).
    destruct (wire_option_head o) as [tl Htl].
    assert (Hbyte : rd m (len_of pre) = Ret (option_byte o)).
    { rewrite Hm, rd_app_0, Htl. apply rd_head. }
    rewrite Hbyte. cbn [bind]. unfold COAP_PAYLOAD_MARKER.
    destruct (Z.eqb_spec (option_byte o) 255) as [E | _]; [lia |].
    rewrite (coapDecodeOption_plain m pre (wire_options os ++ rest) o newLength
               (go_optionNumber g) Ho); [| rewrite Hm, <- app_assoc; reflexivity | exact Hlen].
    cbn [bind dec_ret dec_number dec_data dec_new].
    pose proof (len_of_nonneg (snd o)) as Hnn. destruct Ho as [Hd Hl].
    rewrite (u8_small (len_of (snd o))) by lia.
    destruct (Z.ltb_spec (len_of (snd o)) 0); [lia |].
    match goal with |- context [getopt_loop _ _ _ ?s] => set (g1 := s) end.
    destruct (IH m (pre ++ wire_option o) rest newLength g1) as [g' [Hloop Hnum]];
      try assumption.
    + rewrite Hm, <- !app_assoc. reflexivity.
    + unfold g1. cbn. rewrite len_of_app. reflexivity.
    + unfold g1. cbn. apply Z.mod_pos_bound. lia.
    + exists g'. split; [exact Hloop |].
      rewrite Hnum. unfold g1. cbn [go_optionNumber].
      rewrite u8_add_u8, last_number_cons. f_equal. lia.
Qed.




Section PlainBuffer.

Variables (b0 c i1 i2 : Z) (token : list Z) (os : list (Z * list Z))
          (rest : list Z).
Hypothesis Hb0 : 0 <= b0 < 256.
Hypothesis Htkl : b0 mod 16 = len_of token.
Hypothesis Htoken : len_of token <= 8.
Hypothesis Hos : Forall option_ok os.
Hypothesis Hrest : rest <> [].
Hypothesis Hlen : plain_length token os < 65536.

Let m := plain_buffer b0 c i1 i2 token os rest.
Let len := plain_length token os.

Lemma plain_split :
  m = ([b0; c; i1; i2] ++ token) ++ wire_options os ++ rest.
Proof. unfold m, plain_buffer. rewrite <- app_assoc. reflexivity. Qed.

Lemma plain_prefix_length :
  len_of ([b0; c; i1; i2] ++ token) = COAP_HDR_BYTES + len_of token.
Proof. rewrite len_of_app. reflexivity. Qed.

Lemma plain_token_length : coapGetTokenLength m len = Ret (len_of token).
Proof.
  pose proof (len_of_nonneg token) as H1.
  pose proof (len_of_nonneg (wire_options os)) as H2.
  rewrite (coapGetTokenLength_spec m len b0);
    [| unfold len, plain_length; lia | reflexivity | exact Hb0].
  rewrite Htkl. destruct (Z.ltb_spec (len_of token) 9); [reflexivity | lia].
Qed.

(** coapGetOptionCount is right for an option region without delta
    escapes. *)
Lemma coapGetOptionCount_plain :
  coapGetOptionCount m len = Ret (Z.of_nat (length os)).
Proof.
  pose proof (len_of_nonneg token) as H1.
  pose proof (len_of_nonneg (wire_options os)) as H2.
  pose proof (wire_options_length os) as H3.
  unfold coapGetOptionCount. rewrite plain_token_length. cbn [bind].
  assert (Hl : len = COAP_HDR_BYTES + len_of token + len_of (wire_options os))
    by reflexivity.
  destruct (Z.ltb_spec len COAP_HDR_BYTES); [lia |].
  destruct (Z.ltb_spec (len_of token) 0); [lia |].
  destruct (Z.eqb_spec (COAP_HDR_BYTES + len_of token) len) as [E | E].
  - f_equal. lia.
  - rewrite Hl.
    replace (COAP_HDR_BYTES + len_of token + len_of (wire_options os)
             - (COAP_HDR_BYTES + len_of token))
      with (len_of (wire_options os)) by lia.
    assert (Hw : len_of (wire_options os) < 65536)
      by (unfold plain_length, COAP_HDR_BYTES in Hlen; lia).
    rewrite u16_small by lia.
    rewrite <- plain_prefix_length.
    assert (Hrd : exists b, rd m (len_of ([b0; c; i1; i2] ++ token)) = Ret b).
    { rewrite plain_split, rd_app_0.
      destruct (wire_options os ++ rest) as [| x xs] eqn:Ex.
      - apply app_eq_nil in Ex as [_ Ex]. contradiction.
      - exists x. apply rd_head. }
    destruct Hrd as [b Hrd]. rewrite Hrd. cbn [bind].
    rewrite (count_loop_plain os (S (length m)) m ([b0; c; i1; i2] ++ token)
               rest 0 b); try assumption; try lia.
    + reflexivity.
    + assert (Z.of_nat (length m) = len_of m) by reflexivity.
      assert (len_of (wire_options os) <= len_of m).
      { rewrite plain_split, !len_of_app.
        pose proof (len_of_nonneg rest).
        pose proof (len_of_nonneg [b0; c; i1; i2]). lia. }
      lia.
    + apply plain_split.
Qed.

(** coapGetOption with the option count as index yields the number of
    the last option, as coapAddOption expects it to. *)
Lemma coapGetOption_plain :
  os <> [] -> (length os <= 255)%nat -> last_number os <= 255 ->
  exists g, coapGetOption m len (Z.of_nat (length os)) = Ret g
    /\ 0 <= got_ret g
    /\ got_number g
       = if last_number os =? 0 then None else Some (last_number os).
Proof.
  intros Hne Hcount Hlast.
  pose proof (len_of_nonneg token) as H1.
  pose proof (wire_options_length os) as H3.
  assert (Hpos : 0 < len_of (wire_options os)).
  { destruct os; [contradiction | cbn [length] in H3; lia]. }
  assert (Hl : len = COAP_HDR_BYTES + len_of token + len_of (wire_options os))
    by reflexivity.
  unfold coapGetOption. rewrite plain_token_length. cbn [bind].
  destruct (Z.ltb_spec len COAP_HDR_BYTES); [lia |].
  destruct (Z.ltb_spec (len_of token) 0); [lia |].
  destruct (Z.eqb_spec (len - (COAP_HDR_BYTES + len_of token)) 0); [lia |].
  rewrite (u8_small (Z.of_nat (length os))) by lia. rewrite Nat2Z.id.
  match goal with |- context [getopt_loop _ _ ?nl ?s] =>
    destruct (getopt_loop_plain os m ([b0; c; i1; i2] ++ token) rest nl s)
      as [g' [Hloop Hnum]] end; try assumption.
  - apply plain_split.
  - rewrite Hl.
    replace (COAP_HDR_BYTES + len_of token + len_of (wire_options os)
             - (COAP_HDR_BYTES + len_of token))
      with (len_of (wire_options os)) by lia.
    assert (Hw : len_of (wire_options os) < 65536)
      by (unfold plain_length, COAP_HDR_BYTES in Hlen; lia).
    rewrite u16_small by lia. lia.
  - cbn [go_pointer]. rewrite plain_prefix_length. reflexivity.
  - cbn [go_optionNumber]. lia.
  - rewrite Hloop. cbn [bind].
    pose proof Hloop as Hret.
    apply getopt_loop_ret in Hret; [| cbn [go_optionLength]; lia].
    eexists. split; [reflexivity |]. cbn [got_ret got_number].
    split; [exact Hret |].
    cbn [go_optionNumber] in Hnum. rewrite Z.add_0_l in Hnum.
    pose proof (last_number_nonneg os Hos) as Hnn.
    rewrite u8_small in Hnum by lia. rewrite Hnum.
    destruct (last_number os =? 0); reflexivity.
Qed.

End PlainBuffer.

(** ** The option count *)

(** Every option with a length nibble of 14 that the walk of
    coapGetOptionCount passes adds two to the count. *)
Lemma count_case_0E_twice (m : list Z) (w w' : walk) :
  count_case_0E m w = Ret w' ->
  w_count w' = s32 (s32 (w_count w + 1) + 1).
Proof.
  unfold count_case_0E, count_case_0D. cbv zeta.
  destruct (rd m (w_pointer w + 1)) as [b | |]; cbn [bind]; try discriminate.
  cbn [w_pointer w_count w_newLength].
  destruct (rd m _) as [b' | |]; cbn [bind]; try discriminate.
  intros [= <-]. reflexivity.
Qed.

(** C3 fails on the code: one option with the two-byte length escape
    (delta 1, length 269) is counted twice, because [case 0x0E:] of
    coapGetOptionCount has no [break] and runs on into [case 0x0D:].
    coapDecodeOption finds the one option, which fills the option region
    up to the end. *)
Theorem coapGetOptionCount_counts_twice :
  coapGetOptionCount ([0x40; 0x01; 0x12; 0x34; 0x1E; 0; 0] ++ repeat 0xFF 269) 276
  = Ret 2
  /\ coapDecodeOption ([0x40; 0x01; 0x12; 0x34; 0x1E; 0; 0] ++ repeat 0xFF 269)
       4 272 (Some 0) true
     = Ret {| dec_ret := 269; dec_number := Some 1; dec_data := Some 7;
              dec_new := Some 276 |}
  /\ coapDecodeOption ([0x40; 0x01; 0x12; 0x34; 0x1E; 0; 0] ++ repeat 0xFF 269)
       276 0 (Some 1) true
     = Ret (dec_error COAP_END_OF_PACKET).
Proof. repeat split; vm_compute; reflexivity. Qed.

(** ** The payload accessor and mutator *)


(** C4 fails on the code.  For a buffer with one option and no marker
    ([B1 61] behind the header, length 6) the loop condition
    [byte != COAP_PAYLOAD_MARKER || newLength == 0] keeps the walk going
    behind the length: in a zeroed datagram buffer it runs off the array,
    and when a 0xFF lies behind the length the bytes after it are handed
    out with a negative size.  A marker with no byte behind it yields size
    0 and not COAP_INVALID_PACKET, with and without options. *)
Theorem coapGetPayload_without_marker :
  coapGetPayload ([0x40; 0x01; 0x12; 0x34; 0xB1; 0x61] ++ zeros 1454) 6 = Undef
  /\ coapGetPayload [0x40; 0x01; 0x12; 0x34; 0xB1; 0x61; 0x00; 0xFF; 0x07] 6
     = Ret (-2, Some 8)
  /\ coapGetPayload ([0x40; 0x01; 0x12; 0x34; 0xB1; 0x61; 0xFF] ++ zeros 1453) 7
     = Ret (0, Some 7)
  /\ coapGetPayload ([0x40; 0x01; 0x12; 0x34; 0xFF] ++ zeros 1455) 5
     = Ret (0, Some 5).
Proof. repeat split; vm_compute; reflexivity. Qed.

(** C8 as stated fails on a payload that does not fit: the capacity test
    comes before the test of the first payload byte. *)
Lemma coapSetPayload_zero_byte_too_long :
  coapSetPayload ([0x40; 0x01; 0x12; 0x34] ++ zeros 1456) 4 1460
    (repeat 0 1460) 4 (Some 4)
  = Ret {| ps_ret := COAP_INSUFFICIENT_BUFFER;
           ps_buffer := [0x40; 0x01; 0x12; 0x34] ++ zeros 1456;
           ps_length := 4;
           ps_newPointer := Some 4 |}.
Proof. vm_compute. reflexivity. Qed.

(** C8 (amended): for a buffer with a valid header and token length (a
    claimed length of at least 4 and a first byte whose low nibble is at
    most 8), a payload length from 1 up to what the capacity test admits
    ([payloadLength < 1460] and [4 + tokenLength + payloadLength <= 1460])
    and payload data whose first byte is 0x00, coapSetPayload returns
    COAP_OK, writes neither the marker nor a payload byte and leaves the
    length counter and the tail pointer as they were.  Every other payload
    length of at least 1 ([payloadLength >= 1460] or
    [4 + tokenLength + payloadLength > 1460]) is answered with
    COAP_INSUFFICIENT_BUFFER, with the buffer, the length counter and the
    tail pointer as they were, whatever the payload data are: the first
    payload byte is not read. *)
Theorem coapSetPayload_zero_first_byte (m : list Z) (len b0 : Z)
    (pPointer : Z) (pNewPointer : option Z) :
  COAP_HDR_BYTES <= len ->
  rd m 0 = Ret b0 -> 0 <= b0 < 256 -> b0 mod 16 <= 8 ->
  (forall (payloadLength : Z) (rest : list Z),
     1 <= payloadLength < MAX_BUFFER_SIZE ->
     COAP_HDR_BYTES + b0 mod 16 + payloadLength <= MAX_BUFFER_SIZE ->
     coapSetPayload m len payloadLength (0 :: rest) pPointer pNewPointer
     = Ret {| ps_ret := COAP_OK; ps_buffer := m; ps_length := len;
              ps_newPointer := pNewPointer |})
  /\ (forall (payloadLength : Z) (pPayloadData : list Z),
       1 <= payloadLength ->
       MAX_BUFFER_SIZE <= payloadLength
       \/ MAX_BUFFER_SIZE < COAP_HDR_BYTES + b0 mod 16 + payloadLength ->
       coapSetPayload m len payloadLength pPayloadData pPointer pNewPointer
       = Ret {| ps_ret := COAP_INSUFFICIENT_BUFFER; ps_buffer := m;
                ps_length := len; ps_newPointer := pNewPointer |}).
Proof.
  intros Hlen Hb0 Hr Htl.
  pose proof (Z.mod_pos_bound b0 16 ltac:(lia)) as Hm.
  split.
  - intros payloadLength rest Hpl Hcap. unfold coapSetPayload.
    destruct (len <? COAP_HDR_BYTES) eqn:E; [apply Z.ltb_lt in E; lia |].
    rewrite (coapGetTokenLength_spec m len b0 Hlen Hb0 Hr).
    destruct (b0 mod 16 <? 9) eqn:E9; [| lia].
    simpl bind. rewrite u8_small by lia.
    destruct (b0 mod 16 <? 0) eqn:E0; [lia |].
    destruct (payloadLength <=? 0) eqn:E1; [lia |].
    destruct (payloadLength >=? MAX_BUFFER_SIZE) eqn:E2; [lia |].
    destruct (COAP_HDR_BYTES + b0 mod 16 + payloadLength >? MAX_BUFFER_SIZE)
      eqn:E3; [lia |].
    reflexivity.
  - intros payloadLength pPayloadData Hpl Hcap. unfold coapSetPayload.
    destruct (len <? COAP_HDR_BYTES) eqn:E; [apply Z.ltb_lt in E; lia |].
    rewrite (coapGetTokenLength_spec m len b0 Hlen Hb0 Hr).
    destruct (b0 mod 16 <? 9) eqn:E9; [| lia].
    simpl bind. rewrite u8_small by lia.
    destruct (b0 mod 16 <? 0) eqn:E0; [lia |].
    destruct (payloadLength <=? 0) eqn:E1; [lia |].
    destruct (payloadLength >=? MAX_BUFFER_SIZE) eqn:E2; [reflexivity |].
    destruct (COAP_HDR_BYTES + b0 mod 16 + payloadLength >? MAX_BUFFER_SIZE)
      eqn:E3; [reflexivity | lia].
Qed.

Lemma coapSetPayload_zero_first_byte_witness :
  coapSetPayload [0x42; 0x01; 0x12; 0x34; 7; 9; 0; 0] 6 2 (0 :: [0x69]) 6 (Some 6)
  = Ret {| ps_ret := COAP_OK;
           ps_buffer := [0x42; 0x01; 0x12; 0x34; 7; 9; 0; 0];
           ps_length := 6; ps_newPointer := Some 6 |}
  /\ coapSetPayload [0x42; 0x01; 0x12; 0x34; 7; 9; 0; 0] 6 1455 [] 6 (Some 6)
     = Ret {| ps_ret := COAP_INSUFFICIENT_BUFFER;
              ps_buffer := [0x42; 0x01; 0x12; 0x34; 7; 9; 0; 0];
              ps_length := 6; ps_newPointer := Some 6 |}.
Proof.
  destruct (coapSetPayload_zero_first_byte
              [0x42; 0x01; 0x12; 0x34; 7; 9; 0; 0] 6 0x42 6 (Some 6))
    as [Hzero Hlong];
    [ unfold COAP_HDR_BYTES; lia | reflexivity | lia
    | vm_compute; discriminate | ].
  split.
  - apply Hzero; [unfold MAX_BUFFER_SIZE; lia | vm_compute; discriminate].
  - apply Hlong; [lia | right; vm_compute; reflexivity].
Defined.

(** ** The option inserter *)

(** A difference of -128 .. -1 to the previous number is out of order. *)
Lemma coapBuildOptionHeaderLength_out_of_order (number optionLength previous : Z) :
  coapOptionIsValid number = true ->
  -128 <= number - previous < 0 ->
  coapBuildOptionHeaderLength number optionLength previous
  = COAP_OPTIONS_OUT_OF_ORDER.
Proof.
  intros Hv Hd. unfold coapBuildOptionHeaderLength.
  rewrite Hv. cbn [negb]. rewrite s8_small by lia.
  destruct (Z.ltb_spec (number - previous) 0); [reflexivity | lia].
Qed.

(** The test of the number comes before the comparison with the previous
    option: the reserved number 9 after 11 is answered with
    COAP_INVALID_OPTION. *)
Lemma coapAddOption_reserved_number_first :
  coapAddOption (plain_buffer 0x40 0x01 0x12 0x34 [] [(11, [0x61])] (zeros 1454))
    (plain_length [] [(11, [0x61])]) 9 1 [0x62] (Some 6)
  = Ret {| add_ret := COAP_INVALID_OPTION;
           add_buffer :=
             plain_buffer 0x40 0x01 0x12 0x34 [] [(11, [0x61])] (zeros 1454);
           add_length := plain_length [] [(11, [0x61])];
           add_newPointer := Some 6 |}.
Proof. vm_compute. reflexivity. Qed.

(** Where the order check of coapAddOption works: for a buffer with a valid
    header, a token and at least one earlier option, written without a delta
    escape (at most 127 options with deltas 0..12 and values of at most 255
    bytes, the last number at most 255) and followed by at least one more
    byte of the array, coapAddOption with a number that coapOptionIsValid
    accepts, that is smaller than the number of the last option and at most
    128 below it, returns COAP_OPTIONS_OUT_OF_ORDER and leaves the array,
    the length counter and the tail pointer unchanged. *)
Lemma coapAddOption_out_of_order (b0 c i1 i2 : Z) (token : list Z)
    (os : list (Z * list Z)) (rest : list Z)
    (number optionLength : Z) (pOptionData : list Z) (tail : option Z) :
  0 <= b0 < 256 -> b0 mod 16 = len_of token -> len_of token <= 8 ->
  Forall option_ok os -> os <> [] -> (length os <= 127)%nat ->
  last_number os <= 255 -> rest <> [] ->
  coapOptionIsValid number = true ->
  0 <= number < last_number os -> last_number os - number <= 128 ->
  coapAddOption (plain_buffer b0 c i1 i2 token os rest) (plain_length token os)
    number optionLength pOptionData tail
  = Ret {| add_ret := COAP_OPTIONS_OUT_OF_ORDER;
           add_buffer := plain_buffer b0 c i1 i2 token os rest;
           add_length := plain_length token os;
           add_newPointer := tail |}.
Proof.
  intros Hb0 Htkl Htoken Hos Hne Hcount Hlast Hrest Hvalid Hnum Hdiff.
  pose proof (len_of_nonneg token) as H1.
  pose proof (len_of_nonneg (wire_options os)) as H2.
  pose proof (wire_options_bound os Hos) as H3.
  assert (Hlen : plain_length token os < 65536)
    by (unfold plain_length, COAP_HDR_BYTES; lia).
  assert (Hn : 0 < Z.of_nat (length os) <= 127).
  { destruct os; [contradiction | cbn [length]; cbn [length] in Hcount; lia]. }
  unfold coapAddOption.
  destruct (Z.ltb_spec (plain_length token os) COAP_HDR_BYTES) as [E | _];
    [unfold plain_length in E; lia |].
  rewrite plain_token_length by assumption. cbn [bind].
  rewrite coapGetOptionCount_plain by assumption. cbn [bind].
  rewrite (u8_small (len_of token)) by lia.
  rewrite (s8_small (Z.of_nat (length os))) by lia.
  destruct (Z.ltb_spec (len_of token) 0); [lia |].
  destruct (Z.ltb_spec (Z.of_nat (length os)) 0); [lia |].
  rewrite Hvalid. cbn [negb].
  rewrite Z.gtb_ltb. destruct (Z.ltb_spec 0 (Z.of_nat (length os))); [| lia].
  rewrite (u8_small (Z.of_nat (length os))) by lia.
  destruct (coapGetOption_plain b0 c i1 i2 token os rest) as (g & Hg & _ & Hgn);
    try assumption; [lia |].
  rewrite Hg. cbn [bind]. rewrite Hgn.
  destruct (Z.eqb_spec (last_number os) 0); [lia |].
  cbn [bind]. rewrite u8_s8, (u8_small (last_number os)) by lia.
  rewrite coapBuildOptionHeaderLength_out_of_order by (assumption || lia).
  reflexivity.
Qed.

(** Scenario S5: header, option 11 with value "a", then option 7. *)
Lemma coapAddOption_out_of_order_witness :
  (do (_, m, len) <- coapSetPacketHeader (zeros 1460) 0 1 0 0 1 0x1234;
   coapAddOption m len 11 1 [0x61] (Some 0))
  = Ret {| add_ret := COAP_OK;
           add_buffer :=
             plain_buffer 0x40 0x01 0x12 0x34 [] [(11, [0x61])] (zeros 1454);
           add_length := plain_length [] [(11, [0x61])];
           add_newPointer := Some 6 |}
  /\ coapAddOption
       (plain_buffer 0x40 0x01 0x12 0x34 [] [(11, [0x61])] (zeros 1454))
       (plain_length [] [(11, [0x61])]) 7 1 [0x62] (Some 6)
     = Ret {| add_ret := COAP_OPTIONS_OUT_OF_ORDER;
              add_buffer :=
                plain_buffer 0x40 0x01 0x12 0x34 [] [(11, [0x61])] (zeros 1454);
              add_length := plain_length [] [(11, [0x61])];
              add_newPointer := Some 6 |}.
Proof.
  split; [vm_compute; reflexivity |].
  apply (coapAddOption_out_of_order 0x40 0x01 0x12 0x34 [] [(11, [0x61])]
           (zeros 1454) 7 1 [0x62] (Some 6)).
  - lia.
  - reflexivity.
  - vm_compute; discriminate.
  - constructor; [split; [cbn; lia | vm_compute; discriminate] | constructor].
  - discriminate.
  - cbn; lia.
  - vm_compute; discriminate.
  - vm_compute; discriminate.
  - reflexivity.
  - cbn; lia.
  - cbn; lia.
Defined.

(** C6 fails on the code: the order check is made on a difference kept in
    an int8_t.  [int8_t difference = option - pPreviousOption] in
    coapBuildOptionHeaderLength, under the comment that the options are
    checked not to be out of order, wraps to a positive value when the new
    number is 129 or more below the last one.  Eleven options without a value and with
    the numbers 12, 24, ..., 120, 131 are added to a fresh header; the buffer
    is then [40 01 12 34 C0 (ten times) B0], its length is 15, and
    coapGetOption finds 131 as the number of the last option.  Adding the
    accepted number 1 with the value [63] is answered with COAP_OK instead of
    COAP_OPTIONS_OUT_OF_ORDER: the difference 1 - 131 is taken for a delta of
    126, two bytes are written behind the last option, and the length counter
    and the tail pointer move from 15 to 17. *)
Theorem coapAddOption_int8_order_check :
  (do (_, m, len) <- coapSetPacketHeader (zeros 1460) 0 1 0 0 1 0x1234;
   add_options
     [(12, []); (24, []); (36, []); (48, []); (60, []); (72, []); (84, []);
      (96, []); (108, []); (120, []); (131, [])] m len (Some 0))
  = Ret (Some ([0x40; 0x01; 0x12; 0x34] ++ repeat 0xC0 10 ++ [0xB0]
               ++ zeros 1445, 15, Some 15))
  /\ coapGetOptionCount
       ([0x40; 0x01; 0x12; 0x34] ++ repeat 0xC0 10 ++ [0xB0] ++ zeros 1445) 15
     = Ret 11
  /\ coapGetOption
       ([0x40; 0x01; 0x12; 0x34] ++ repeat 0xC0 10 ++ [0xB0] ++ zeros 1445)
       15 11
     = Ret {| got_ret := 0; got_number := Some 131;
              got_data := Some (Some 15) |}
  /\ coapOptionIsValid 1 = true
  /\ s8 (1 - 131) = 126
  /\ coapBuildOptionHeaderLength 1 1 131 = 2
  /\ coapAddOption
       ([0x40; 0x01; 0x12; 0x34] ++ repeat 0xC0 10 ++ [0xB0] ++ zeros 1445)
       15 1 1 [0x63] (Some 15)
     = Ret {| add_ret := COAP_OK;
              add_buffer :=
                [0x40; 0x01; 0x12; 0x34] ++ repeat 0xC0 10 ++ [0xB0]
                ++ [0xD1; 0x63] ++ zeros 1443;
              add_length := 17;
              add_newPointer := Some 17 |}.
Proof. repeat split; vm_compute; reflexivity. Qed.

(** ** The validator *)

(** The values that coapGetOption returns. *)
Lemma coapGetOption_ret (m : list Z) (len idx : Z) (g : got) :
  coapGetOption m len idx = Ret g ->
  (got_ret g = COAP_INVALID_PACKET /\ len < COAP_HDR_BYTES)
  \/ got_ret g = COAP_INVALID_TOKEN_LENGTH
  \/ got_ret g = COAP_END_OF_PACKET
  \/ got_ret g = COAP_FOUND_PAYLOAD_MARKER
  \/ 0 <= got_ret g.
Proof.
  unfold coapGetOption.
  destruct (len <? COAP_HDR_BYTES) eqn:E.
  { intros [= <-]. left. split; [reflexivity | apply Z.ltb_lt; exact E]. }
  destruct (coapGetTokenLength m len) as [tl | |] eqn:Htl; cbn [bind];
    try discriminate.
  destruct (coapGetTokenLength_range m len tl Htl) as [[_ Hlt] | [-> | Hr]].
  - apply Z.ltb_ge in E. lia.
  - cbn. intros [= <-]. right; left; reflexivity.
  - destruct (tl <? 0) eqn:E0; [lia |].
    destruct (len - (COAP_HDR_BYTES + tl) =? 0).
    { intros [= <-]. right; right; left; reflexivity. }
    match goal with |- context [getopt_loop ?n ?m ?l ?s] =>
      destruct (getopt_loop n m l s) as [r | |] eqn:Hloop end;
      cbn [bind]; try discriminate.
    apply getopt_loop_ret in Hloop; [| cbn; lia].
    destruct r as [code | g']; intros [= <-]; cbn.
    + right; right; right; left. exact Hloop.
    + right; right; right; right. exact Hloop.
Qed.

Lemma validate_options_ret (n : nat) (m : list Z) (len i r : Z) :
  COAP_HDR_BYTES <= len ->
  validate_options n m len i = Ret r ->
  r = COAP_OK \/ r = COAP_INVALID_TOKEN_LENGTH \/ r = COAP_END_OF_PACKET
  \/ r = COAP_FOUND_PAYLOAD_MARKER.
Proof.
  intros Hlen. revert i. induction n as [| n IH]; intros i; cbn [validate_options].
  - intros [= <-]. left; reflexivity.
  - destruct (coapGetOption m len (u8 i)) as [g | |] eqn:Hg; cbn [bind];
      try discriminate.
    destruct (got_ret g <? 0) eqn:E; [| apply IH].
    intros [= <-].
    destruct (coapGetOption_ret m len (u8 i) g Hg)
      as [[_ Hlt] | [-> | [-> | [-> | Hnn]]]]; try lia.
    + right; left; reflexivity.
    + right; right; left; reflexivity.
    + right; right; right; reflexivity.
Qed.

(** The four header tests come down to the test of the version: the type
    is always in 0..3, an invalid token length is handed to
    coapTokenLengthIsValid as the error code -3, which is below 9, and the
    code test looks at the type. *)
Lemma validate_header_spec (m : list Z) (len b0 : Z) :
  COAP_HDR_BYTES <= len -> rd m 0 = Ret b0 ->
  validate_header m len
  = Ret (if s8 (Z.shiftr b0 6) =? COAP_VERSION then None
         else Some COAP_INVALID_VERSION).
Proof.
  intros Hlen Hb0.
  unfold validate_header, coapGetVersion, coapGetType. cbv zeta.
  destruct (Z.ltb_spec len COAP_HDR_BYTES); [lia |].
  rewrite Hb0. cbn [bind].
  unfold coapVersionIsValid at 1.
  destruct (Z.eqb_spec (s8 (Z.shiftr b0 6)) COAP_VERSION) as [Ev | Ev];
    cbn [negb bind]; [| reflexivity].
  rewrite Ev. change (coapVersionIsValid COAP_VERSION) with true. cbn [negb].
  assert (Ht : 0 <= s8 (Z.land (Z.shiftr b0 4) 3) < 4).
  { change 3 with (Z.ones 2). rewrite Z.land_ones by lia.
    pose proof (Z.mod_pos_bound (Z.shiftr b0 4) (2 ^ 2) ltac:(lia)) as Hm.
    change (2 ^ 2) with 4 in *. rewrite s8_small by lia. lia. }
  set (t := s8 (Z.land (Z.shiftr b0 4) 3)) in *.
  assert (HtV : coapTypeIsValid t = true).
  { unfold coapTypeIsValid.
    destruct (t >? 3) eqn:E1; [lia |]. destruct (t <? 0) eqn:E2; [lia |].
    reflexivity. }
  rewrite HtV. cbn [negb bind]. rewrite HtV. cbn [negb bind].
  destruct (coapGetTokenLength m len) as [tl | |] eqn:Htl; cbn [bind].
  2,3: unfold coapGetTokenLength in Htl;
       destruct (len <? COAP_HDR_BYTES); [discriminate |];
       rewrite Hb0 in Htl; cbn [bind] in Htl;
       destruct (negb _) in Htl; discriminate.
  assert (HtlV : coapTokenLengthIsValid tl = true).
  { unfold coapTokenLengthIsValid.
    destruct (coapGetTokenLength_range m len tl Htl) as [[-> _] | [-> | Hr]];
      try reflexivity.
    destruct (tl >=? 9) eqn:E9; [lia | reflexivity]. }
  rewrite HtlV. cbn [negb bind].
  assert (HcV : coapCodeIsValid t = true).
  { assert (Hc : t = 0 \/ t = 1 \/ t = 2 \/ t = 3) by lia.
    destruct Hc as [-> | [-> | [-> | ->]]]; reflexivity. }
  rewrite HcV. reflexivity.
Qed.

Lemma validate_header_ret (m : list Z) (len r : Z) :
  validate_header m len = Ret (Some r) ->
  (r = COAP_INVALID_PACKET /\ len < COAP_HDR_BYTES) \/ r = COAP_INVALID_VERSION.
Proof.
  destruct (Z.ltb_spec len COAP_HDR_BYTES) as [Hlt | Hge].
  - unfold validate_header, coapGetVersion.
    destruct (Z.ltb_spec len COAP_HDR_BYTES); [| lia].
    cbn. intros [= <-]. left. split; [reflexivity | exact Hlt].
  - destruct (rd m 0) as [b0 | |] eqn:Hb0.
    + rewrite (validate_header_spec m len b0 Hge Hb0).
      destruct (s8 (Z.shiftr b0 6) =? COAP_VERSION); [discriminate |].
      intros [= <-]. right; reflexivity.
    + unfold validate_header, coapGetVersion.
      destruct (Z.ltb_spec len COAP_HDR_BYTES); [lia |].
      rewrite Hb0. discriminate.
    + unfold validate_header, coapGetVersion.
      destruct (Z.ltb_spec len COAP_HDR_BYTES); [lia |].
      rewrite Hb0. discriminate.
Qed.

(** X26: For every buffer of at least four bytes, whatever its code byte and
    its options are, the validator answers neither COAP_INVALID_PACKET nor
    COAP_UNKNOWN_CODE. *)
Lemma coapValidatePacket_codes (m : list Z) (len r : Z) :
  COAP_HDR_BYTES <= len ->
  coapValidatePacket m len = Ret r ->
  r = COAP_OK \/ r = COAP_INVALID_VERSION \/ r = COAP_INVALID_TOKEN_LENGTH
  \/ r = COAP_END_OF_PACKET \/ r = COAP_FOUND_PAYLOAD_MARKER.
Proof.
  intros Hlen. unfold coapValidatePacket.
  assert (Hh : forall h, validate_header m len = Ret (Some h) ->
                         h = COAP_INVALID_VERSION).
  { intros h Hh. destruct (validate_header_ret m len h Hh) as [[_ Hlt] | ->];
      [lia | reflexivity]. }
  destruct (len =? COAP_HDR_BYTES);
    destruct (validate_header m len) as [[h |] | |]; cbn [bind];
    try discriminate.
  - intros [= <-]. right; left. apply Hh. reflexivity.
  - intros [= <-]. left; reflexivity.
  - intros [= <-]. right; left. apply Hh. reflexivity.
  - destruct (coapGetOptionCount m len) as [oc | |]; cbn [bind];
      try discriminate.
    destruct (oc <? 0); [intros [= <-]; left; reflexivity |].
    intros Hv. apply validate_options_ret in Hv; [| exact Hlen].
    destruct Hv as [-> | [-> | [-> | ->]]]; auto.
Qed.

(** For every buffer of less than four bytes the validator answers
    COAP_INVALID_PACKET, without a read. *)
Lemma coapValidatePacket_short (m : list Z) (len : Z) :
  len < COAP_HDR_BYTES -> coapValidatePacket m len = Ret COAP_INVALID_PACKET.
Proof.
  intros Hlen. unfold coapValidatePacket, validate_header, coapGetVersion.
  destruct (len =? COAP_HDR_BYTES) eqn:E; [apply Z.eqb_eq in E; lia |].
  destruct (len <? COAP_HDR_BYTES) eqn:E1; [| apply Z.ltb_ge in E1; lia].
  reflexivity.
Qed.

(** A buffer of four bytes with version 1 is valid for the validator,
    whatever its code byte and its token length nibble are. *)
Lemma coapValidatePacket_header_only (b0 c i1 i2 : Z) :
  s8 (Z.shiftr b0 6) = COAP_VERSION ->
  coapValidatePacket [b0; c; i1; i2] 4 = Ret COAP_OK.
Proof.
  intros Hv. unfold coapValidatePacket.
  change (4 =? COAP_HDR_BYTES) with true. cbv iota.
  rewrite (validate_header_spec [b0; c; i1; i2] 4 b0);
    [| unfold COAP_HDR_BYTES; lia | reflexivity].
  rewrite Hv, Z.eqb_refl. reflexivity.
Qed.

(** X27: Whenever coapGetOptionCount reports an error for a buffer with
    version 1, the validator answers COAP_OK: its [return false]. *)
Lemma coapValidatePacket_count_error (m : list Z) (len b0 r : Z) :
  COAP_HDR_BYTES < len -> rd m 0 = Ret b0 ->
  s8 (Z.shiftr b0 6) = COAP_VERSION ->
  coapGetOptionCount m len = Ret r -> r < 0 ->
  coapValidatePacket m len = Ret COAP_OK.
Proof.
  intros Hlen Hb0 Hv Hcount Hr. unfold coapValidatePacket.
  destruct (Z.eqb_spec len COAP_HDR_BYTES); [lia |].
  rewrite (validate_header_spec m len b0) by (lia || assumption).
  rewrite Hv, Z.eqb_refl. cbn [bind]. rewrite Hcount. cbn [bind].
  destruct (Z.ltb_spec r 0); [reflexivity | lia].
Qed.

(** C2 fails on the code.  The validator tests the code with
    [coapCodeIsValid(coapGetType(...))], and a type 0..3 is always an
    accepted code: a buffer whose code byte 0x05 coapGetCode rejects passes
    as COAP_OK.  An error of coapGetOptionCount ends in [return false],
    which is COAP_OK: the malformed option byte 0x2F (length nibble 15)
    passes, and so does a token length of 9, which coapGetTokenLength
    rejects. *)
Theorem coapValidatePacket_unknown_code_passes :
  coapGetCode [0x40; 0x05; 0x12; 0x34] 4 = Ret COAP_UNKNOWN_CODE
  /\ coapValidatePacket [0x40; 0x05; 0x12; 0x34] 4 = Ret COAP_OK
  /\ coapGetOptionCount [0x40; 0x01; 0x12; 0x34; 0x2F] 5 = Ret COAP_INVALID_PACKET
  /\ coapValidatePacket [0x40; 0x01; 0x12; 0x34; 0x2F] 5 = Ret COAP_OK
  /\ coapGetTokenLength [0x49; 0x01; 0x12; 0x34] 4 = Ret COAP_INVALID_TOKEN_LENGTH
  /\ coapValidatePacket [0x49; 0x01; 0x12; 0x34] 4 = Ret COAP_OK.
Proof. repeat split; vm_compute; reflexivity. Qed.

(** C7 fails on the code for a nibble of 15: the validator answers COAP_OK
    for a length nibble of 15 (coapGetOptionCount reports it, then
    [return false]) and for a delta nibble of 15 (coapGetOptionCount does
    not look at the delta, and coapGetOption keeps the result of
    coapDecodeOption in a uint8_t).  The part on buffers of less than four
    bytes holds. *)
Theorem coapValidatePacket_nibble_15_passes :
  coapValidatePacket [0x40; 0x01; 0x12; 0x34; 0x1F] 5 = Ret COAP_OK
  /\ coapValidatePacket [0x40; 0x01; 0x12; 0x34; 0xF0; 0x00] 5 = Ret COAP_OK
  /\ coapValidatePacket [0x40; 0x01; 0x12; 0x34; 0xB1; 0x61; 0xF1; 0x62; 0x00] 8
     = Ret COAP_OK
  /\ coapValidatePacket [0x40; 0x01; 0x12] 3 = Ret COAP_INVALID_PACKET.
Proof. repeat split; vm_compute; reflexivity. Qed.

(** ** The round trip *)

(** Scenarios S1 to S3 in one message: a confirmable GET with two Uri-Path
    options "a" and "b" and the payload "hi" does make the round trip. *)
Example round_trip_uri_path :
  round_trip 1460 (get_request [(11, [0x61]); (11, [0x62])] [0x68; 0x69]).
Proof.
  exists ([0x40; 0x01; 0x12; 0x34; 0xB1; 0x61; 0x01; 0x62; 0xFF; 0x68; 0x69]
          ++ zeros 1449), 11.
  split; vm_compute; reflexivity.
Qed.

(** C1 fails on the code.  A confirmable GET with the single option
    Uri-Query (number 15, value "a") and the payload "hi" is written as
    [40 01 12 34 D1 61 FF 68 69]: for a delta that needs the one-byte
    extension coapBuildOptionHeader stores [option - 13] in the extension
    byte but leaves the tail pointer on it, so the value overwrites it and
    the length counter is one short.  Decoding yields the option number 110
    with the value [FF].  A response code of 0x80 or more does not survive
    either: coapGetCode narrows the byte to int8_t and answers
    COAP_UNKNOWN_CODE. *)
Theorem round_trip_fails :
  encode 1460 (get_request [(15, [0x61])] [0x68; 0x69])
  = Ret (Some ([0x40; 0x01; 0x12; 0x34; 0xD1; 0x61; 0xFF; 0x68; 0x69]
               ++ zeros 1451, 9))
  /\ decode ([0x40; 0x01; 0x12; 0x34; 0xD1; 0x61; 0xFF; 0x68; 0x69]
             ++ zeros 1451) 9
     = Ret (Some (get_request [(110, [0xFF])] [0x68; 0x69]))
  /\ ~ round_trip 1460 (get_request [(15, [0x61])] [0x68; 0x69])
  /\ encode 1460 {| msg_version := 1; msg_type := 2; msg_token := [];
                    msg_code := 0x80; msg_id := 0x1234; msg_options := [];
                    msg_payload := [] |}
     = Ret (Some ([0x60; 0x80; 0x12; 0x34] ++ zeros 1456, 4))
  /\ coapGetCode ([0x60; 0x80; 0x12; 0x34] ++ zeros 1456) 4
     = Ret COAP_UNKNOWN_CODE
  /\ decode ([0x60; 0x80; 0x12; 0x34] ++ zeros 1456) 4 = Ret None.
Proof.
  assert (Henc : encode 1460 (get_request [(15, [0x61])] [0x68; 0x69])
                 = Ret (Some ([0x40; 0x01; 0x12; 0x34; 0xD1; 0x61; 0xFF;
                               0x68; 0x69] ++ zeros 1451, 9)))
    by (vm_compute; reflexivity).
  assert (Hdec : decode ([0x40; 0x01; 0x12; 0x34; 0xD1; 0x61; 0xFF; 0x68; 0x69]
                         ++ zeros 1451) 9
                 = Ret (Some (get_request [(110, [0xFF])] [0x68; 0x69])))
    by (vm_compute; reflexivity).
  split; [exact Henc |].
  split; [exact Hdec |].
  split.
  - intros (m & len & He & Hd).
    rewrite Henc in He.
    assert (Hm : m = [0x40; 0x01; 0x12; 0x34; 0xD1; 0x61; 0xFF; 0x68; 0x69]
                     ++ zeros 1451)
      by congruence.
    assert (Hl : len = 9) by congruence.
    rewrite Hm, Hl, Hdec in Hd. discriminate.
  - repeat split; vm_compute; reflexivity.
Qed.

(** * Further properties of the codec *)

(** ** Bytes by enumeration *)

(** A boolean test that holds on the 256 byte values holds for every
    byte. *)
Lemma forall_bytes (P : Z -> bool) :
  forallb P (map Z.of_nat (seq 0 256)) = true ->
  forall b, 0 <= b < 256 -> P b = true.
Proof.
  intros H b Hb. rewrite forallb_forall in H. apply H.
  replace b with (Z.of_nat (Z.to_nat b)) by lia.
  apply in_map. apply in_seq. lia.
Qed.

Lemma wr_head (x v : Z) (l : list Z) : wr (x :: l) 0 v = Ret (v :: l).
Proof.
  unfold wr. cbn [length].
  destruct (Z.ltb_spec 0 (Z.of_nat (S (length l)))); [reflexivity | lia].
Qed.

(** ** Header byte 0 *)

Lemma byte0_fields (m : list Z) (len b0 : Z) :
  COAP_HDR_BYTES <= len -> rd m 0 = Ret b0 -> 0 <= b0 < 256 ->
  coapGetVersion m len
  = Ret (if b0 / 64 =? 1 then 1 else COAP_INVALID_VERSION)
  /\ coapGetType m len = Ret ((b0 / 16) mod 4)
  /\ coapGetTokenLength m len
     = Ret (if b0 mod 16 <=? 8 then b0 mod 16 else COAP_INVALID_TOKEN_LENGTH).
Proof.
  intros Hlen Hb0 Hr.
  unfold coapGetVersion, coapGetType, coapGetTokenLength.
  destruct (Z.ltb_spec len COAP_HDR_BYTES); [lia |].
  rewrite Hb0. cbn [bind].
  set (P := fun b =>
    let v := s8 (Z.shiftr b 6) in
    let t := s8 (Z.land (Z.shiftr b 4) 3) in
    let k := s8 (Z.land (s8 b) 15) in
    (v =? b / 64) && (t =? (b / 16) mod 4) && (k =? b mod 16)).
  assert (HP : P b0 = true) by (apply forall_bytes; [vm_compute; reflexivity | exact Hr]).
  unfold P in HP. cbv zeta in HP.
  apply andb_prop in HP as [HP Hk]. apply andb_prop in HP as [Hv Ht].
  apply Z.eqb_eq in Hv, Ht, Hk. rewrite Hv, Ht, Hk.
  pose proof (Z.mod_pos_bound (b0 / 16) 4 ltac:(lia)) as Htr.
  pose proof (Z.mod_pos_bound b0 16 ltac:(lia)) as Hkr.
  repeat split.
  - unfold coapVersionIsValid, COAP_VERSION.
    destruct (Z.eqb_spec (b0 / 64) 1) as [-> | _]; reflexivity.
  - unfold coapTypeIsValid. rewrite Z.gtb_ltb.
    destruct (Z.ltb_spec 3 ((b0 / 16) mod 4)); [lia |].
    destruct (Z.ltb_spec ((b0 / 16) mod 4) 0); [lia |]. reflexivity.
  - unfold coapTokenLengthIsValid. rewrite Z.geb_leb.
    destruct (Z.leb_spec 9 (b0 mod 16)), (Z.leb_spec (b0 mod 16) 8);
      try lia; reflexivity.
Qed.

(** X1: byte 0 of the header is read as three fields.  For every buffer of at
    least four bytes whose first byte is b0, coapGetVersion returns 1 when the
    two top bits are 01 and COAP_INVALID_VERSION otherwise, coapGetType
    returns bits 5..4 (always 0..3), and coapGetTokenLength returns the low
    nibble when it is at most 8 and COAP_INVALID_TOKEN_LENGTH otherwise. *)
Theorem header_byte_layout (m : list Z) (len b0 : Z) :
  COAP_HDR_BYTES <= len -> rd m 0 = Ret b0 -> 0 <= b0 < 256 ->
  coapGetVersion m len
  = Ret (if b0 / 64 =? 1 then 1 else COAP_INVALID_VERSION)
  /\ coapGetType m len = Ret ((b0 / 16) mod 4)
  /\ coapGetTokenLength m len
     = Ret (if b0 mod 16 <=? 8 then b0 mod 16 else COAP_INVALID_TOKEN_LENGTH).
Proof. apply byte0_fields. Qed.

Lemma header_byte_layout_witness :
  coapGetVersion [0x58; 0x01; 0x12; 0x34] 4
  = Ret (if 0x58 / 64 =? 1 then 1 else COAP_INVALID_VERSION)
  /\ coapGetType [0x58; 0x01; 0x12; 0x34] 4 = Ret ((0x58 / 16) mod 4)
  /\ coapGetTokenLength [0x58; 0x01; 0x12; 0x34] 4
     = Ret (if 0x58 mod 16 <=? 8 then 0x58 mod 16
            else COAP_INVALID_TOKEN_LENGTH).
Proof.
  apply (header_byte_layout [0x58; 0x01; 0x12; 0x34] 4 0x58);
    [unfold COAP_HDR_BYTES; lia | reflexivity | lia].
Defined.

(** ** The code byte *)

Lemma get_code_value (m : list Z) (len c : Z) :
  COAP_HDR_BYTES <= len -> rd m 1 = Ret c -> 0 <= c < 256 ->
  coapGetCode m len
  = Ret (if (c <? 0x80) && coapCodeIsValid c then c else COAP_UNKNOWN_CODE).
Proof.
  intros Hlen Hc Hr. unfold coapGetCode.
  destruct (Z.ltb_spec len COAP_HDR_BYTES); [lia |].
  rewrite Hc. cbn [bind].
  set (P := fun b =>
    let code := s8 (s16 b) in
    if (b <? 0x80) && coapCodeIsValid b
    then coapCodeIsValid code && (code =? b)
    else negb (coapCodeIsValid code)).
  assert (HP : P c = true) by (apply forall_bytes; [vm_compute; reflexivity | exact Hr]).
  unfold P in HP. cbv zeta in HP.
  destruct ((c <? 0x80) && coapCodeIsValid c).
  - apply andb_prop in HP as [Hv He]. apply Z.eqb_eq in He.
    rewrite Hv, He. reflexivity.
  - apply negb_true_iff in HP. rewrite HP. reflexivity.
Qed.

(** X2: coapGetCode hands back the code byte only when it is an enumerator of
    CoapCode below 0x80.  Its local is an int8_t, so the sixteen enumerators
    0x80 .. 0xA5 (the 4.xx and 5.xx responses) come back as COAP_UNKNOWN_CODE,
    like a byte outside the enumeration. *)
Theorem coapGetCode_below_0x80 (m : list Z) (len c : Z) :
  COAP_HDR_BYTES <= len -> rd m 1 = Ret c -> 0 <= c < 256 ->
  coapGetCode m len
  = Ret (if (c <? 0x80) && coapCodeIsValid c then c else COAP_UNKNOWN_CODE).
Proof. apply get_code_value. Qed.

Lemma get_message_id_value (m : list Z) (len b2 b3 : Z) :
  COAP_HDR_BYTES <= len -> rd m 2 = Ret b2 -> rd m 3 = Ret b3 ->
  0 <= b2 < 256 -> 0 <= b3 < 256 ->
  coapGetMessageId m len = Ret (s16 (b2 * 256 + b3)).
Proof.
  intros Hlen H2 H3 Hb2 Hb3. unfold coapGetMessageId.
  destruct (Z.ltb_spec len COAP_HDR_BYTES); [lia |].
  rewrite H2, H3. cbn [bind].
  rewrite (s16_small b2), (s16_small b3) by lia.
  rewrite lor_shiftl_8 by lia. reflexivity.
Qed.

Lemma coapGetCode_below_0x80_witness :
  coapGetCode [0x60; 0x84; 0x12; 0x34] 4
  = Ret (if (0x84 <? 0x80) && coapCodeIsValid 0x84 then 0x84
         else COAP_UNKNOWN_CODE).
Proof.
  apply (coapGetCode_below_0x80 [0x60; 0x84; 0x12; 0x34] 4 0x84);
    [unfold COAP_HDR_BYTES; lia | reflexivity | lia].
Defined.

(** ** Buffers of less than four bytes *)

(** X3: every accessor answers a claimed length below four with
    COAP_INVALID_PACKET, whatever the array holds, and writes no out-
    parameter. *)
Theorem accessors_short_buffer (m : list Z) (len idx : Z) :
  len < COAP_HDR_BYTES ->
  coapGetVersion m len = Ret COAP_INVALID_PACKET
  /\ coapGetType m len = Ret COAP_INVALID_PACKET
  /\ coapGetTokenLength m len = Ret COAP_INVALID_PACKET
  /\ coapGetCode m len = Ret COAP_INVALID_PACKET
  /\ coapGetMessageId m len = Ret COAP_INVALID_PACKET
  /\ coapGetToken m len = Ret (COAP_INVALID_PACKET, None)
  /\ coapGetOptionCount m len = Ret COAP_INVALID_PACKET
  /\ coapGetOption m len idx
     = Ret {| got_ret := COAP_INVALID_PACKET; got_number := None;
              got_data := None |}
  /\ coapGetPayload m len = Ret (COAP_INVALID_PACKET, None).
Proof.
  intros Hlen.
  unfold coapGetVersion, coapGetType, coapGetTokenLength, coapGetCode,
    coapGetMessageId, coapGetToken, coapGetOptionCount, coapGetOption,
    coapGetPayload.
  destruct (Z.ltb_spec len COAP_HDR_BYTES); [| lia].
  repeat split; reflexivity.
Qed.

Lemma accessors_short_buffer_witness :
  coapGetVersion [0x40; 0x01; 0x12] 3 = Ret COAP_INVALID_PACKET
  /\ coapGetType [0x40; 0x01; 0x12] 3 = Ret COAP_INVALID_PACKET
  /\ coapGetTokenLength [0x40; 0x01; 0x12] 3 = Ret COAP_INVALID_PACKET
  /\ coapGetCode [0x40; 0x01; 0x12] 3 = Ret COAP_INVALID_PACKET
  /\ coapGetMessageId [0x40; 0x01; 0x12] 3 = Ret COAP_INVALID_PACKET
  /\ coapGetToken [0x40; 0x01; 0x12] 3 = Ret (COAP_INVALID_PACKET, None)
  /\ coapGetOptionCount [0x40; 0x01; 0x12] 3 = Ret COAP_INVALID_PACKET
  /\ coapGetOption [0x40; 0x01; 0x12] 3 0
     = Ret {| got_ret := COAP_INVALID_PACKET; got_number := None;
              got_data := None |}
  /\ coapGetPayload [0x40; 0x01; 0x12] 3 = Ret (COAP_INVALID_PACKET, None).
Proof.
  apply (accessors_short_buffer [0x40; 0x01; 0x12] 3 0).
  unfold COAP_HDR_BYTES; lia.
Defined.

(** ** Mutators of byte 0 *)

Lemma set_type_bits (b t : Z) :
  0 <= b < 256 -> 0 <= t <= 3 ->
  let b' := u8 (Z.lor (Z.shiftl t 4) (Z.land b 0xCF)) in
  0 <= b' < 256 /\ b' / 64 = b / 64 /\ (b' / 16) mod 4 = t
  /\ b' mod 16 = b mod 16.
Proof.
  intros Hb Ht.
  set (P := fun b =>
    forallb (fun t =>
      let b' := u8 (Z.lor (Z.shiftl t 4) (Z.land b 0xCF)) in
      (0 <=? b') && (b' <? 256) && (b' / 64 =? b / 64)
      && ((b' / 16) mod 4 =? t) && (b' mod 16 =? b mod 16)) [0; 1; 2; 3]).
  assert (HP : P b = true) by (apply forall_bytes; [vm_compute; reflexivity | exact Hb]).
  unfold P in HP. rewrite forallb_forall in HP.
  assert (Hin : In t [0; 1; 2; 3]) by (cbn; lia).
  specialize (HP t Hin). cbv zeta in HP |- *.
  repeat (apply andb_prop in HP as [HP ?]).
  repeat match goal with
         | H : (_ =? _) = true |- _ => apply Z.eqb_eq in H
         | H : (_ <=? _) = true |- _ => apply Z.leb_le in H
         | H : (_ <? _) = true |- _ => apply Z.ltb_lt in H
         end.
  repeat split; assumption.
Qed.

Lemma set_version_bits (b : Z) :
  0 <= b < 256 ->
  let b' := u8 (Z.lor (Z.shiftl 1 6) (Z.land b 0x3F)) in
  0 <= b' < 256 /\ b' / 64 = 1 /\ (b' / 16) mod 4 = (b / 16) mod 4
  /\ b' mod 16 = b mod 16.
Proof.
  intros Hb.
  set (P := fun b =>
      let b' := u8 (Z.lor (Z.shiftl 1 6) (Z.land b 0x3F)) in
      (0 <=? b') && (b' <? 256) && (b' / 64 =? 1)
      && ((b' / 16) mod 4 =? (b / 16) mod 4) && (b' mod 16 =? b mod 16)).
  assert (HP : P b = true) by (apply forall_bytes; [vm_compute; reflexivity | exact Hb]).
  unfold P in HP. cbv zeta in HP |- *.
  repeat (apply andb_prop in HP as [HP ?]).
  repeat match goal with
         | H : (_ =? _) = true |- _ => apply Z.eqb_eq in H
         | H : (_ <=? _) = true |- _ => apply Z.leb_le in H
         | H : (_ <? _) = true |- _ => apply Z.ltb_lt in H
         end.
  repeat split; assumption.
Qed.

(** X4: coapSetType with a type 0..3 returns COAP_OK and sets the length
    counter to 1; coapGetType then reads the type back, and the version and
    the token length that the accessors read are the ones of the old byte. *)
Theorem coapSetType_keeps_fields (b : Z) (rest : list Z) (len len' t : Z) :
  0 <= b < 256 -> 0 <= t <= 3 -> COAP_HDR_BYTES <= len' ->
  exists b',
    coapSetType (b :: rest) len t = Ret (COAP_OK, b' :: rest, 1)
    /\ coapGetType (b' :: rest) len' = Ret t
    /\ coapGetVersion (b' :: rest) len' = coapGetVersion (b :: rest) len'
    /\ coapGetTokenLength (b' :: rest) len'
       = coapGetTokenLength (b :: rest) len'.
Proof.
  intros Hb Ht Hlen.
  destruct (set_type_bits b t Hb Ht) as (Hr & Hv & Hty & Hk).
  set (b' := u8 (Z.lor (Z.shiftl t 4) (Z.land b 0xCF))) in *.
  exists b'. split.
  - unfold coapSetType. rewrite s8_small by lia.
    unfold coapTypeIsValid. rewrite Z.gtb_ltb.
    destruct (Z.ltb_spec 3 t); [lia |]. destruct (Z.ltb_spec t 0); [lia |].
    cbn [orb negb]. rewrite rd_head. cbn [bind]. rewrite wr_head. reflexivity.
  - destruct (byte0_fields (b' :: rest) len' b' Hlen (rd_head _ _) Hr)
      as (Hv' & Ht' & Hk').
    destruct (byte0_fields (b :: rest) len' b Hlen (rd_head _ _) Hb)
      as (Hv0 & Ht0 & Hk0).
    rewrite Hv', Ht', Hk', Hv0, Hk0, Hv, Hty, Hk. repeat split; reflexivity.
Qed.

Lemma coapSetType_keeps_fields_witness :
  exists b',
    coapSetType (0x48 :: [0; 0; 0]) 1 2 = Ret (COAP_OK, b' :: [0; 0; 0], 1)
    /\ coapGetType (b' :: [0; 0; 0]) 4 = Ret 2
    /\ coapGetVersion (b' :: [0; 0; 0]) 4 = coapGetVersion (0x48 :: [0; 0; 0]) 4
    /\ coapGetTokenLength (b' :: [0; 0; 0]) 4
       = coapGetTokenLength (0x48 :: [0; 0; 0]) 4.
Proof.
  apply (coapSetType_keeps_fields 0x48 [0; 0; 0] 1 4 2);
    [lia | lia | unfold COAP_HDR_BYTES; lia].
Defined.

(** X5: coapSetVersion with version 1 returns COAP_OK; coapGetVersion then
    reads 1, and the type and the token length that the accessors read are the
    ones of the old byte. *)
Theorem coapSetVersion_keeps_fields (b : Z) (rest : list Z) (len len' : Z) :
  0 <= b < 256 -> COAP_HDR_BYTES <= len' ->
  exists b',
    coapSetVersion (b :: rest) len COAP_VERSION = Ret (COAP_OK, b' :: rest, 1)
    /\ coapGetVersion (b' :: rest) len' = Ret COAP_VERSION
    /\ coapGetType (b' :: rest) len' = coapGetType (b :: rest) len'
    /\ coapGetTokenLength (b' :: rest) len'
       = coapGetTokenLength (b :: rest) len'.
Proof.
  intros Hb Hlen.
  destruct (set_version_bits b Hb) as (Hr & Hv & Hty & Hk).
  set (b' := u8 (Z.lor (Z.shiftl 1 6) (Z.land b 0x3F))) in *.
  exists b'. split.
  - unfold coapSetVersion, COAP_VERSION. rewrite s8_small by lia.
    unfold coapVersionIsValid, COAP_VERSION.
    cbn [Z.eqb Pos.eqb negb]. rewrite rd_head. cbn [bind]. rewrite wr_head.
    reflexivity.
  - destruct (byte0_fields (b' :: rest) len' b' Hlen (rd_head _ _) Hr)
      as (Hv' & Ht' & Hk').
    destruct (byte0_fields (b :: rest) len' b Hlen (rd_head _ _) Hb)
      as (Hv0 & Ht0 & Hk0).
    rewrite Hv', Ht', Hk', Ht0, Hk0, Hv, Hty, Hk. repeat split; reflexivity.
Qed.

Lemma coapSetVersion_keeps_fields_witness :
  exists b',
    coapSetVersion (0x28 :: [0; 0; 0]) 0 COAP_VERSION
    = Ret (COAP_OK, b' :: [0; 0; 0], 1)
    /\ coapGetVersion (b' :: [0; 0; 0]) 4 = Ret COAP_VERSION
    /\ coapGetType (b' :: [0; 0; 0]) 4 = coapGetType (0x28 :: [0; 0; 0]) 4
    /\ coapGetTokenLength (b' :: [0; 0; 0]) 4
       = coapGetTokenLength (0x28 :: [0; 0; 0]) 4.
Proof.
  apply (coapSetVersion_keeps_fields 0x28 [0; 0; 0] 0 4);
    [lia | unfold COAP_HDR_BYTES; lia].
Defined.

(** ** Token length values that the int8_t test lets through *)

(** X6: a token length of 9 or more.  coapSetTokenLength hands its uint8_t
    argument to coapTokenLengthIsValid, which takes an int8_t: 9 .. 127 are
    refused and leave buffer and length counter alone, but 128 .. 255 are
    negative there, pass the test, and their low nibble is ORed into byte 0. *)
Theorem coapSetTokenLength_int8_test (b : Z) (rest : list Z) (len t : Z) :
  0 <= b < 256 -> 9 <= t < 256 ->
  coapSetTokenLength (b :: rest) len t
  = if t <? 128
    then Ret (COAP_INVALID_TOKEN_LENGTH, b :: rest, len)
    else Ret (COAP_OK, Z.lor b (Z.land t 0x0F) :: rest, 1).
Proof.
  intros Hb Ht. unfold coapSetTokenLength, coapTokenLengthIsValid.
  destruct (Z.ltb_spec t 128) as [Hlt | Hge].
  - rewrite s8_small by lia. rewrite Z.geb_leb.
    destruct (Z.leb_spec 9 t); [reflexivity | lia].
  - assert (Hs : s8 t = t - 256).
    { unfold s8. replace (t + 128) with (t - 128 + 1 * 256) by lia.
      rewrite Z.mod_add by lia. rewrite Z.mod_small; lia. }
    rewrite Hs, Z.geb_leb.
    destruct (Z.leb_spec 9 (t - 256)); [lia |]. cbn [negb].
    rewrite rd_head. cbn [bind].
    assert (Hland : 0 <= Z.land t 15 < 256).
    { rewrite land_15_mod. pose proof (Z.mod_pos_bound t 16 ltac:(lia)). lia. }
    rewrite Z.lor_comm, u8_small by (apply lor_below_256; lia).
    rewrite wr_head. reflexivity.
Qed.

Lemma coapSetTokenLength_int8_test_witness :
  coapSetTokenLength (0x40 :: [0; 0; 0]) 0 143
  = if 143 <? 128
    then Ret (COAP_INVALID_TOKEN_LENGTH, 0x40 :: [0; 0; 0], 0)
    else Ret (COAP_OK, Z.lor 0x40 (Z.land 143 0x0F) :: [0; 0; 0], 1).
Proof.
  apply (coapSetTokenLength_int8_test 0x40 [0; 0; 0] 0 143); lia.
Defined.

(** ** The packet header *)

Lemma header_byte_0 (b t k : Z) :
  0 <= b < 256 -> b mod 16 = 0 -> 0 <= t <= 3 -> 0 <= k <= 8 ->
  u8 (Z.lor (Z.land k 0x0F)
        (u8 (Z.lor (Z.shiftl t 4)
               (Z.land (u8 (Z.lor (Z.shiftl 1 6) (Z.land b 0x3F))) 0xCF))))
  = 64 + 16 * t + k.
Proof.
  intros Hb Hlow Ht Hk.
  set (f := fun b t k =>
    u8 (Z.lor (Z.land k 0x0F)
          (u8 (Z.lor (Z.shiftl t 4)
                 (Z.land (u8 (Z.lor (Z.shiftl 1 6) (Z.land b 0x3F))) 0xCF))))).
  set (P := fun b =>
    negb (b mod 16 =? 0)
    || forallb (fun t =>
         forallb (fun k => f b t k =? 64 + 16 * t + k)
           [0; 1; 2; 3; 4; 5; 6; 7; 8]) [0; 1; 2; 3]).
  assert (HP : P b = true) by (apply forall_bytes; [vm_compute; reflexivity | exact Hb]).
  unfold P in HP. rewrite Hlow in HP. cbn [Z.eqb negb orb] in HP.
  rewrite forallb_forall in HP.
  assert (Hint : In t [0; 1; 2; 3]) by (cbn; lia).
  specialize (HP t Hint). rewrite forallb_forall in HP.
  assert (Hink : In k [0; 1; 2; 3; 4; 5; 6; 7; 8]) by (cbn; lia).
  specialize (HP k Hink). apply Z.eqb_eq in HP. exact HP.
Qed.

Lemma coap_codes_bytes (code : Z) :
  In code coap_codes ->
  0 <= code < 256 /\ coapCodeIsValid code = true.
Proof.
  intros Hin. split.
  - cbn in Hin. repeat (destruct Hin as [<- | Hin]; [lia |]). contradiction.
  - unfold coapCodeIsValid. apply existsb_exists. exists code.
    split; [exact Hin | apply Z.eqb_refl].
Qed.

Lemma wr_second (x y v : Z) (l : list Z) : wr (x :: y :: l) 1 v = Ret (x :: v :: l).
Proof.
  unfold wr. cbn [length].
  destruct (Z.ltb_spec 1 (Z.of_nat (S (S (length l))))); [reflexivity | lia].
Qed.

Lemma wr_third (x y z v : Z) (l : list Z) :
  wr (x :: y :: z :: l) 2 v = Ret (x :: y :: v :: l).
Proof.
  unfold wr. cbn [length].
  destruct (Z.ltb_spec 2 (Z.of_nat (S (S (S (length l)))))); [reflexivity | lia].
Qed.

Lemma wr_fourth (x y z w v : Z) (l : list Z) :
  wr (x :: y :: z :: w :: l) 3 v = Ret (x :: y :: z :: v :: l).
Proof.
  unfold wr. cbn [length].
  destruct (Z.ltb_spec 3 (Z.of_nat (S (S (S (S (length l))))))); [reflexivity | lia].
Qed.

Lemma coapSetPacketHeader_writes (b c0 x y : Z) (rest : list Z)
    (len t k code mid : Z) :
  0 <= b < 256 -> b mod 16 = 0 -> 0 <= t <= 3 -> 0 <= k <= 8 ->
  In code coap_codes -> 0 <= mid < 65536 ->
  coapSetPacketHeader (b :: c0 :: x :: y :: rest) len COAP_VERSION t k code mid
  = Ret (COAP_OK,
         (64 + 16 * t + k) :: code :: mid / 256 :: mid mod 256 :: rest,
         COAP_HDR_BYTES).
Proof.
  intros Hb Hlow Ht Hk Hcode Hmid.
  destruct (coap_codes_bytes code Hcode) as [Hcr Hcv].
  unfold coapSetPacketHeader.
  unfold coapSetVersion, COAP_VERSION. rewrite (s8_small 1) by lia.
  unfold coapVersionIsValid, COAP_VERSION. cbn [Z.eqb Pos.eqb negb].
  rewrite rd_head. cbn [bind]. rewrite wr_head. cbn [bind].
  change (u8 COAP_OK <? 0) with false. cbv iota.
  unfold coapSetType. rewrite (s8_small t) by lia.
  unfold coapTypeIsValid. rewrite Z.gtb_ltb.
  destruct (Z.ltb_spec 3 t); [lia |]. destruct (Z.ltb_spec t 0); [lia |].
  cbn [orb negb]. rewrite rd_head. cbn [bind]. rewrite wr_head. cbn [bind].
  change (u8 COAP_OK <? 0) with false. cbv iota.
  unfold coapSetTokenLength. rewrite (s8_small k) by lia.
  unfold coapTokenLengthIsValid. rewrite Z.geb_leb.
  destruct (Z.leb_spec 9 k); [lia |]. cbn [negb].
  rewrite rd_head. cbn [bind]. rewrite wr_head. cbn [bind].
  change (u8 COAP_OK <? 0) with false. cbv iota.
  rewrite header_byte_0 by assumption.
  unfold coapSetCode. rewrite (s16_small code) by lia. rewrite Hcv.
  cbn [negb]. rewrite wr_second. cbn [bind].
  change (u8 COAP_OK <? 0) with false. cbv iota.
  unfold coapSetMessageId. rewrite wr_third. cbn [bind]. rewrite wr_fourth.
  cbn [bind].
  rewrite (u8_small code) by lia.
  rewrite Z.shiftr_div_pow2 by lia. change (2 ^ 8) with 256.
  change 255 with (Z.ones 8). rewrite Z.land_ones by lia. change (2 ^ 8) with 256.
  assert (0 <= mid / 256 < 256).
  { split; [apply Z.div_pos; lia | apply Z.div_lt_upper_bound; lia]. }
  pose proof (Z.mod_pos_bound mid 256 ltac:(lia)).
  rewrite !u8_small by lia. reflexivity.
Qed.

(** X7: the header round trip.  On a buffer whose first byte has a zero low
    nibble, coapSetPacketHeader with version 1, a type 0..3, a token length
    0..8, an enumerator of CoapCode and a 16-bit message id returns COAP_OK
    with a length counter of 4 and writes the four bytes [64 + 16 * type +
    tkl; code; id / 256; id mod 256].  The accessors read version, type and
    token length back; coapGetCode reads the code back when it is below 0x80
    and COAP_UNKNOWN_CODE otherwise; coapGetMessageId reads the id back as an
    int16_t. *)
Theorem header_round_trip (b c0 x y : Z) (rest : list Z)
    (len t k code mid : Z) :
  0 <= b < 256 -> b mod 16 = 0 -> 0 <= t <= 3 -> 0 <= k <= 8 ->
  In code coap_codes -> 0 <= mid < 65536 ->
  exists m,
    coapSetPacketHeader (b :: c0 :: x :: y :: rest) len COAP_VERSION t k
      code mid
    = Ret (COAP_OK, m, COAP_HDR_BYTES)
    /\ m = (64 + 16 * t + k) :: code :: mid / 256 :: mid mod 256 :: rest
    /\ coapGetVersion m COAP_HDR_BYTES = Ret COAP_VERSION
    /\ coapGetType m COAP_HDR_BYTES = Ret t
    /\ coapGetTokenLength m COAP_HDR_BYTES = Ret k
    /\ coapGetCode m COAP_HDR_BYTES
       = Ret (if code <? 0x80 then code else COAP_UNKNOWN_CODE)
    /\ coapGetMessageId m COAP_HDR_BYTES = Ret (s16 mid).
Proof.
  intros Hb Hlow Ht Hk Hcode Hmid.
  destruct (coap_codes_bytes code Hcode) as [Hcr Hcv].
  eexists. split; [apply coapSetPacketHeader_writes; assumption |].
  split; [reflexivity |].
  set (m := (64 + 16 * t + k) :: code :: mid / 256 :: mid mod 256 :: rest).
  assert (Hb0 : 0 <= 64 + 16 * t + k < 256) by lia.
  destruct (byte0_fields m COAP_HDR_BYTES (64 + 16 * t + k))
    as (Hv & Hty & Htl); [lia | reflexivity | lia |].
  assert (Hq : (64 + 16 * t + k) / 64 = 1).
  { symmetry. apply (Z.div_unique _ 64 1 (16 * t + k)); lia. }
  assert (Hq2 : ((64 + 16 * t + k) / 16) mod 4 = t).
  { replace (64 + 16 * t + k) with (k + (4 + t) * 16) by lia.
    rewrite Z.div_add by lia. rewrite (Z.div_small k 16) by lia.
    replace (0 + (4 + t)) with (t + 1 * 4) by lia.
    rewrite Z.mod_add by lia. apply Z.mod_small. lia. }
  assert (Hq3 : (64 + 16 * t + k) mod 16 = k).
  { replace (64 + 16 * t + k) with (k + (4 + t) * 16) by lia.
    rewrite Z.mod_add by lia. apply Z.mod_small. lia. }
  rewrite Hq in Hv. rewrite Hq2 in Hty. rewrite Hq3 in Htl.
  split; [exact Hv |]. split; [exact Hty |].
  split.
  { rewrite Htl. destruct (Z.leb_spec k 8); [reflexivity | lia]. }
  split.
  - rewrite (get_code_value m COAP_HDR_BYTES code);
      [| lia | reflexivity | exact Hcr].
    rewrite Hcv, andb_true_r. reflexivity.
  - assert (0 <= mid / 256 < 256).
    { split; [apply Z.div_pos; lia | apply Z.div_lt_upper_bound; lia]. }
    pose proof (Z.mod_pos_bound mid 256 ltac:(lia)).
    rewrite (get_message_id_value m COAP_HDR_BYTES (mid / 256) (mid mod 256));
      [| lia | reflexivity | reflexivity | lia | lia]. do 2 f_equal. pose proof (Z.div_mod mid 256 ltac:(lia)). lia.
Qed.

Lemma header_round_trip_witness :
  exists m,
    coapSetPacketHeader (0 :: 0 :: 0 :: 0 :: zeros 8) 0 COAP_VERSION 1 2
      0x45 0x9234
    = Ret (COAP_OK, m, COAP_HDR_BYTES)
    /\ m = (64 + 16 * 1 + 2) :: 0x45 :: 0x9234 / 256 :: 0x9234 mod 256
           :: zeros 8
    /\ coapGetVersion m COAP_HDR_BYTES = Ret COAP_VERSION
    /\ coapGetType m COAP_HDR_BYTES = Ret 1
    /\ coapGetTokenLength m COAP_HDR_BYTES = Ret 2
    /\ coapGetCode m COAP_HDR_BYTES
       = Ret (if 0x45 <? 0x80 then 0x45 else COAP_UNKNOWN_CODE)
    /\ coapGetMessageId m COAP_HDR_BYTES = Ret (s16 0x9234).
Proof.
  apply (header_round_trip 0 0 0 0 (zeros 8) 0 1 2 0x45 0x9234);
    [lia | reflexivity | lia | lia | cbn; tauto | lia].
Defined.

(** ** Errors that coapSetPacketHeader drops *)

Lemma wr_inside (m : list Z) (p v : Z) :
  0 <= p < len_of m ->
  exists m', wr m p v = Ret m' /\ len_of m' = len_of m.
Proof.
  intros Hp. unfold wr, len_of in *.
  destruct (Z.leb_spec 0 p); [| lia].
  destruct (Z.ltb_spec p (Z.of_nat (length m))); [| lia].
  eexists. split; [reflexivity |]. rewrite length_insert. reflexivity.
Qed.

Lemma rd_wr_other (m m' : list Z) (p q v : Z) :
  wr m p v = Ret m' -> q <> p -> rd m' q = rd m q.
Proof.
  unfold wr, rd. destruct ((0 <=? p) && (p <? Z.of_nat (length m))) eqn:E;
    [| discriminate].
  intros [= <-] Hne. destruct (Z.ltb_spec q 0); [reflexivity |].
  apply andb_prop in E as [E1 E2]. apply Z.leb_le in E1.
  rewrite list_lookup_insert_ne by lia. reflexivity.
Qed.

Lemma header_setters_total (m : list Z)
    (len version type tokenLength code messageId : Z) :
  COAP_HDR_BYTES <= len_of m ->
  exists m',
    coapSetPacketHeader m len version type tokenLength code messageId
    = Ret (COAP_OK, m', COAP_HDR_BYTES)
    /\ len_of m' = len_of m.
Proof.
  intros Hm. unfold COAP_HDR_BYTES in Hm.
  assert (Hstep : forall (f : res set_result) (k : set_result -> res set_result) (n : Z),
            (exists r m1 l1, f = Ret (r, m1, l1) /\ len_of m1 = n) ->
            (forall r m1 l1, len_of m1 = n ->
               exists m', k (r, m1, l1) = Ret (COAP_OK, m', COAP_HDR_BYTES)
                          /\ len_of m' = n) ->
            exists m', bind f k = Ret (COAP_OK, m', COAP_HDR_BYTES)
                       /\ len_of m' = n).
  { intros f k n (r & m1 & l1 & -> & Hl) Hk. cbn [bind]. apply Hk. exact Hl. }
  assert (Hu : forall r, (u8 r <? 0) = false).
  { intros r. pose proof (u8_nonneg r). destruct (Z.ltb_spec (u8 r) 0); [lia | reflexivity]. }
  unfold coapSetPacketHeader.
  apply Hstep.
  { unfold coapSetVersion. destruct (negb _); [eauto 6 |].
    destruct (rd_inside m 0) as [b0 Hb0]; [lia |]. rewrite Hb0. cbn [bind].
    destruct (wr_inside m 0 (u8 (Z.lor (Z.shiftl version 6) (Z.land b0 63))))
      as (m1 & -> & Hl); [lia |]. cbn [bind]. eauto 6. }
  intros r1 m1 l1 Hl1. rewrite Hu. apply Hstep.
  { unfold coapSetType. destruct (negb _); [eauto 6 |].
    destruct (rd_inside m1 0) as [b0 Hb0]; [lia |]. rewrite Hb0. cbn [bind].
    destruct (wr_inside m1 0 (u8 (Z.lor (Z.shiftl type 4) (Z.land b0 207))))
      as (m2 & -> & Hl); [lia |]. cbn [bind]. exists COAP_OK, m2, 1.
    split; [reflexivity | lia]. }
  intros r2 m2 l2 Hl2. rewrite Hu. apply Hstep.
  { unfold coapSetTokenLength. destruct (negb _); [eauto 6 |].
    destruct (rd_inside m2 0) as [b0 Hb0]; [lia |]. rewrite Hb0. cbn [bind].
    destruct (wr_inside m2 0 (u8 (Z.lor (Z.land tokenLength 15) b0)))
      as (m3 & -> & Hl); [lia |]. cbn [bind]. exists COAP_OK, m3, 1.
    split; [reflexivity | lia]. }
  intros r3 m3 l3 Hl3. rewrite Hu. apply Hstep.
  { unfold coapSetCode. destruct (negb _); [eauto 6 |].
    destruct (wr_inside m3 1 (u8 code)) as (m4 & -> & Hl); [lia |].
    cbn [bind]. exists COAP_OK, m4, 2. split; [reflexivity | lia]. }
  intros r4 m4 l4 Hl4. rewrite Hu.
  unfold coapSetMessageId.
  destruct (wr_inside m4 2 (u8 (Z.shiftr messageId 8))) as (m5 & -> & Hl5);
    [lia |]. cbn [bind].
  destruct (wr_inside m5 3 (u8 (Z.land messageId 255))) as (m6 & -> & Hl6);
    [lia |]. cbn [bind].
  exists m6. split; [reflexivity | lia].
Qed.

(** X8: coapSetPacketHeader keeps the results of the setters in a uint8_t, so
    its tests [results < 0] never hold: on every array of at least four bytes
    it returns COAP_OK with a length counter of 4 for any version, type, token
    length and code.  When version, type and token length are all refused by
    their setters, byte 0 is left as it was. *)
Theorem coapSetPacketHeader_always_ok (m : list Z)
    (len version type tokenLength code messageId : Z) :
  COAP_HDR_BYTES <= len_of m ->
  exists m',
    coapSetPacketHeader m len version type tokenLength code messageId
    = Ret (COAP_OK, m', COAP_HDR_BYTES)
    /\ len_of m' = len_of m
    /\ (coapVersionIsValid (s8 version) = false ->
        coapTypeIsValid (s8 type) = false ->
        coapTokenLengthIsValid (s8 tokenLength) = false ->
        rd m' 0 = rd m 0).
Proof.
  intros Hm.
  destruct (header_setters_total m len version type tokenLength code messageId Hm)
    as (m' & Hset & Hlen).
  exists m'. split; [exact Hset |]. split; [exact Hlen |].
  intros Hv Ht Hk.
  unfold coapSetPacketHeader, coapSetVersion, coapSetType, coapSetTokenLength
    in Hset.
  rewrite Hv in Hset. cbn [negb bind] in Hset.
  change (u8 COAP_INVALID_VERSION <? 0) with false in Hset. cbv iota in Hset.
  rewrite Ht in Hset. cbn [negb bind] in Hset.
  change (u8 COAP_INVALID_TYPE <? 0) with false in Hset. cbv iota in Hset.
  rewrite Hk in Hset. cbn [negb bind] in Hset.
  change (u8 COAP_INVALID_TOKEN_LENGTH <? 0) with false in Hset.
  cbv iota in Hset.
  assert (Hcode : exists r m4 l4, coapSetCode m len code = Ret (r, m4, l4)
                                  /\ rd m4 0 = rd m 0).
  { unfold coapSetCode. destruct (negb _); [eauto 6 |].
    destruct (wr m 1 (u8 code)) as [m4 | |] eqn:E; cbn [bind].
    - exists COAP_OK, m4, 2. split; [reflexivity |].
      apply (rd_wr_other m m4 1 0 _ E). lia.
    - unfold coapSetCode in Hset. destruct (negb _) in Hset;
        [| rewrite E in Hset; discriminate].
      exfalso. clear -E Hm. unfold wr, len_of, COAP_HDR_BYTES in *.
      destruct (Z.ltb_spec 1 (Z.of_nat (length m))); [discriminate | lia].
    - exfalso. unfold wr in E. destruct (_ && _) in E; discriminate. }
  destruct Hcode as (r & m4 & l4 & Hc & Hr4). rewrite Hc in Hset.
  cbn [bind] in Hset.
  assert (Hu : (u8 r <? 0) = false).
  { pose proof (u8_nonneg r). destruct (Z.ltb_spec (u8 r) 0); [lia | reflexivity]. }
  rewrite Hu in Hset. unfold coapSetMessageId in Hset.
  destruct (wr m4 2 _) as [m5 | |] eqn:E5; cbn [bind] in Hset; try discriminate.
  destruct (wr m5 3 _) as [m6 | |] eqn:E6; cbn [bind] in Hset; try discriminate.
  injection Hset as <-.
  rewrite (rd_wr_other m5 m6 3 0 _ E6) by lia.
  rewrite (rd_wr_other m4 m5 2 0 _ E5) by lia.
  exact Hr4.
Qed.

Lemma coapSetPacketHeader_always_ok_witness :
  exists m',
    coapSetPacketHeader (zeros 4) 0 3 7 15 0xFF 0
    = Ret (COAP_OK, m', COAP_HDR_BYTES)
    /\ len_of m' = len_of (zeros 4)
    /\ (coapVersionIsValid (s8 3) = false ->
        coapTypeIsValid (s8 7) = false ->
        coapTokenLengthIsValid (s8 15) = false ->
        rd m' 0 = rd (zeros 4) 0).
Proof.
  apply (coapSetPacketHeader_always_ok (zeros 4) 0 3 7 15 0xFF 0).
  vm_compute; discriminate.
Defined.

(** ** Block copies *)

Lemma wr_app_0 (pre l : list Z) (x v : Z) :
  wr (pre ++ x :: l) (len_of pre) v = Ret (pre ++ v :: l).
Proof.
  unfold wr, len_of. rewrite length_app. cbn [length].
  destruct (Z.leb_spec 0 (Z.of_nat (length pre))); [| lia].
  destruct (Z.ltb_spec (Z.of_nat (length pre))
              (Z.of_nat (length pre + S (length l)))); [| lia].
  cbn [andb]. rewrite Nat2Z.id.
  rewrite insert_app_r_alt by lia. rewrite Nat.sub_diag. reflexivity.
Qed.

Lemma wr_outside (m : list Z) (p v : Z) : len_of m <= p -> wr m p v = Undef.
Proof.
  intros H. unfold wr, len_of in *.
  destruct (Z.ltb_spec p (Z.of_nat (length m))); [lia |].
  rewrite andb_false_r. reflexivity.
Qed.

Lemma snoc_app (pre l : list Z) (x : Z) : pre ++ x :: l = (pre ++ [x]) ++ l.
Proof. rewrite <- app_assoc. reflexivity. Qed.

Lemma len_of_snoc (pre : list Z) (x : Z) : len_of (pre ++ [x]) = len_of pre + 1.
Proof. rewrite len_of_app. reflexivity. Qed.

Lemma memcpy_from_app (src : list Z) :
  forall (pre old rest more : list Z),
  length old = length src ->
  memcpy_from (pre ++ old ++ rest) (len_of pre) (src ++ more) (length src)
  = Ret (pre ++ src ++ rest).
Proof.
  induction src as [| b src IH]; intros pre old rest more Hl.
  - destruct old; [destruct more; reflexivity | discriminate].
  - destruct old as [| o old]; [discriminate |].
    cbn [length memcpy_from app]. rewrite wr_app_0. cbn [bind].
    rewrite (snoc_app pre (src ++ rest)), (snoc_app pre (old ++ rest)).
    rewrite <- (len_of_snoc pre b). apply IH. cbn [length] in Hl. lia.
Qed.

Lemma memcpy_app (pre old rest src more : list Z) :
  length old = length src ->
  memcpy (pre ++ old ++ rest) (len_of pre) (src ++ more) (len_of src)
  = Ret (pre ++ src ++ rest).
Proof.
  intros H. unfold memcpy, len_of at 2. rewrite Nat2Z.id.
  apply memcpy_from_app. exact H.
Qed.

Lemma rd_range_app (l : list Z) :
  forall (pre rest : list Z),
  rd_range (pre ++ l ++ rest) (len_of pre) (length l) = Ret l.
Proof.
  induction l as [| b l IH]; intros pre rest; [reflexivity |].
  cbn [length rd_range app]. rewrite rd_app_0, rd_head. cbn [bind].
  rewrite (snoc_app pre (l ++ rest)), <- (len_of_snoc pre b), IH. reflexivity.
Qed.

(** ** The token *)

Lemma token_written (b0 c i1 i2 : Z) (old tok more rest : list Z) (len : Z) :
  len_of tok <= 8 -> length old = length tok ->
  coapSetToken ([b0; c; i1; i2] ++ old ++ rest) len (tok ++ more) (len_of tok)
  = Ret (COAP_OK, [b0; c; i1; i2] ++ tok ++ rest, COAP_HDR_BYTES + len_of tok).
Proof.
  intros Hk Hl. pose proof (len_of_nonneg tok) as Hn.
  unfold coapSetToken. rewrite s8_small by lia.
  unfold coapTokenLengthIsValid.
  destruct (Z.geb_spec (len_of tok) 9); [lia |]. cbn [negb].
  change COAP_HDR_BYTES with (len_of [b0; c; i1; i2]) at 1.
  rewrite memcpy_app by exact Hl. cbn [bind].
  rewrite u16_small by (unfold COAP_HDR_BYTES; lia). reflexivity.
Qed.

Lemma token_read (b0 c i1 i2 : Z) (tok rest : list Z) :
  0 <= b0 < 256 -> b0 mod 16 = len_of tok -> len_of tok <= 8 ->
  coapGetToken ([b0; c; i1; i2] ++ tok ++ rest) (COAP_HDR_BYTES + len_of tok)
  = Ret (COAP_OK, if len_of tok =? 0 then None else Some tok).
Proof.
  intros Hb Hm Hk. pose proof (len_of_nonneg tok) as Hn.
  unfold coapGetToken.
  destruct (Z.ltb_spec (COAP_HDR_BYTES + len_of tok) COAP_HDR_BYTES); [lia |].
  rewrite (coapGetTokenLength_spec _ _ b0) by
    (try reflexivity; unfold COAP_HDR_BYTES; lia).
  rewrite Hm. destruct (Z.ltb_spec (len_of tok) 9); [| lia]. cbn [bind].
  destruct (Z.ltb_spec (len_of tok) 0); [lia |].
  destruct (Z.gtb_spec (COAP_HDR_BYTES + len_of tok) (COAP_HDR_BYTES + len_of tok));
    [lia |].
  destruct (Z.gtb_spec (len_of tok) 0), (Z.eqb_spec (len_of tok) 0); try lia;
    [| reflexivity].
  unfold len_of at 1. rewrite Nat2Z.id.
  change COAP_HDR_BYTES with (len_of [b0; c; i1; i2]).
  rewrite rd_range_app. reflexivity.
Qed.

(** X9: the token round trip.  coapSetToken with a token of at most 8 bytes
    copies it behind the four header bytes and sets the length counter to 4 +
    its length; when the low nibble of byte 0 holds that length, coapGetToken
    copies the same bytes out (and copies nothing for the empty token). *)
Theorem token_round_trip (b0 c i1 i2 : Z) (old tok more rest : list Z) (len : Z) :
  0 <= b0 < 256 -> b0 mod 16 = len_of tok -> len_of tok <= 8 ->
  length old = length tok ->
  coapSetToken ([b0; c; i1; i2] ++ old ++ rest) len (tok ++ more) (len_of tok)
  = Ret (COAP_OK, [b0; c; i1; i2] ++ tok ++ rest, COAP_HDR_BYTES + len_of tok)
  /\ coapGetToken ([b0; c; i1; i2] ++ tok ++ rest) (COAP_HDR_BYTES + len_of tok)
     = Ret (COAP_OK, if len_of tok =? 0 then None else Some tok).
Proof.
  intros Hb Hm Hk Hl.
  split; [apply token_written; assumption | apply token_read; assumption].
Qed.

Lemma token_round_trip_witness :
  coapSetToken ([0x42; 1; 0x12; 0x34] ++ [0; 0] ++ [0; 0]) 4
    ([0xAA; 0xBB] ++ [0xCC]) (len_of [0xAA; 0xBB])
  = Ret (COAP_OK, [0x42; 1; 0x12; 0x34] ++ [0xAA; 0xBB] ++ [0; 0],
         COAP_HDR_BYTES + len_of [0xAA; 0xBB])
  /\ coapGetToken ([0x42; 1; 0x12; 0x34] ++ [0xAA; 0xBB] ++ [0; 0])
       (COAP_HDR_BYTES + len_of [0xAA; 0xBB])
     = Ret (COAP_OK,
            if len_of [0xAA; 0xBB] =? 0 then None else Some [0xAA; 0xBB]).
Proof.
  apply (token_round_trip 0x42 1 0x12 0x34 [0; 0] [0xAA; 0xBB] [0xCC] [0; 0] 4);
    [lia | reflexivity | vm_compute; discriminate | reflexivity].
Defined.

(** X10: coapGetToken on a buffer of at least four bytes: a length nibble
    above 8 gives COAP_INVALID_TOKEN_LENGTH, and a token that does not fit in
    the claimed length gives COAP_INSUFFICIENT_BUFFER; nothing is copied in
    either case. *)
Theorem coapGetToken_errors (m : list Z) (len b0 : Z) :
  COAP_HDR_BYTES <= len -> rd m 0 = Ret b0 -> 0 <= b0 < 256 ->
  (8 < b0 mod 16 -> coapGetToken m len = Ret (COAP_INVALID_TOKEN_LENGTH, None))
  /\ (b0 mod 16 <= 8 -> len < COAP_HDR_BYTES + b0 mod 16 ->
      coapGetToken m len = Ret (COAP_INSUFFICIENT_BUFFER, None)).
Proof.
  intros Hlen Hrd Hb. unfold coapGetToken.
  destruct (Z.ltb_spec len COAP_HDR_BYTES); [lia |].
  rewrite (coapGetTokenLength_spec m len b0 Hlen Hrd Hb).
  split.
  - intros H8. destruct (Z.ltb_spec (b0 mod 16) 9); [lia |]. reflexivity.
  - intros H8 Hshort. destruct (Z.ltb_spec (b0 mod 16) 9); [| lia].
    cbn [bind]. pose proof (Z.mod_pos_bound b0 16 ltac:(lia)).
    destruct (Z.ltb_spec (b0 mod 16) 0); [lia |].
    destruct (Z.gtb_spec (COAP_HDR_BYTES + b0 mod 16) len); [reflexivity | lia].
Qed.

Lemma coapGetToken_errors_witness :
  (8 < 0x44 mod 16 ->
   coapGetToken [0x44; 1; 0; 0; 7; 7] 6 = Ret (COAP_INVALID_TOKEN_LENGTH, None))
  /\ (0x44 mod 16 <= 8 -> 6 < COAP_HDR_BYTES + 0x44 mod 16 ->
      coapGetToken [0x44; 1; 0; 0; 7; 7] 6 = Ret (COAP_INSUFFICIENT_BUFFER, None)).
Proof.
  apply (coapGetToken_errors [0x44; 1; 0; 0; 7; 7] 6 0x44);
    [vm_compute; discriminate | reflexivity | lia].
Defined.

(** ** The option inserter on option regions without a delta escape *)

Lemma lor_shiftl_4 (d l : Z) :
  0 <= d -> 0 <= l < 16 -> Z.lor (Z.shiftl d 4) l = d * 16 + l.
Proof.
  intros Hd Hl.
  assert (Hland : Z.land (Z.shiftl d 4) l = 0).
  { apply Z.bits_inj'. intros n Hn.
    rewrite Z.land_spec, Z.bits_0.
    destruct (Z.lt_ge_cases n 4) as [Hlt | Hge].
    - rewrite Z.shiftl_spec_low by lia. reflexivity.
    - destruct (Z.eq_dec l 0) as [-> | Hne].
      + rewrite Z.bits_0. apply andb_false_r.
      + rewrite (Z.bits_above_log2 l n); [apply andb_false_r | lia |].
        apply Z.log2_lt_pow2; [lia |].
        apply Z.lt_le_trans with (2 ^ 4); [simpl; lia |].
        apply Z.pow_le_mono_r; lia. }
  pose proof (Z.add_lor_land (Z.shiftl d 4) l) as Hadd.
  rewrite Hland, Z.add_0_r in Hadd.
  rewrite Hadd, Z.shiftl_mul_pow2 by lia. reflexivity.
Qed.

Lemma option_header_byte (d l : Z) :
  0 <= d <= 12 -> 0 <= l <= 13 ->
  u8 (Z.lor (Z.shiftl (Z.land d 0x0F) 4) l) = d * 16 + l.
Proof.
  intros Hd Hl. rewrite land_15_mod, Z.mod_small by lia.
  rewrite lor_shiftl_4 by lia. apply u8_small. lia.
Qed.

Lemma wire_options_app (os : list (Z * list Z)) (o : Z * list Z) :
  wire_options (os ++ [o]) = wire_options os ++ wire_option o.
Proof.
  unfold wire_options. rewrite flat_map_app. cbn [flat_map].
  rewrite app_nil_r. reflexivity.
Qed.

Lemma last_number_app (os : list (Z * list Z)) (o : Z * list Z) :
  last_number (os ++ [o]) = last_number os + fst o.
Proof.
  induction os as [| x os IH]; [cbn; lia |].
  cbn [app]. rewrite !last_number_cons, IH. lia.
Qed.

(** The header length for a number that is not below the previous one by
    int8_t arithmetic. *)
Lemma header_length_value (number optionLength previous : Z) :
  coapOptionIsValid number = true ->
  0 <= number - previous <= 127 -> 0 <= optionLength < 269 ->
  coapBuildOptionHeaderLength number optionLength previous
  = 1 + (if number - previous <? 13 then 0 else 1)
      + (if optionLength <? 13 then 0 else 1).
Proof.
  intros Hv Hd Hl. unfold coapBuildOptionHeaderLength.
  rewrite Hv. cbn [negb]. rewrite s8_small by lia.
  destruct (Z.ltb_spec (number - previous) 0); [lia |].
  destruct (Z.ltb_spec (number - previous) 13).
  - destruct (Z.ltb_spec optionLength 13); [reflexivity |].
    destruct (Z.geb_spec optionLength 13); [| lia].
    destruct (Z.ltb_spec optionLength 269); [| lia]. reflexivity.
  - destruct (Z.geb_spec (number - previous) 13); [| lia].
    destruct (Z.ltb_spec (number - previous) 269); [| lia]. cbn [andb].
    destruct (Z.ltb_spec optionLength 13); [reflexivity |].
    destruct (Z.geb_spec optionLength 13); [| lia].
    destruct (Z.ltb_spec optionLength 269); [| lia]. reflexivity.
Qed.

Lemma build_header_short (m pre rest : list Z) (x len number previous L hl tl : Z) :
  COAP_HDR_BYTES <= len ->
  coapOptionIsValid number = true -> coapOptionIsValid previous = true ->
  coapGetTokenLength m len = Ret tl -> 0 <= tl <= 8 ->
  0 <= number - previous <= 12 -> 0 <= L < 13 -> 0 <= hl <= 3 ->
  m = pre ++ x :: rest ->
  coapBuildOptionHeader m len number previous L hl (len_of pre)
  = Ret (s8 (len_of pre + 1),
         pre ++ ((number - previous) * 16 + L) :: rest, len_of pre + 1).
Proof.
  intros Hlen Hv Hp Htl Htr Hd HL Hhl Hm.
  unfold coapBuildOptionHeader.
  destruct (Z.ltb_spec len COAP_HDR_BYTES); [lia |].
  rewrite Hv, Hp. cbn [negb orb]. rewrite Htl. cbn [bind].
  destruct (Z.ltb_spec tl 0); [lia |].
  unfold COAP_HDR_BYTES, MAX_BUFFER_SIZE.
  destruct (Z.gtb_spec (4 + tl + L + hl) 1460); [lia |].
  rewrite (u8_small (number - previous)) by lia.
  destruct (Z.ltb_spec (number - previous) 0); [lia |].
  destruct (Z.ltb_spec (number - previous) 13); [| lia].
  destruct (Z.geb_spec (number - previous) 13); [lia |]. cbn [andb].
  destruct (Z.geb_spec (number - previous) 269); [lia |]. cbn [bind].
  destruct (Z.geb_spec L 13); [lia |]. cbn [andb].
  destruct (Z.geb_spec L 269); [lia |]. cbn [bind].
  rewrite option_header_byte by lia.
  rewrite Hm, wr_app_0. reflexivity.
Qed.

Lemma build_header_long (m pre rest : list Z) (x y len number previous L hl tl : Z) :
  COAP_HDR_BYTES <= len ->
  coapOptionIsValid number = true -> coapOptionIsValid previous = true ->
  coapGetTokenLength m len = Ret tl -> 0 <= tl <= 8 ->
  0 <= number - previous <= 12 -> 13 <= L <= 255 -> 0 <= hl <= 3 ->
  m = pre ++ x :: y :: rest ->
  coapBuildOptionHeader m len number previous L hl (len_of pre)
  = Ret (s8 (len_of pre + 2),
         pre ++ ((number - previous) * 16 + 13) :: (L - 13) :: rest,
         len_of pre + 2).
Proof.
  intros Hlen Hv Hp Htl Htr Hd HL Hhl Hm.
  unfold coapBuildOptionHeader.
  destruct (Z.ltb_spec len COAP_HDR_BYTES); [lia |].
  rewrite Hv, Hp. cbn [negb orb]. rewrite Htl. cbn [bind].
  destruct (Z.ltb_spec tl 0); [lia |].
  unfold COAP_HDR_BYTES, MAX_BUFFER_SIZE.
  destruct (Z.gtb_spec (4 + tl + L + hl) 1460); [lia |].
  rewrite (u8_small (number - previous)) by lia.
  destruct (Z.ltb_spec (number - previous) 0); [lia |].
  destruct (Z.ltb_spec (number - previous) 13); [| lia].
  destruct (Z.geb_spec (number - previous) 13); [lia |]. cbn [andb].
  destruct (Z.geb_spec (number - previous) 269); [lia |]. cbn [bind].
  destruct (Z.geb_spec L 13); [| lia].
  destruct (Z.ltb_spec L 269); [| lia]. cbn [andb].
  rewrite (u8_small (L - 13)) by lia.
  rewrite Hm. rewrite (snoc_app pre (y :: rest) x).
  rewrite <- (len_of_snoc pre x), wr_app_0. cbn [bind].
  rewrite <- (snoc_app pre (_ :: rest) x), wr_app_0. cbn [bind].
  rewrite option_header_byte by lia.
  rewrite len_of_snoc.
  replace (len_of pre + 1 + 1) with (len_of pre + 2) by lia. reflexivity.
Qed.

Lemma plain_buffer_split (b0 c i1 i2 : Z) (token : list Z)
    (os : list (Z * list Z)) (rest : list Z) :
  plain_buffer b0 c i1 i2 token os rest
  = (([b0; c; i1; i2] ++ token) ++ wire_options os) ++ rest
  /\ len_of (([b0; c; i1; i2] ++ token) ++ wire_options os)
     = plain_length token os.
Proof.
  split.
  - unfold plain_buffer. rewrite <- !app_assoc. reflexivity.
  - unfold plain_length. rewrite !len_of_app. reflexivity.
Qed.

Lemma plain_buffer_snoc (b0 c i1 i2 : Z) (token : list Z)
    (os : list (Z * list Z)) (o : Z * list Z) (rest : list Z) :
  plain_buffer b0 c i1 i2 token (os ++ [o]) rest
  = plain_buffer b0 c i1 i2 token os (wire_option o ++ rest)
  /\ plain_length token (os ++ [o])
     = plain_length token os + len_of (wire_option o).
Proof.
  unfold plain_buffer, plain_length.
  rewrite wire_options_app, len_of_app, <- !app_assoc. split; [reflexivity | lia].
Qed.

(** coapAddOption appends the wire form of the option to an option region
    without delta escapes.  The new length counter goes through the int8_t
    return value of coapBuildOptionHeader. *)
Lemma add_option_general (b0 c i1 i2 : Z) (token : list Z)
    (os : list (Z * list Z)) (old rest : list Z)
    (number : Z) (value more : list Z) :
  0 <= b0 < 256 -> b0 mod 16 = len_of token -> len_of token <= 8 ->
  Forall option_ok os -> (length os <= 127)%nat ->
  (os <> [] -> last_number os <> 0) ->
  coapOptionIsValid (last_number os) = true ->
  coapOptionIsValid number = true ->
  0 <= number - last_number os <= 12 -> number <= 255 ->
  len_of value <= 255 ->
  length old = length (wire_option (number - last_number os, value)) ->
  coapAddOption (plain_buffer b0 c i1 i2 token os (old ++ rest))
    (plain_length token os) number (len_of value) (value ++ more)
    (Some (match os with [] => 0 | _ :: _ => plain_length token os end))
  = Ret {| add_ret := COAP_OK;
           add_buffer :=
             plain_buffer b0 c i1 i2 token
               (os ++ [(number - last_number os, value)]) rest;
           add_length :=
             u16 (u16 (s8 (plain_length token
                             (os ++ [(number - last_number os, value)])
                           - len_of value))
                  + len_of value);
           add_newPointer :=
             Some (plain_length token
                     (os ++ [(number - last_number os, value)])) |}.
Proof.
  intros Hb0 Htkl Htoken Hos Hcount Hlast0 Hpv Hvalid Hd Hnum Hval Hold.
  match goal with |- context [Some (match os with [] => _ | _ => _ end)] =>
    set (tail := match os with [] => 0 | _ :: _ => plain_length token os end)
  end.
  assert (Htail : (os = [] /\ tail = 0)
                  \/ (os <> [] /\ tail = plain_length token os)).
  { unfold tail. clear. destruct os; [left | right]; split;
      try reflexivity; discriminate. }
  clearbody tail.
  set (d := number - last_number os) in *.
  set (o := (d, value)) in *.
  assert (Hdd : d = number - last_number os) by reflexivity.
  pose proof (len_of_nonneg token) as H1.
  pose proof (len_of_nonneg (wire_options os)) as H2.
  pose proof (len_of_nonneg value) as H3.
  pose proof (wire_options_bound os Hos) as H4.
  pose proof (last_number_nonneg os Hos) as H5.
  pose proof (wire_option_length o) as Hwl. cbn [snd o] in Hwl.
  destruct (plain_buffer_snoc b0 c i1 i2 token os o rest) as [Hbuf Hpl].
  rewrite Hpl in *.
  assert (Hpl0 : plain_length token os
                 = 4 + len_of token + len_of (wire_options os))
    by reflexivity.
  assert (Hlen : plain_length token os < 65536) by lia.
  assert (Hn : Z.of_nat (length os) <= 127) by lia.
  assert (Hrest : old ++ rest <> []).
  { destruct old; [| discriminate]. exfalso.
    unfold wire_option in Hold. destruct (_ <? _) in Hold; discriminate. }
  set (m := plain_buffer b0 c i1 i2 token os (old ++ rest)).
  assert (Htl : coapGetTokenLength m (plain_length token os) = Ret (len_of token))
    by (apply plain_token_length; assumption).
  unfold coapAddOption.
  destruct (Z.ltb_spec (plain_length token os) COAP_HDR_BYTES) as [E | _];
    [unfold COAP_HDR_BYTES in E; lia |].
  fold m. rewrite Htl. cbn [bind].
  unfold m at 1. rewrite coapGetOptionCount_plain by assumption. cbn [bind].
  rewrite (u8_small (len_of token)) by lia.
  rewrite (s8_small (Z.of_nat (length os))) by lia.
  destruct (Z.ltb_spec (len_of token) 0); [lia |].
  destruct (Z.ltb_spec (Z.of_nat (length os)) 0); [lia |].
  rewrite Hvalid. cbn [negb].
  match goal with |- bind ?x _ = _ =>
    assert (Hprev : exists pv, x = Ret (pv, Some (plain_length token os))
                               /\ u8 pv = last_number os) end.
  { destruct Htail as [[Hnil Ht] | [Hne Ht]].
    - assert (Hc0 : Z.of_nat (length os) = 0) by (rewrite Hnil; reflexivity).
      assert (Hw0 : len_of (wire_options os) = 0) by (rewrite Hnil; reflexivity).
      assert (Hl0 : last_number os = 0) by (rewrite Hnil; reflexivity).
      rewrite Hc0, Ht. cbn [Z.gtb Z.compare].
      exists 0. split; [| rewrite Hl0; reflexivity].
      do 3 f_equal. unfold COAP_HDR_BYTES. lia.
    - assert (Hc0 : 0 < Z.of_nat (length os)).
      { destruct os; [contradiction | cbn [length]; lia]. }
      rewrite Z.gtb_ltb. destruct (Z.ltb_spec 0 (Z.of_nat (length os))); [| lia].
      rewrite (u8_small (Z.of_nat (length os))) by lia.
      destruct (coapGetOption_plain b0 c i1 i2 token os (old ++ rest))
        as (g & Hg & _ & Hgn); try assumption; [lia | lia |].
      fold m in Hg. rewrite Hg. cbn [bind]. rewrite Hgn.
      destruct (Z.eqb_spec (last_number os) 0) as [E | _].
      { exfalso. apply Hlast0; assumption. }
      exists (s8 (last_number os)). rewrite Ht. split; [reflexivity |].
      rewrite u8_s8. apply u8_small. lia. }
  destruct Hprev as (pv & -> & Hpvu). cbn [bind]. rewrite Hpvu.
  rewrite header_length_value by (assumption || lia). fold d.
  destruct (Z.ltb_spec d 13); [| lia].
  set (hl := 1 + 0 + (if len_of value <? 13 then 0 else 1)).
  assert (Hhl : 1 <= hl <= 2) by (unfold hl; destruct (len_of value <? 13); lia).
  rewrite (s8_small hl) by lia.
  destruct (Z.ltb_spec hl 0); [lia |].
  unfold MAX_BUFFER_SIZE at 1.
  destruct (Z.gtb_spec (COAP_HDR_BYTES + len_of token + len_of value + hl) 1460);
    [unfold COAP_HDR_BYTES in *; lia |].
  rewrite Z.eqb_refl. cbn [negb andb].
  rewrite (u8_small hl) by lia. clear Htail.
  destruct (plain_buffer_split b0 c i1 i2 token os (old ++ rest)) as [Hm Hpre].
  fold m in Hm.
  set (pre := ([b0; c; i1; i2] ++ token) ++ wire_options os) in *.
  pose proof Htl as Htl'. rewrite <- Hpre in Htl'.
  rewrite <- Hpre.
  assert (Hgoal : plain_buffer b0 c i1 i2 token (os ++ [o]) rest
                  = pre ++ wire_option o ++ rest).
  { rewrite Hbuf. apply plain_buffer_split. }
  rewrite Hgoal.
  assert (Hu16 : forall r, (u16 r <? 0) = false).
  { intros r. pose proof (Z.mod_pos_bound r 65536 ltac:(lia)). unfold u16.
    destruct (Z.ltb_spec (r mod 65536) 0); [lia | reflexivity]. }
  rewrite Hwl.
  unfold wire_option in Hold |- *. cbn [fst snd o] in Hold |- *.
  unfold hl in *. clear hl.
  destruct (Z.ltb_spec (len_of value) 13) as [Hs | Hl].
  - destruct old as [| x vold]; [discriminate |].
    cbn [length] in Hold.
    rewrite (build_header_short m pre (vold ++ rest) x (len_of pre)
               number (last_number os) (len_of value) (1 + 0 + 0) (len_of token));
      try assumption; try (unfold COAP_HDR_BYTES; lia).
    cbn [bind]. rewrite Hu16.
    fold d. rewrite (snoc_app pre (vold ++ rest)), <- (len_of_snoc pre (d * 16 + len_of value)).
    rewrite memcpy_app by lia. cbn [bind].
    rewrite len_of_snoc.
    rewrite <- app_assoc. cbn [app].
    replace (len_of pre + (1 + 0 + len_of value) - len_of value)
      with (len_of pre + 1) by lia.
    replace (len_of pre + (1 + 0 + len_of value))
      with (len_of pre + 1 + len_of value) by lia.
    reflexivity.
  - destruct old as [| x [| y vold]]; try discriminate.
    cbn [length] in Hold.
    rewrite (build_header_long m pre (vold ++ rest) x y (len_of pre)
               number (last_number os) (len_of value) (1 + 0 + 1) (len_of token));
      try assumption; try (unfold COAP_HDR_BYTES; lia).
    cbn [bind]. rewrite Hu16.
    fold d.
    assert (Hsplit : forall l, pre ++ (d * 16 + 13) :: (len_of value - 13) :: l
                     = (pre ++ [d * 16 + 13; len_of value - 13]) ++ l).
    { intros l. rewrite <- app_assoc. reflexivity. }
    assert (Hl2 : len_of (pre ++ [d * 16 + 13; len_of value - 13]) = len_of pre + 2).
    { rewrite len_of_app. reflexivity. }
    rewrite Hsplit, <- Hl2.
    rewrite memcpy_app by lia. cbn [bind].
    rewrite Hl2.
    rewrite <- app_assoc. cbn [app].
    replace (len_of pre + (1 + 1 + len_of value) - len_of value)
      with (len_of pre + 2) by lia.
    replace (len_of pre + (1 + 1 + len_of value))
      with (len_of pre + 2 + len_of value) by lia.
    reflexivity.
Qed.

(** ** Lookup of an option by its index *)

(** The loop of coapGetOption over the options [os] and one more option
    [o]: it is left with the length, the number and the value position of
    [o]. *)
Lemma getopt_loop_last (os : list (Z * list Z)) :
  forall (m pre rest : list Z) (newLength : Z) (g : getopt) (o : Z * list Z),
  Forall option_ok os -> option_ok o ->
  m = pre ++ wire_options os ++ wire_option o ++ rest ->
  newLength <> 0 ->
  go_pointer g = Some (len_of pre) ->
  0 <= go_optionNumber g < 256 ->
  getopt_loop (S (length os)) m newLength g
  = Ret (inr {| go_pointer :=
                  Some (len_of pre + len_of (wire_options os)
                        + len_of (wire_option o));
                go_newPointer :=
                  Some (len_of pre + len_of (wire_options os)
                        + len_of (wire_option o));
                go_optionData :=
                  Some (len_of pre + len_of (wire_options os)
                        + len_of (wire_option o) - len_of (snd o));
                go_optionLength := len_of (snd o);
                go_optionNumber :=
                  u8 (go_optionNumber g + last_number os + fst o) |}).
Proof.
  induction os as [| o1 os IH]; intros m pre rest newLength g o Hok Ho Hm Hlen Hp Hn.
  - cbn [length getopt_loop]. rewrite Hp.
    cbn [wire_options flat_map app] in Hm.
    destruct (option_byte_facts o Ho) as (Hb & _ & _).
    destruct (wire_option_head o) as [tl Htl].
    assert (Hbyte : rd m (len_of pre) = Ret (option_byte o)).
    { rewrite Hm, rd_app_0, Htl. apply rd_head. }
    rewrite Hbyte. cbn [bind]. unfold COAP_PAYLOAD_MARKER.
    destruct (Z.eqb_spec (option_byte o) 255) as [E | _]; [lia |].
    rewrite (coapDecodeOption_plain m pre rest o newLength (go_optionNumber g) Ho Hm Hlen).
    cbn [bind dec_ret dec_number dec_data dec_new].
    pose proof (len_of_nonneg (snd o)) as Hnn. destruct Ho as [Hd Hl].
    rewrite (u8_small (len_of (snd o))) by lia.
    destruct (Z.ltb_spec (len_of (snd o)) 0); [lia |].
    change (len_of (wire_options [])) with 0. change (last_number []) with 0.
    rewrite !Z.add_0_r. reflexivity.
  - apply Forall_cons in Hok as [Ho1 Hok].
    rewrite wire_options_cons in Hm |- *.
    change (length (o1 :: os)) with (S (length os)).
    remember (S (length os)) as n eqn:En.
    cbn [getopt_loop]. rewrite Hp.
    destruct (option_byte_facts o1 Ho1) as (Hb & _ & _).
    destruct (wire_option_head o1) as [tl Htl].
    assert (Hbyte : rd m (len_of pre) = Ret (option_byte o1)).
    { rewrite Hm, rd_app_0, <- app_assoc, Htl. apply rd_head. }
    rewrite Hbyte. cbn [bind]. unfold COAP_PAYLOAD_MARKER.
    destruct (Z.eqb_spec (option_byte o1) 255) as [E | _]; [lia |].
    rewrite (coapDecodeOption_plain m pre (wire_options os ++ wire_option o ++ rest)
               o1 newLength (go_optionNumber g) Ho1);
      [| rewrite Hm, <- app_assoc; reflexivity | exact Hlen].
    cbn [bind dec_ret dec_number dec_data dec_new].
    pose proof (len_of_nonneg (snd o1)) as Hnn. destruct Ho1 as [Hd Hl].
    rewrite (u8_small (len_of (snd o1))) by lia.
    destruct (Z.ltb_spec (len_of (snd o1)) 0); [lia |].
    subst n.
    match goal with |- context [getopt_loop _ _ _ ?s] => set (g1 := s) end.
    rewrite (IH m (pre ++ wire_option o1) rest newLength g1 o); try assumption.
    + unfold g1. cbn [go_optionNumber]. rewrite !len_of_app.
      rewrite last_number_cons.
      replace (u8 (u8 (go_optionNumber g + fst o1) + last_number os + fst o))
        with (u8 (go_optionNumber g + (fst o1 + last_number os) + fst o)).
      2:{ symmetry.
          rewrite <- (Z.add_assoc (u8 (go_optionNumber g + fst o1))), u8_add_u8.
          f_equal. lia. }
      do 3 f_equal; f_equal; lia.
    + rewrite Hm, <- !app_assoc. reflexivity.
    + unfold g1. cbn. rewrite len_of_app. reflexivity.
    + unfold g1. cbn. apply Z.mod_pos_bound. lia.
Qed.

(** coapGetOption counts the options from 1: index 0 decodes nothing, and
    index k + 1 hands back the option behind the first k ones. *)
Lemma get_option_at (b0 c i1 i2 : Z) (token : list Z)
    (os : list (Z * list Z)) (o : Z * list Z) (rest : list Z) (len : Z) :
  0 <= b0 < 256 -> b0 mod 16 = len_of token -> len_of token <= 8 ->
  Forall option_ok os -> option_ok o ->
  COAP_HDR_BYTES + len_of token < len < 65536 ->
  last_number (os ++ [o]) <= 255 -> (length os < 255)%nat ->
  coapGetOption (plain_buffer b0 c i1 i2 token (os ++ [o]) rest) len
    (Z.of_nat (S (length os)))
  = Ret {| got_ret := len_of (snd o);
           got_number :=
             if last_number (os ++ [o]) =? 0 then None
             else Some (last_number (os ++ [o]));
           got_data :=
             Some (Some (plain_length token (os ++ [o]) - len_of (snd o))) |}.
Proof.
  intros Hb0 Htkl Htoken Hos Ho Hlen Hlast Hidx.
  pose proof (len_of_nonneg token) as H1.
  set (m := plain_buffer b0 c i1 i2 token (os ++ [o]) rest).
  assert (Htl : coapGetTokenLength m len = Ret (len_of token)).
  { rewrite (coapGetTokenLength_spec m len b0);
      [| lia | reflexivity | exact Hb0].
    rewrite Htkl. destruct (Z.ltb_spec (len_of token) 9); [reflexivity | lia]. }
  unfold coapGetOption. rewrite Htl. cbn [bind].
  destruct (Z.ltb_spec len COAP_HDR_BYTES); [lia |].
  destruct (Z.ltb_spec (len_of token) 0); [lia |].
  destruct (Z.eqb_spec (len - (COAP_HDR_BYTES + len_of token)) 0); [lia |].
  rewrite (u8_small (Z.of_nat (S (length os)))) by lia. rewrite Nat2Z.id.
  assert (Hm : m = ([b0; c; i1; i2] ++ token) ++ wire_options os
                   ++ wire_option o ++ rest).
  { unfold m, plain_buffer. rewrite wire_options_app, <- !app_assoc. reflexivity. }
  match goal with |- context [getopt_loop _ _ ?nl ?s] =>
    rewrite (getopt_loop_last os m ([b0; c; i1; i2] ++ token) rest nl s o)
  end; try assumption.
  - cbn [bind go_optionLength go_optionNumber go_optionData got_ret].
    rewrite last_number_app in *. rewrite Z.add_0_l.
    pose proof (last_number_nonneg os Hos). destruct Ho as [Hd Hl].
    rewrite u8_small by lia.
    destruct (Z.eqb_spec (last_number os + fst o) 0); cbn [negb];
      do 4 f_equal; unfold plain_length;
      rewrite wire_options_app, !len_of_app;
      change (len_of [b0; c; i1; i2]) with COAP_HDR_BYTES; lia.
  - rewrite u16_small by (unfold COAP_HDR_BYTES in *; lia).
    unfold COAP_HDR_BYTES in *. lia.
  - cbn [go_pointer]. rewrite len_of_app. reflexivity.
  - cbn [go_optionNumber]. lia.
Qed.

Lemma plain_value_at (b0 c i1 i2 : Z) (token : list Z)
    (os : list (Z * list Z)) (o : Z * list Z) (rest : list Z) :
  rd_range (plain_buffer b0 c i1 i2 token (os ++ [o]) rest)
    (plain_length token (os ++ [o]) - len_of (snd o)) (length (snd o))
  = Ret (snd o).
Proof.
  assert (Hh : exists h, wire_option o = h ++ snd o).
  { unfold wire_option. destruct (_ <? _).
    - exists [fst o * 16 + len_of (snd o)]. reflexivity.
    - exists [fst o * 16 + 13; len_of (snd o) - 13]. reflexivity. }
  destruct Hh as [h Hh].
  assert (Hm : plain_buffer b0 c i1 i2 token (os ++ [o]) rest
               = ([b0; c; i1; i2] ++ token ++ wire_options os ++ h)
                 ++ snd o ++ rest).
  { unfold plain_buffer. rewrite wire_options_app, Hh, <- !app_assoc.
    reflexivity. }
  assert (Hl : plain_length token (os ++ [o]) - len_of (snd o)
               = len_of ([b0; c; i1; i2] ++ token ++ wire_options os ++ h)).
  { unfold plain_length. rewrite wire_options_app, Hh, !len_of_app.
    change (len_of [b0; c; i1; i2]) with COAP_HDR_BYTES. lia. }
  rewrite Hm, Hl. apply rd_range_app.
Qed.

Lemma get_option_zero (m : list Z) (len b0 : Z) :
  rd m 0 = Ret b0 -> 0 <= b0 < 256 -> b0 mod 16 <= 8 ->
  COAP_HDR_BYTES + b0 mod 16 < len ->
  coapGetOption m len 0
  = Ret {| got_ret := 0; got_number := None; got_data := Some None |}.
Proof.
  intros Hrd Hb Hk Hlen.
  pose proof (Z.mod_pos_bound b0 16 ltac:(lia)) as Hmod.
  unfold coapGetOption.
  destruct (Z.ltb_spec len COAP_HDR_BYTES); [lia |].
  rewrite (coapGetTokenLength_spec m len b0) by (assumption || lia).
  destruct (Z.ltb_spec (b0 mod 16) 9); [| lia]. cbn [bind].
  destruct (Z.ltb_spec (b0 mod 16) 0); [lia |].
  destruct (Z.eqb_spec (len - (COAP_HDR_BYTES + b0 mod 16)) 0); [lia |].
  reflexivity.
Qed.

(** The index of coapGetOption is a uint8_t. *)
Lemma get_option_index_u8 (m : list Z) (l i : Z) :
  coapGetOption m l (i + 256) = coapGetOption m l i.
Proof.
  unfold coapGetOption.
  replace (u8 (i + 256)) with (u8 i); [reflexivity |].
  unfold u8. rewrite <- (Z.mod_add i 1 256) by lia. reflexivity.
Qed.

(** X11: coapGetOption counts options from 1, and its index is a uint8_t. The
    buffer holds a first byte 0..255 whose low nibble is the token length
    (at most 8), three more header bytes, the token and k + 1 options
    written without delta escape (deltas 0..12, values of at most 255
    bytes), followed by any bytes; k + 1 is at most 255, the sum of the
    deltas is at most 255, and the claimed length is above 4 + token
    length and below 65536. Index 0 decodes no option and returns 0: no
    number is written, and the last test reads the local optionData that
    was never assigned, so the data pointer handed back is indeterminate.
    Index k + 1 returns the length of the option behind the first k ones,
    writes its number (the sum of the deltas; not written when it is 0)
    and stores the position of its value, at which the value bytes lie. On
    every buffer, index i + 256 is received as index i. *)
Theorem coapGetOption_one_based (b0 c i1 i2 : Z) (token : list Z)
    (os : list (Z * list Z)) (o : Z * list Z) (rest : list Z) (len : Z) :
  0 <= b0 < 256 -> b0 mod 16 = len_of token -> len_of token <= 8 ->
  Forall option_ok os -> option_ok o ->
  COAP_HDR_BYTES + len_of token < len < 65536 ->
  last_number (os ++ [o]) <= 255 -> (length os < 255)%nat ->
  coapGetOption (plain_buffer b0 c i1 i2 token (os ++ [o]) rest) len 0
  = Ret {| got_ret := 0; got_number := None; got_data := Some None |}
  /\ coapGetOption (plain_buffer b0 c i1 i2 token (os ++ [o]) rest) len
       (Z.of_nat (S (length os)))
     = Ret {| got_ret := len_of (snd o);
              got_number :=
                if last_number (os ++ [o]) =? 0 then None
                else Some (last_number (os ++ [o]));
              got_data :=
                Some (Some (plain_length token (os ++ [o]) - len_of (snd o))) |}
  /\ rd_range (plain_buffer b0 c i1 i2 token (os ++ [o]) rest)
       (plain_length token (os ++ [o]) - len_of (snd o)) (length (snd o))
     = Ret (snd o)
  /\ forall (m : list Z) (l i : Z),
       coapGetOption m l (i + 256) = coapGetOption m l i.
Proof.
  intros Hb0 Htkl Htoken Hos Ho Hlen Hlast Hidx.
  split; [| split; [| split]].
  - apply (get_option_zero _ len b0); try assumption; try reflexivity;
      rewrite Htkl; [exact Htoken | lia].
  - apply get_option_at; assumption.
  - apply plain_value_at.
  - apply get_option_index_u8.
Qed.

Lemma coapGetOption_one_based_witness :
  coapGetOption
    (plain_buffer 0x40 1 0x12 0x34 [] ([(11, [0x61])] ++ [(0, [0x62; 0x63])]) [0xFF; 1])
    11 0
  = Ret {| got_ret := 0; got_number := None; got_data := Some None |}
  /\ coapGetOption
       (plain_buffer 0x40 1 0x12 0x34 [] ([(11, [0x61])] ++ [(0, [0x62; 0x63])]) [0xFF; 1])
       11 (Z.of_nat (S (length [(11, [0x61])])))
     = Ret {| got_ret := len_of (snd (0, [0x62; 0x63]));
              got_number :=
                if last_number ([(11, [0x61])] ++ [(0, [0x62; 0x63])]) =? 0
                then None
                else Some (last_number ([(11, [0x61])] ++ [(0, [0x62; 0x63])]));
              got_data :=
                Some (Some (plain_length [] ([(11, [0x61])] ++ [(0, [0x62; 0x63])])
                            - len_of (snd (0, [0x62; 0x63])))) |}
  /\ rd_range
       (plain_buffer 0x40 1 0x12 0x34 [] ([(11, [0x61])] ++ [(0, [0x62; 0x63])]) [0xFF; 1])
       (plain_length [] ([(11, [0x61])] ++ [(0, [0x62; 0x63])])
        - len_of (snd (0, [0x62; 0x63])))
       (length (snd (0, [0x62; 0x63])))
     = Ret (snd (0, [0x62; 0x63]))
  /\ forall (m : list Z) (l i : Z),
       coapGetOption m l (i + 256) = coapGetOption m l i.
Proof.
  apply (coapGetOption_one_based 0x40 1 0x12 0x34 [] [(11, [0x61])]
           (0, [0x62; 0x63]) [0xFF; 1] 11).
  - lia.
  - reflexivity.
  - vm_compute; discriminate.
  - constructor; [split; [cbn; lia | vm_compute; discriminate] | constructor].
  - split; [cbn; lia | vm_compute; discriminate].
  - vm_compute. split; reflexivity.
  - vm_compute; discriminate.
  - cbn; lia.
Defined.

(** ** coapAddOption on option regions without a delta escape *)

Lemma coapAddOption_appends_aux (b0 c i1 i2 : Z) (token : list Z)
    (os : list (Z * list Z)) (old rest : list Z)
    (number : Z) (value more : list Z) :
  0 <= b0 < 256 -> b0 mod 16 = len_of token -> len_of token <= 8 ->
  Forall option_ok os ->
  (os <> [] -> last_number os <> 0) ->
  coapOptionIsValid (last_number os) = true ->
  coapOptionIsValid number = true ->
  0 <= number - last_number os <= 12 -> number <= 255 ->
  len_of value <= 255 ->
  length old = length (wire_option (number - last_number os, value)) ->
  plain_length token (os ++ [(number - last_number os, value)]) - len_of value
  <= 127 ->
  coapAddOption (plain_buffer b0 c i1 i2 token os (old ++ rest))
    (plain_length token os) number (len_of value) (value ++ more)
    (Some (match os with [] => 0 | _ :: _ => plain_length token os end))
  = Ret {| add_ret := COAP_OK;
           add_buffer :=
             plain_buffer b0 c i1 i2 token
               (os ++ [(number - last_number os, value)]) rest;
           add_length :=
             plain_length token (os ++ [(number - last_number os, value)]);
           add_newPointer :=
             Some (plain_length token
                     (os ++ [(number - last_number os, value)])) |}.
Proof.
  intros Hb0 Htkl Htoken Hos Hlast0 Hpv Hvalid Hd Hnum Hval Hold Hend.
  pose proof (len_of_nonneg token) as H1.
  pose proof (len_of_nonneg value) as H3.
  pose proof (wire_options_length os) as H4.
  pose proof (wire_option_length (number - last_number os, value)) as Hwl.
  cbn [snd] in Hwl.
  destruct (plain_buffer_snoc b0 c i1 i2 token os
              (number - last_number os, value) rest) as [_ Hpl].
  assert (Hpl0 : plain_length token os
                 = 4 + len_of token + len_of (wire_options os))
    by reflexivity.
  assert (Hcount : (length os <= 127)%nat)
    by (destruct (len_of value <? 13); lia).
  rewrite add_option_general by assumption.
  rewrite s8_small by (destruct (len_of value <? 13); lia).
  rewrite (u16_small (_ - _)) by (destruct (len_of value <? 13); lia).
  rewrite u16_small by (destruct (len_of value <? 13); lia).
  do 2 f_equal. lia.
Qed.

(** X12: coapAddOption appends. The array holds a message (first byte 0..255
    with the token length, at most 8, as low nibble; three more header
    bytes; the token; options with deltas 0..12 and values of at most 255
    bytes) followed by at least as many bytes as the new option takes. The
    last option number L (the sum of the deltas; 0 without options) is not
    0 if options exist; L and the new number are accepted by
    coapOptionIsValid; the new number is at most 255 and 0..12 above L;
    the value has at most 255 bytes; the header of the new option ends at
    an offset of at most 127. Called with the message length, the value
    with its length, and the tail pointer (the buffer start if no options
    exist, else the message end), coapAddOption returns COAP_OK and
    writes, right behind the last option, the option byte delta * 16 +
    length nibble, the length extension byte for a length of 13 or more,
    and the value; length counter and tail pointer become the new message
    length. *)
Theorem coapAddOption_appends (b0 c i1 i2 : Z) (token : list Z)
    (os : list (Z * list Z)) (old rest : list Z)
    (number : Z) (value more : list Z) :
  0 <= b0 < 256 -> b0 mod 16 = len_of token -> len_of token <= 8 ->
  Forall option_ok os ->
  (os <> [] -> last_number os <> 0) ->
  coapOptionIsValid (last_number os) = true ->
  coapOptionIsValid number = true ->
  0 <= number - last_number os <= 12 -> number <= 255 ->
  len_of value <= 255 ->
  length old = length (wire_option (number - last_number os, value)) ->
  plain_length token (os ++ [(number - last_number os, value)]) - len_of value
  <= 127 ->
  coapAddOption (plain_buffer b0 c i1 i2 token os (old ++ rest))
    (plain_length token os) number (len_of value) (value ++ more)
    (Some (match os with [] => 0 | _ :: _ => plain_length token os end))
  = Ret {| add_ret := COAP_OK;
           add_buffer :=
             plain_buffer b0 c i1 i2 token
               (os ++ [(number - last_number os, value)]) rest;
           add_length :=
             plain_length token (os ++ [(number - last_number os, value)]);
           add_newPointer :=
             Some (plain_length token
                     (os ++ [(number - last_number os, value)])) |}.
Proof. apply coapAddOption_appends_aux. Qed.

Lemma coapAddOption_appends_witness :
  coapAddOption
    (plain_buffer 0x40 1 0x12 0x34 [] [(11, [0x61])] ([0; 0; 0] ++ [0; 0]))
    (plain_length [] [(11, [0x61])]) 12 (len_of [0x32; 0x33]) ([0x32; 0x33] ++ [])
    (Some (match [(11, [0x61])] with
           | [] => 0
           | _ :: _ => plain_length [] [(11, [0x61])]
           end))
  = Ret {| add_ret := COAP_OK;
           add_buffer :=
             plain_buffer 0x40 1 0x12 0x34 []
               ([(11, [0x61])]
                ++ [(12 - last_number [(11, [0x61])], [0x32; 0x33])]) [0; 0];
           add_length :=
             plain_length []
               ([(11, [0x61])]
                ++ [(12 - last_number [(11, [0x61])], [0x32; 0x33])]);
           add_newPointer :=
             Some (plain_length []
                     ([(11, [0x61])]
                      ++ [(12 - last_number [(11, [0x61])], [0x32; 0x33])])) |}.
Proof.
  apply (coapAddOption_appends 0x40 1 0x12 0x34 [] [(11, [0x61])] [0; 0; 0]
           [0; 0] 12 [0x32; 0x33] []).
  - lia.
  - reflexivity.
  - vm_compute; discriminate.
  - constructor; [split; [cbn; lia | vm_compute; discriminate] | constructor].
  - intros _. vm_compute; discriminate.
  - reflexivity.
  - reflexivity.
  - vm_compute. split; discriminate.
  - lia.
  - vm_compute; discriminate.
  - reflexivity.
  - vm_compute; discriminate.
Defined.

(** X13: coapAddOption takes its length counter from the int8_t result of
    coapBuildOptionHeader. The array holds a message (first byte 0..255
    with the token length, at most 8, as low nibble; three more header
    bytes; the token; at most 127 options with deltas 0..12 and values of
    at most 255 bytes) followed by at least as many bytes as the new
    option takes. The last option number L (the sum of the deltas; 0
    without options) is not 0 if options exist; L and the new number are
    accepted by coapOptionIsValid; the new number is at most 255 and 0..12
    above L; the value has at most 255 bytes. Called with the message
    length, the value with its length, and the tail pointer (the buffer
    start if no options exist, else the message end), when the header of
    the new option ends at an offset of 128..255, coapAddOption returns
    COAP_OK and writes the bytes and the tail pointer as for a shorter
    message, but the length counter is the new message length minus 256
    modulo 2^16, not the new message length. *)
Theorem coapAddOption_length_wraps (b0 c i1 i2 : Z) (token : list Z)
    (os : list (Z * list Z)) (old rest : list Z)
    (number : Z) (value more : list Z) :
  0 <= b0 < 256 -> b0 mod 16 = len_of token -> len_of token <= 8 ->
  Forall option_ok os -> (length os <= 127)%nat ->
  (os <> [] -> last_number os <> 0) ->
  coapOptionIsValid (last_number os) = true ->
  coapOptionIsValid number = true ->
  0 <= number - last_number os <= 12 -> number <= 255 ->
  len_of value <= 255 ->
  length old = length (wire_option (number - last_number os, value)) ->
  128 <= plain_length token (os ++ [(number - last_number os, value)])
         - len_of value <= 255 ->
  coapAddOption (plain_buffer b0 c i1 i2 token os (old ++ rest))
    (plain_length token os) number (len_of value) (value ++ more)
    (Some (match os with [] => 0 | _ :: _ => plain_length token os end))
  = Ret {| add_ret := COAP_OK;
           add_buffer :=
             plain_buffer b0 c i1 i2 token
               (os ++ [(number - last_number os, value)]) rest;
           add_length :=
             u16 (plain_length token (os ++ [(number - last_number os, value)])
                  - 256);
           add_newPointer :=
             Some (plain_length token
                     (os ++ [(number - last_number os, value)])) |}
  /\ u16 (plain_length token (os ++ [(number - last_number os, value)]) - 256)
     <> plain_length token (os ++ [(number - last_number os, value)]).
Proof.
  intros Hb0 Htkl Htoken Hos Hcount Hlast0 Hpv Hvalid Hd Hnum Hval Hold Hend.
  pose proof (len_of_nonneg token) as H1.
  pose proof (len_of_nonneg value) as H3.
  pose proof (wire_options_length os) as H4.
  pose proof (wire_option_length (number - last_number os, value)) as Hwl.
  cbn [snd] in Hwl.
  destruct (plain_buffer_snoc b0 c i1 i2 token os
              (number - last_number os, value) rest) as [_ Hpl].
  assert (Hpl0 : plain_length token os
                 = 4 + len_of token + len_of (wire_options os))
    by reflexivity.
  set (pl := plain_length token (os ++ [(number - last_number os, value)])) in *.
  split.
  - rewrite add_option_general by assumption. fold pl.
    do 2 f_equal. unfold s8, u16.
    replace ((pl - len_of value + 128) mod 256 - 128)
      with (pl - len_of value - 256).
    2:{ replace (pl - len_of value + 128)
          with (pl - len_of value - 128 + 1 * 256) by lia.
        rewrite Z.mod_add, Z.mod_small by lia. lia. }
    rewrite Zplus_mod_idemp_l. f_equal. lia.
  - unfold u16.
    destruct (Z.lt_ge_cases pl 256).
    + replace (pl - 256) with (pl + 65280 + (-1) * 65536) by lia.
      rewrite Z.mod_add, Z.mod_small by lia. lia.
    + rewrite Z.mod_small by lia. lia.
Qed.

Lemma coapAddOption_length_wraps_witness :
  coapAddOption
    (plain_buffer 0x40 1 0x12 0x34 [] [(11, repeat 0x61 121)] ([0; 0] ++ [0]))
    127 11 1 [0x62] (Some 127)
  = Ret {| add_ret := COAP_OK;
           add_buffer :=
             plain_buffer 0x40 1 0x12 0x34 []
               [(11, repeat 0x61 121); (0, [0x62])] [0];
           add_length := 65409;
           add_newPointer := Some 129 |}
  /\ 65409 <> 129.
Proof.
  apply (coapAddOption_length_wraps 0x40 1 0x12 0x34 [] [(11, repeat 0x61 121)]
           [0; 0] [0] 11 [0x62] []).
  - lia.
  - reflexivity.
  - vm_compute; discriminate.
  - constructor; [split; [cbn; lia | vm_compute; discriminate] | constructor].
  - cbn; lia.
  - intros _. vm_compute; discriminate.
  - reflexivity.
  - reflexivity.
  - vm_compute. split; discriminate.
  - lia.
  - vm_compute; discriminate.
  - reflexivity.
  - vm_compute. split; discriminate.
Defined.

Lemma option_ok_snoc (os : list (Z * list Z)) (o : Z * list Z) :
  Forall option_ok os -> option_ok o -> Forall option_ok (os ++ [o]).
Proof.
  intros Hos Ho. apply Forall_app. split; [exact Hos |].
  constructor; [exact Ho | constructor].
Qed.

(** X14: Insert, then look up. The array holds a message (first byte 0..255
    with the token length, at most 8, as low nibble; three more header
    bytes; the token; options with deltas 0..12 and values of at most 255
    bytes) followed by as many bytes as the new option takes and at least
    one more. The last option number L (the sum of the deltas; 0 without
    options) is not 0 if options exist; L and the new number are accepted
    by coapOptionIsValid; the new number is 1..255 and 0..12 above L; the
    value has at most 255 bytes; the header of the new option ends at an
    offset of at most 127. Called with the message length, the value with
    its length, and the tail pointer (the buffer start if no options
    exist, else the message end), coapAddOption returns COAP_OK; on the
    new buffer and length coapGetOptionCount returns the old count plus 1,
    and coapGetOption with that count as index returns the value length,
    writes the option number and stores a data pointer at which exactly
    the value bytes lie. *)
Theorem coapAddOption_then_lookup (b0 c i1 i2 : Z) (token : list Z)
    (os : list (Z * list Z)) (old rest : list Z)
    (number : Z) (value more : list Z) :
  0 <= b0 < 256 -> b0 mod 16 = len_of token -> len_of token <= 8 ->
  Forall option_ok os ->
  (os <> [] -> last_number os <> 0) ->
  coapOptionIsValid (last_number os) = true ->
  coapOptionIsValid number = true ->
  0 <= number - last_number os <= 12 -> 0 < number <= 255 ->
  len_of value <= 255 ->
  length old = length (wire_option (number - last_number os, value)) ->
  plain_length token (os ++ [(number - last_number os, value)]) - len_of value
  <= 127 ->
  rest <> [] ->
  exists a,
    coapAddOption (plain_buffer b0 c i1 i2 token os (old ++ rest))
      (plain_length token os) number (len_of value) (value ++ more)
      (Some (match os with [] => 0 | _ :: _ => plain_length token os end))
    = Ret a
    /\ add_ret a = COAP_OK
    /\ coapGetOptionCount (add_buffer a) (add_length a)
       = Ret (Z.of_nat (length os) + 1)
    /\ coapGetOption (add_buffer a) (add_length a) (Z.of_nat (length os) + 1)
       = Ret {| got_ret := len_of value;
                got_number := Some number;
                got_data := Some (Some (add_length a - len_of value)) |}
    /\ rd_range (add_buffer a) (add_length a - len_of value) (length value)
       = Ret value.
Proof.
  intros Hb0 Htkl Htoken Hos Hlast0 Hpv Hvalid Hd Hnum Hval Hold Hend Hrest.
  pose proof (len_of_nonneg token) as H1.
  pose proof (len_of_nonneg value) as H3.
  pose proof (len_of_nonneg (wire_options os)) as H4.
  pose proof (last_number_nonneg os Hos) as H5.
  set (o := (number - last_number os, value)) in *.
  pose proof (wire_option_length o) as Hwl. cbn [snd o] in Hwl.
  destruct (plain_buffer_snoc b0 c i1 i2 token os o rest) as [_ Hpl].
  assert (Hpl0 : plain_length token os
                 = 4 + len_of token + len_of (wire_options os))
    by reflexivity.
  assert (Ho : option_ok o) by (split; cbn [fst snd o]; lia).
  assert (Hos' : Forall option_ok (os ++ [o])) by (apply option_ok_snoc; assumption).
  assert (Hlast : last_number (os ++ [o]) = number).
  { rewrite last_number_app. cbn [fst o]. lia. }
  assert (Hbig : plain_length token (os ++ [o]) < 65536)
    by (destruct (len_of value <? 13); lia).
  eexists. split.
  { apply coapAddOption_appends_aux; try assumption; lia. }
  cbn [add_ret add_buffer add_length]. fold o.
  split; [reflexivity |]. split; [| split].
  - rewrite coapGetOptionCount_plain by assumption.
    rewrite length_app. cbn [length]. f_equal. lia.
  - replace (Z.of_nat (length os) + 1) with (Z.of_nat (S (length os))) by lia.
    rewrite get_option_at; try assumption.
    + rewrite Hlast. destruct (Z.eqb_spec number 0); [lia | reflexivity].
    + unfold COAP_HDR_BYTES. destruct (len_of value <? 13); lia.
    + lia.
    + pose proof (wire_options_length os). destruct (len_of value <? 13); lia.
  - apply (plain_value_at b0 c i1 i2 token os o rest).
Qed.

Lemma coapAddOption_then_lookup_witness :
  exists a,
    coapAddOption
      (plain_buffer 0x40 1 0x12 0x34 [] [(11, [0x61])] ([0; 0; 0] ++ [0; 0]))
      (plain_length [] [(11, [0x61])]) 12 (len_of [0x32; 0x33])
      ([0x32; 0x33] ++ [])
      (Some (match [(11, [0x61])] with
             | [] => 0
             | _ :: _ => plain_length [] [(11, [0x61])]
             end))
    = Ret a
    /\ add_ret a = COAP_OK
    /\ coapGetOptionCount (add_buffer a) (add_length a)
       = Ret (Z.of_nat (length [(11, [0x61])]) + 1)
    /\ coapGetOption (add_buffer a) (add_length a)
         (Z.of_nat (length [(11, [0x61])]) + 1)
       = Ret {| got_ret := len_of [0x32; 0x33];
                got_number := Some 12;
                got_data := Some (Some (add_length a - len_of [0x32; 0x33])) |}
    /\ rd_range (add_buffer a) (add_length a - len_of [0x32; 0x33])
         (length [0x32; 0x33])
       = Ret [0x32; 0x33].
Proof.
  apply (coapAddOption_then_lookup 0x40 1 0x12 0x34 [] [(11, [0x61])] [0; 0; 0]
           [0; 0] 12 [0x32; 0x33] []).
  - lia.
  - reflexivity.
  - vm_compute; discriminate.
  - constructor; [split; [cbn; lia | vm_compute; discriminate] | constructor].
  - intros _. vm_compute; discriminate.
  - reflexivity.
  - reflexivity.
  - vm_compute. split; discriminate.
  - lia.
  - vm_compute; discriminate.
  - reflexivity.
  - vm_compute; discriminate.
  - discriminate.
Defined.

(** ** The header length and the int8_t difference *)

(** X15: coapBuildOptionHeaderLength computes the difference of two uint8_t
    option numbers in an int8_t.  For an accepted number the result is 1, plus
    1 for a delta of 13 or more, plus 1 for a length of 13 or more, when the
    difference is 0 .. 127; a difference of 128 .. 255 is answered with
    COAP_OPTIONS_OUT_OF_ORDER although the number is larger than the previous
    one, and a difference below -128 wraps to a positive delta and is
    accepted. *)
Theorem coapBuildOptionHeaderLength_int8 (number optionLength previous : Z) :
  coapOptionIsValid number = true ->
  0 <= number < 256 -> 0 <= previous < 256 -> 0 <= optionLength < 256 ->
  coapBuildOptionHeaderLength number optionLength previous
  = if (number - previous <? -128)
       || ((0 <=? number - previous) && (number - previous <? 128))
    then 1 + (if s8 (number - previous) <? 13 then 0 else 1)
           + (if optionLength <? 13 then 0 else 1)
    else COAP_OPTIONS_OUT_OF_ORDER.
Proof.
  intros Hv Hn Hp Hl. unfold coapBuildOptionHeaderLength.
  rewrite Hv. cbn [negb].
  assert (Hs : s8 (number - previous)
               = if number - previous <? -128 then number - previous + 256
                 else if number - previous <? 128 then number - previous
                 else number - previous - 256).
  { unfold s8.
    destruct (Z.ltb_spec (number - previous) (-128)).
    - replace (number - previous + 128)
        with (number - previous + 384 + (-1) * 256) by lia.
      rewrite Z.mod_add, Z.mod_small by lia. lia.
    - destruct (Z.ltb_spec (number - previous) 128).
      + rewrite Z.mod_small by lia. lia.
      + replace (number - previous + 128)
          with (number - previous - 128 + 1 * 256) by lia.
        rewrite Z.mod_add, Z.mod_small by lia. lia. }
  rewrite Hs.
  assert (Hlen : forall d, 0 <= d < 128 ->
            (if d <? 13 then 1
             else if (d >=? 13) && (d <? 269) then s8 (1 + 1)
             else if d >=? 269 then s8 (1 + 2) else 1)
            = 1 + (if d <? 13 then 0 else 1)).
  { intros d Hd. destruct (Z.ltb_spec d 13); [reflexivity |].
    destruct (Z.geb_spec d 13); [| lia].
    destruct (Z.ltb_spec d 269); [| lia]. reflexivity. }
  assert (Hlen2 : forall k, 1 <= k <= 2 ->
            (if optionLength <? 13 then k
             else if (optionLength >=? 13) && (optionLength <? 269) then s8 (k + 1)
             else if optionLength >=? 269 then s8 (k + 2) else k)
            = k + (if optionLength <? 13 then 0 else 1)).
  { intros k Hk. destruct (Z.ltb_spec optionLength 13); [lia |].
    destruct (Z.geb_spec optionLength 13); [| lia].
    destruct (Z.ltb_spec optionLength 269); [| lia]. cbn [andb].
    apply s8_small. lia. }
  destruct (Z.ltb_spec (number - previous) (-128)).
  - cbn [orb].
    destruct (Z.ltb_spec (number - previous + 256) 0); [lia |].
    rewrite Hlen by lia. apply Hlen2.
    destruct (number - previous + 256 <? 13); lia.
  - cbn [orb]. destruct (Z.ltb_spec (number - previous) 128).
    + destruct (Z.leb_spec 0 (number - previous)).
      * cbn [andb]. destruct (Z.ltb_spec (number - previous) 0); [lia |].
        rewrite Hlen by lia. apply Hlen2.
        destruct (number - previous <? 13); lia.
      * cbn [andb]. destruct (Z.ltb_spec (number - previous) 0); [| lia].
        reflexivity.
    + rewrite andb_false_r.
      destruct (Z.ltb_spec (number - previous - 256) 0); [| lia]. reflexivity.
Qed.

Lemma coapBuildOptionHeaderLength_int8_witness :
  coapBuildOptionHeaderLength 200 20 11
  = if (200 - 11 <? -128) || ((0 <=? 200 - 11) && (200 - 11 <? 128))
    then 1 + (if s8 (200 - 11) <? 13 then 0 else 1)
           + (if 20 <? 13 then 0 else 1)
    else COAP_OPTIONS_OUT_OF_ORDER.
Proof.
  apply (coapBuildOptionHeaderLength_int8 200 20 11); [reflexivity | lia | lia | lia].
Defined.

(** ** Option regions followed by more bytes of the message *)

(** The walk of coapGetOptionCount passes an option region without delta
    escapes that is followed by [extra] more bytes of the message. *)
Lemma count_loop_prefix (os : list (Z * list Z)) :
  forall (fuel : nat) (m pre rest : list Z) (count byte extra : Z),
  Forall option_ok os -> rest <> [] ->
  m = pre ++ wire_options os ++ rest ->
  0 < extra -> len_of (wire_options os) + extra < 65536 ->
  0 <= count -> count + Z.of_nat (length os) < 2147483648 ->
  rd m (len_of pre) = Ret byte ->
  exists b,
    rd m (len_of pre + len_of (wire_options os)) = Ret b
    /\ count_loop (length os + fuel) m byte
         {| w_pointer := len_of pre;
            w_newLength := len_of (wire_options os) + extra;
            w_count := count |}
       = count_loop fuel m b
           {| w_pointer := len_of pre + len_of (wire_options os);
              w_newLength := extra;
              w_count := count + Z.of_nat (length os) |}.
Proof.
  induction os as [| o os IH];
    intros fuel m pre rest count byte extra Hok Hrest Hm Hex Hlen Hc Hc2 Hbyte.
  - exists byte. cbn [length wire_options flat_map Nat.add].
    change (len_of []) with 0. rewrite !Z.add_0_r, Z.add_0_l.
    split; [exact Hbyte | reflexivity].
  - apply Forall_cons in Hok as [Ho Hok].
    destruct (option_byte_facts o Ho) as (Hb & Hhi & Hlo).
    destruct (wire_option_head o) as [tl Htl].
    rewrite wire_options_cons in *.
    assert (Hbyte' : byte = option_byte o).
    { rewrite Hm, rd_app_0, Htl in Hbyte. cbn [app] in Hbyte.
      rewrite rd_head in Hbyte. congruence. }
    subst byte.
    pose proof (wire_option_length o) as Hwl.
    pose proof (len_of_nonneg (snd o)) as Hnn.
    pose proof (len_of_nonneg (wire_options os)) as Hnn2.
    rewrite len_of_app in *.
    destruct Ho as [Hd Hl].
    cbn [length] in Hc2.
    assert (Hm' : m = (pre ++ wire_option o) ++ wire_options os ++ rest).
    { rewrite Hm. rewrite <- !app_assoc. reflexivity. }
    assert (Hnext : exists b, rd m (len_of (pre ++ wire_option o)) = Ret b).
    { rewrite Hm', rd_app_0. destruct (wire_options os ++ rest) as [| x xs] eqn:E.
      - apply app_eq_nil in E as [_ E]. contradiction.
      - exists x. apply rd_head. }
    destruct Hnext as [b Hnext].
    assert (Hw1 : 1 <= len_of (wire_option o))
      by (rewrite Hwl; destruct (len_of (snd o) <? 13); lia).
    destruct (IH fuel m (pre ++ wire_option o) rest (count + 1) b extra)
      as [b' [Hb' Hloop]]; try assumption; try lia.
    exists b'. split.
    { rewrite <- Hb', len_of_app. f_equal. lia. }
    cbn [length Nat.add count_loop w_newLength].
    unfold COAP_PAYLOAD_MARKER.
    destruct (Z.eqb_spec (option_byte o) 255) as [E | _]; [lia |].
    destruct (Z.eqb_spec (len_of (wire_option o) + len_of (wire_options os) + extra) 0)
      as [E | _]; [lia |].
    cbn [negb andb]. rewrite Hlo.
    destruct (Z.ltb_spec (len_of (snd o)) 13) as [Hshort | Hlong].
    + rewrite (u8_small (len_of (snd o))) by lia.
      destruct (Z.eqb_spec (len_of (snd o)) 15); [lia |].
      destruct (Z.eqb_spec (len_of (snd o)) 14); [lia |].
      destruct (Z.eqb_spec (len_of (snd o)) 13); [lia |].
      cbn [bind]. unfold count_default. cbn [w_pointer w_newLength w_count].
      replace (len_of pre + (len_of (snd o) + 1)) with (len_of (pre ++ wire_option o))
        by (rewrite len_of_app; lia).
      rewrite Hnext. cbn [bind].
      rewrite u16_small by lia. rewrite s32_small by lia.
      replace (len_of (wire_option o) + len_of (wire_options os) + extra
               - (len_of (snd o) + 1))
        with (len_of (wire_options os) + extra) by lia.
      rewrite Hloop. do 2 f_equal; [rewrite len_of_app; lia | lia].
    + rewrite (u8_small 13) by lia. cbn [Z.eqb Pos.eqb].
      unfold count_case_0D. cbn [w_pointer w_newLength w_count].
      assert (Hext : rd m (len_of pre + 1) = Ret (len_of (snd o) - 13)).
      { rewrite Hm, rd_app_r by lia. unfold wire_option.
        destruct (Z.ltb_spec (len_of (snd o)) 13); [lia |].
        cbn [app]. apply rd_second. }
      rewrite Hext. cbn [bind w_pointer w_newLength w_count].
      replace (len_of (snd o) - 13 + 13) with (len_of (snd o)) by lia.
      rewrite (u8_small (len_of (snd o))) by lia.
      replace (len_of pre + 1 + (len_of (snd o) + 1)) with (len_of (pre ++ wire_option o))
        by (rewrite len_of_app; lia).
      rewrite Hnext. cbn [bind].
      rewrite u16_small by lia. rewrite s32_small by lia.
      replace (len_of (wire_option o) + len_of (wire_options os) + extra
               - (len_of (snd o) + 2))
        with (len_of (wire_options os) + extra) by lia.
      rewrite Hloop. do 2 f_equal; [rewrite len_of_app; lia | lia].
Qed.

(** The same for the walk of coapGetPayload. *)
Lemma payload_loop_prefix (os : list (Z * list Z)) :
  forall (fuel : nat) (m pre rest : list Z) (oc byte extra : Z),
  Forall option_ok os -> rest <> [] ->
  m = pre ++ wire_options os ++ rest ->
  0 <= extra -> len_of (wire_options os) + extra < 32768 ->
  -2147483648 <= oc - Z.of_nat (length os) -> oc < 2147483648 ->
  rd m (len_of pre) = Ret byte ->
  exists b,
    rd m (len_of pre + len_of (wire_options os)) = Ret b
    /\ payload_loop (length os + fuel) m byte
         {| pw_pointer := len_of pre;
            pw_newLength := len_of (wire_options os) + extra;
            pw_optionCount := oc |}
       = payload_loop fuel m b
           {| pw_pointer := len_of pre + len_of (wire_options os);
              pw_newLength := extra;
              pw_optionCount := oc - Z.of_nat (length os) |}.
Proof.
  induction os as [| o os IH];
    intros fuel m pre rest oc byte extra Hok Hrest Hm Hex Hlen Hoc1 Hoc2 Hbyte.
  - exists byte. cbn [length wire_options flat_map Nat.add].
    change (len_of []) with 0. rewrite !Z.add_0_r, Z.sub_0_r, Z.add_0_l.
    split; [exact Hbyte | reflexivity].
  - apply Forall_cons in Hok as [Ho Hok].
    destruct (option_byte_facts o Ho) as (Hb & Hhi & Hlo).
    destruct (wire_option_head o) as [tl Htl].
    rewrite wire_options_cons in *.
    assert (Hbyte' : byte = option_byte o).
    { rewrite Hm, rd_app_0, Htl in Hbyte. cbn [app] in Hbyte.
      rewrite rd_head in Hbyte. congruence. }
    subst byte.
    pose proof (wire_option_length o) as Hwl.
    pose proof (len_of_nonneg (snd o)) as Hnn.
    pose proof (len_of_nonneg (wire_options os)) as Hnn2.
    rewrite len_of_app in *.
    destruct Ho as [Hd Hl].
    cbn [length] in Hoc1.
    assert (Hm' : m = (pre ++ wire_option o) ++ wire_options os ++ rest).
    { rewrite Hm. rewrite <- !app_assoc. reflexivity. }
    assert (Hnext : exists b, rd m (len_of (pre ++ wire_option o)) = Ret b).
    { rewrite Hm', rd_app_0. destruct (wire_options os ++ rest) as [| x xs] eqn:E.
      - apply app_eq_nil in E as [_ E]. contradiction.
      - exists x. apply rd_head. }
    destruct Hnext as [b Hnext].
    assert (Hw1 : 1 <= len_of (wire_option o))
      by (rewrite Hwl; destruct (len_of (snd o) <? 13); lia).
    destruct (IH fuel m (pre ++ wire_option o) rest (oc - 1) b extra)
      as [b' [Hb' Hloop]]; try assumption; try lia.
    exists b'. split.
    { rewrite <- Hb', len_of_app. f_equal. lia. }
    cbn [length Nat.add payload_loop pw_newLength].
    unfold COAP_PAYLOAD_MARKER.
    destruct (Z.eqb_spec (option_byte o) 255) as [E | _]; [lia |].
    cbn [negb orb]. rewrite Hlo.
    destruct (Z.ltb_spec (len_of (snd o)) 13) as [Hshort | Hlong].
    + destruct (Z.eqb_spec (len_of (snd o)) 15); [lia |].
      destruct (Z.eqb_spec (len_of (snd o)) 14); [lia |].
      destruct (Z.eqb_spec (len_of (snd o)) 13); [lia |].
      cbn [bind]. unfold payload_default.
      cbn [pw_pointer pw_newLength pw_optionCount].
      replace (len_of pre + (len_of (snd o) + 1)) with (len_of (pre ++ wire_option o))
        by (rewrite len_of_app; lia).
      rewrite Hnext. cbn [bind].
      rewrite s16_small by lia. rewrite s32_small by lia.
      replace (len_of (wire_option o) + len_of (wire_options os) + extra
               - (len_of (snd o) + 1))
        with (len_of (wire_options os) + extra) by lia.
      rewrite Hloop. do 2 f_equal; [rewrite len_of_app; lia | lia].
    + cbn [Z.eqb Pos.eqb].
      unfold payload_case_0D. cbn [pw_pointer pw_newLength pw_optionCount].
      assert (Hext : rd m (len_of pre + 1) = Ret (len_of (snd o) - 13)).
      { rewrite Hm, rd_app_r by lia. unfold wire_option.
        destruct (Z.ltb_spec (len_of (snd o)) 13); [lia |].
        cbn [app]. apply rd_second. }
      rewrite Hext. cbn [bind pw_pointer pw_newLength pw_optionCount].
      replace (len_of (snd o) - 13 + 13) with (len_of (snd o)) by lia.
      replace (len_of pre + 1 + (len_of (snd o) + 1)) with (len_of (pre ++ wire_option o))
        by (rewrite len_of_app; lia).
      rewrite Hnext. cbn [bind].
      rewrite s16_small by lia. rewrite s32_small by lia.
      replace (len_of (wire_option o) + len_of (wire_options os) + extra
               - (len_of (snd o) + 2))
        with (len_of (wire_options os) + extra) by lia.
      rewrite Hloop. do 2 f_equal; [rewrite len_of_app; lia | lia].
Qed.

(** ** The payload behind an option region *)

Lemma count_with_payload (b0 c i1 i2 : Z) (token : list Z)
    (os : list (Z * list Z)) (rest : list Z) (extra : Z) :
  0 <= b0 < 256 -> b0 mod 16 = len_of token -> len_of token <= 8 ->
  Forall option_ok os ->
  0 < extra -> plain_length token os + extra < 65536 ->
  coapGetOptionCount
    (plain_buffer b0 c i1 i2 token os (COAP_PAYLOAD_MARKER :: rest))
    (plain_length token os + extra)
  = Ret (Z.of_nat (length os)).
Proof.
  intros Hb0 Htkl Htoken Hos Hex Hlen.
  pose proof (len_of_nonneg token) as H1.
  pose proof (len_of_nonneg (wire_options os)) as H2.
  pose proof (wire_options_length os) as H3.
  set (m := plain_buffer b0 c i1 i2 token os (COAP_PAYLOAD_MARKER :: rest)).
  set (len := plain_length token os + extra).
  assert (Hl : len = 4 + len_of token + len_of (wire_options os) + extra)
    by reflexivity.
  assert (Htl : coapGetTokenLength m len = Ret (len_of token)).
  { rewrite (coapGetTokenLength_spec m len b0);
      [| unfold COAP_HDR_BYTES; lia | reflexivity | exact Hb0].
    rewrite Htkl. destruct (Z.ltb_spec (len_of token) 9); [reflexivity | lia]. }
  unfold coapGetOptionCount. rewrite Htl. cbn [bind].
  unfold COAP_HDR_BYTES.
  destruct (Z.ltb_spec len 4); [lia |].
  destruct (Z.ltb_spec (len_of token) 0); [lia |].
  destruct (Z.eqb_spec (4 + len_of token) len); [lia |].
  replace (len - (4 + len_of token)) with (len_of (wire_options os) + extra)
    by lia.
  rewrite u16_small by lia.
  destruct (plain_buffer_split b0 c i1 i2 token os (COAP_PAYLOAD_MARKER :: rest))
    as [Hm Hpre].
  fold m in Hm. rewrite <- app_assoc in Hm.
  set (pre := [b0; c; i1; i2] ++ token) in *.
  assert (Hpre' : len_of pre = 4 + len_of token)
    by (unfold pre; rewrite len_of_app; reflexivity).
  rewrite <- Hpre'.
  assert (Hrd : exists b, rd m (len_of pre) = Ret b).
  { rewrite Hm, rd_app_0.
    destruct (wire_options os ++ COAP_PAYLOAD_MARKER :: rest) as [| x xs] eqn:Ex.
    - apply app_eq_nil in Ex as [_ Ex]. discriminate.
    - exists x. apply rd_head. }
  destruct Hrd as [b Hrd]. rewrite Hrd. cbn [bind].
  assert (Hfuel : exists fuel, S (length m) = (length os + S fuel)%nat).
  { exists (length m - length os)%nat.
    assert (Z.of_nat (length os) <= Z.of_nat (length m)).
    { change (Z.of_nat (length m)) with (len_of m).
      rewrite Hm, !len_of_app. pose proof (len_of_nonneg pre).
      pose proof (len_of_nonneg (COAP_PAYLOAD_MARKER :: rest)). lia. }
    lia. }
  destruct Hfuel as [fuel ->].
  destruct (count_loop_prefix os (S fuel) m pre (COAP_PAYLOAD_MARKER :: rest)
              0 b extra) as (b' & Hb' & Hloop);
    try assumption; try lia; [discriminate |].
  rewrite Hloop.
  assert (Hmark : b' = COAP_PAYLOAD_MARKER).
  { rewrite Hm in Hb'. rewrite <- len_of_app, app_assoc, rd_app_0, rd_head in Hb'.
    congruence. }
  rewrite Hmark. cbn [count_loop]. rewrite Z.eqb_refl. reflexivity.
Qed.

Lemma payload_after_marker (b0 c i1 i2 : Z) (token : list Z)
    (os : list (Z * list Z)) (payload rest : list Z) :
  0 <= b0 < 256 -> b0 mod 16 = len_of token -> len_of token <= 8 ->
  Forall option_ok os ->
  plain_length token os + 1 + len_of payload < 32768 ->
  coapGetPayload
    (plain_buffer b0 c i1 i2 token os (COAP_PAYLOAD_MARKER :: payload ++ rest))
    (plain_length token os + 1 + len_of payload)
  = Ret (len_of payload, Some (plain_length token os + 1)).
Proof.
  intros Hb0 Htkl Htoken Hos Hlen.
  pose proof (len_of_nonneg token) as H1.
  pose proof (len_of_nonneg (wire_options os)) as H2.
  pose proof (len_of_nonneg payload) as H3.
  pose proof (wire_options_length os) as H4.
  set (m := plain_buffer b0 c i1 i2 token os
              (COAP_PAYLOAD_MARKER :: payload ++ rest)).
  assert (Hpl : plain_length token os
                = 4 + len_of token + len_of (wire_options os)) by reflexivity.
  assert (Htl : coapGetTokenLength m (plain_length token os + 1 + len_of payload)
                = Ret (len_of token)).
  { rewrite (coapGetTokenLength_spec m _ b0);
      [| unfold COAP_HDR_BYTES; lia | reflexivity | exact Hb0].
    rewrite Htkl. destruct (Z.ltb_spec (len_of token) 9); [reflexivity | lia]. }
  unfold coapGetPayload.
  replace (plain_length token os + 1 + len_of payload)
    with (plain_length token os + (1 + len_of payload)) in * by lia.
  unfold m at 1. rewrite count_with_payload by (assumption || lia).
  fold m. rewrite Htl. cbn [bind].
  set (len := plain_length token os + (1 + len_of payload)) in *.
  unfold COAP_HDR_BYTES.
  destruct (Z.ltb_spec len 4); [lia |].
  destruct (Z.ltb_spec (Z.of_nat (length os)) 0); [lia |].
  destruct (Z.ltb_spec (len_of token) 0); [lia |].
  rewrite Z.gtb_ltb.
  destruct (Z.ltb_spec len (4 + len_of token)); [lia |].
  destruct (Z.eqb_spec (4 + len_of token) len); [lia |].
  rewrite (s16_small len) by lia.
  replace (len - (4 + len_of token))
    with (len_of (wire_options os) + (1 + len_of payload)) by lia.
  rewrite (s16_small (_ + _)) by lia.
  destruct (plain_buffer_split b0 c i1 i2 token os
              (COAP_PAYLOAD_MARKER :: payload ++ rest)) as [Hm _].
  fold m in Hm. rewrite <- app_assoc in Hm.
  set (pre := [b0; c; i1; i2] ++ token) in *.
  assert (Hpre' : len_of pre = 4 + len_of token)
    by (unfold pre; rewrite len_of_app; reflexivity).
  rewrite <- Hpre'.
  assert (Hmark : rd m (len_of pre + len_of (wire_options os))
                  = Ret COAP_PAYLOAD_MARKER).
  { rewrite Hm. rewrite <- len_of_app, app_assoc, rd_app_0. apply rd_head. }
  destruct os as [| o os'].
  - change (len_of (wire_options [])) with 0 in *.
    rewrite Z.add_0_r in Hmark. rewrite Hmark. cbn [bind length Z.of_nat].
    rewrite !Z.eqb_refl. cbn [andb].
    rewrite s16_small by lia.
    do 2 f_equal; [lia | f_equal; lia].
  - apply Forall_cons in Hos as Hos'. destruct Hos' as [Ho _].
    destruct (option_byte_facts o Ho) as (Hb & _ & _).
    destruct (wire_option_head o) as [tl Htlo].
    assert (Hbyte : rd m (len_of pre) = Ret (option_byte o)).
    { rewrite Hm, rd_app_0, wire_options_cons, Htlo. apply rd_head. }
    rewrite Hbyte. cbn [bind]. unfold COAP_PAYLOAD_MARKER in *.
    destruct (Z.eqb_spec (option_byte o) 255) as [E | _]; [lia |].
    rewrite !andb_false_r.
    assert (Hfuel : exists fuel, S (length m) = (length (o :: os') + S fuel)%nat).
    { exists (length m - length (o :: os'))%nat.
      assert (Z.of_nat (length (o :: os')) <= Z.of_nat (length m)).
      { change (Z.of_nat (length m)) with (len_of m).
        rewrite Hm, !len_of_app. pose proof (len_of_nonneg pre).
        pose proof (len_of_nonneg (255 :: payload ++ rest)). lia. }
      lia. }
    destruct Hfuel as [fuel ->].
    destruct (payload_loop_prefix (o :: os') (S fuel) m pre
                (255 :: payload ++ rest) (Z.of_nat (length (o :: os')))
                (option_byte o) (1 + len_of payload))
      as (b' & Hb' & Hloop); try assumption; try lia; [discriminate |].
    rewrite Hloop. rewrite Hmark in Hb'. injection Hb' as <-.
    cbn [payload_loop pw_newLength bind pw_pointer].
    unfold COAP_PAYLOAD_MARKER.
    destruct (Z.eqb_spec (1 + len_of payload) 0); [lia |].
    cbn [Z.eqb Pos.eqb negb orb andb bind pw_newLength pw_pointer].
    destruct (Z.eqb_spec (1 + len_of payload) 0); [lia |].
    cbn [negb]. rewrite s16_small by lia.
    do 2 f_equal; [lia | f_equal; lia].
Qed.

Lemma payload_bytes_at (b0 c i1 i2 : Z) (token : list Z)
    (os : list (Z * list Z)) (payload rest : list Z) :
  rd_range
    (plain_buffer b0 c i1 i2 token os (COAP_PAYLOAD_MARKER :: payload ++ rest))
    (plain_length token os + 1) (length payload)
  = Ret payload.
Proof.
  assert (Hm : plain_buffer b0 c i1 i2 token os
                 (COAP_PAYLOAD_MARKER :: payload ++ rest)
               = ([b0; c; i1; i2] ++ token ++ wire_options os
                  ++ [COAP_PAYLOAD_MARKER]) ++ payload ++ rest).
  { unfold plain_buffer. rewrite <- !app_assoc. reflexivity. }
  assert (Hl : plain_length token os + 1
               = len_of ([b0; c; i1; i2] ++ token ++ wire_options os
                         ++ [COAP_PAYLOAD_MARKER])).
  { unfold plain_length. rewrite !len_of_app.
    change (len_of [b0; c; i1; i2]) with COAP_HDR_BYTES.
    change (len_of [COAP_PAYLOAD_MARKER]) with 1. lia. }
  rewrite Hm, Hl. apply rd_range_app.
Qed.

Lemma set_payload_at (pre old rest payload more : list Z)
    (b0 len p0 : Z) (ps : list Z) (tail : option Z) :
  rd (pre ++ old ++ rest) 0 = Ret b0 -> 0 <= b0 < 256 -> b0 mod 16 <= 8 ->
  COAP_HDR_BYTES <= len ->
  payload = p0 :: ps -> p0 <> 0 ->
  COAP_HDR_BYTES + b0 mod 16 + len_of payload <= MAX_BUFFER_SIZE ->
  length old = S (length payload) ->
  coapSetPayload (pre ++ old ++ rest) len (len_of payload) (payload ++ more)
    (len_of pre) tail
  = Ret {| ps_ret := COAP_OK;
           ps_buffer := pre ++ COAP_PAYLOAD_MARKER :: payload ++ rest;
           ps_length := u16 (len + (len_of payload + 1));
           ps_newPointer := Some (len_of pre + 1 + len_of payload) |}.
Proof.
  intros Hrd Hb Hk Hlen Hp Hp0 Hmax Hold.
  pose proof (Z.mod_pos_bound b0 16 ltac:(lia)) as Hmod.
  pose proof (len_of_nonneg payload) as Hnn.
  assert (Hpos : 0 < len_of payload).
  { rewrite Hp. unfold len_of. cbn [length]. lia. }
  unfold coapSetPayload.
  destruct (Z.ltb_spec len COAP_HDR_BYTES); [lia |].
  rewrite (coapGetTokenLength_spec _ len b0) by assumption.
  destruct (Z.ltb_spec (b0 mod 16) 9); [| lia]. cbn [bind].
  rewrite (u8_small (b0 mod 16)) by lia.
  destruct (Z.ltb_spec (b0 mod 16) 0); [lia |].
  destruct (Z.leb_spec (len_of payload) 0); [lia |].
  unfold MAX_BUFFER_SIZE, COAP_HDR_BYTES in *.
  destruct (Z.geb_spec (len_of payload) 1460); [lia |].
  destruct (Z.gtb_spec (4 + b0 mod 16 + len_of payload) 1460); [lia |].
  cbn [orb].
  assert (Hfirst : rd (payload ++ more) 0 = Ret p0).
  { rewrite Hp. cbn [app]. apply rd_head. }
  rewrite Hfirst. cbn [bind].
  destruct (Z.eqb_spec p0 0); [contradiction |]. cbn [negb].
  destruct old as [| x old']; [discriminate |].
  cbn [app]. rewrite wr_app_0. cbn [bind].
  rewrite (snoc_app pre (old' ++ rest)), <- (len_of_snoc pre COAP_PAYLOAD_MARKER).
  rewrite memcpy_app by (cbn [length] in Hold; lia). cbn [bind].
  rewrite <- app_assoc, len_of_snoc. reflexivity.
Qed.

(** X16: coapSetPayload writes the marker 0xFF at the insertion point and the
    payload behind it, adds the payload length plus 1 to the length counter
    and moves the tail pointer behind the payload, for a payload whose first
    byte is not 0 and that fits MAX_BUFFER_SIZE together with header and
    token. *)
Theorem coapSetPayload_appends (pre old rest payload more : list Z)
    (b0 len p0 : Z) (ps : list Z) (tail : option Z) :
  rd (pre ++ old ++ rest) 0 = Ret b0 -> 0 <= b0 < 256 -> b0 mod 16 <= 8 ->
  COAP_HDR_BYTES <= len ->
  payload = p0 :: ps -> p0 <> 0 ->
  COAP_HDR_BYTES + b0 mod 16 + len_of payload <= MAX_BUFFER_SIZE ->
  length old = S (length payload) ->
  coapSetPayload (pre ++ old ++ rest) len (len_of payload) (payload ++ more)
    (len_of pre) tail
  = Ret {| ps_ret := COAP_OK;
           ps_buffer := pre ++ COAP_PAYLOAD_MARKER :: payload ++ rest;
           ps_length := u16 (len + (len_of payload + 1));
           ps_newPointer := Some (len_of pre + 1 + len_of payload) |}.
Proof. apply set_payload_at. Qed.

Lemma coapSetPayload_appends_witness :
  coapSetPayload ([0x40; 1; 0x12; 0x34] ++ [0; 0; 0] ++ [0]) 4
    (len_of [0x68; 0x69]) ([0x68; 0x69] ++ []) (len_of [0x40; 1; 0x12; 0x34]) None
  = Ret {| ps_ret := COAP_OK;
           ps_buffer :=
             [0x40; 1; 0x12; 0x34] ++ COAP_PAYLOAD_MARKER :: [0x68; 0x69] ++ [0];
           ps_length := u16 (4 + (len_of [0x68; 0x69] + 1));
           ps_newPointer :=
             Some (len_of [0x40; 1; 0x12; 0x34] + 1 + len_of [0x68; 0x69]) |}.
Proof.
  apply (coapSetPayload_appends [0x40; 1; 0x12; 0x34] [0; 0; 0] [0] [0x68; 0x69]
           [] 0x40 4 0x68 [0x69] None).
  - reflexivity.
  - lia.
  - vm_compute; discriminate.
  - vm_compute; discriminate.
  - reflexivity.
  - lia.
  - vm_compute; discriminate.
  - reflexivity.
Defined.



(** The last option of a walk with no byte behind it: the walk moves the
    pointer to the end of the array and reads the byte there. *)
Lemma count_loop_last_undef (fuel : nat) (m pre : list Z) (o : Z * list Z)
    (count : Z) :
  option_ok o -> m = pre ++ wire_option o ->
  count_loop (S fuel) m (option_byte o)
    {| w_pointer := len_of pre; w_newLength := len_of (wire_option o);
       w_count := count |}
  = Undef.
Proof.
  intros Ho Hm.
  destruct (option_byte_facts o Ho) as (Hb & Hhi & Hlo).
  pose proof (wire_option_length o) as Hwl.
  pose proof (len_of_nonneg (snd o)) as Hnn.
  destruct Ho as [Hd Hl].
  assert (Hend : rd m (len_of pre + len_of (wire_option o)) = Undef).
  { apply rd_outside. rewrite Hm, len_of_app. lia. }
  cbn [count_loop w_newLength]. unfold COAP_PAYLOAD_MARKER.
  destruct (Z.eqb_spec (option_byte o) 255) as [E | _]; [lia |].
  destruct (Z.eqb_spec (len_of (wire_option o)) 0) as [E | _];
    [destruct (len_of (snd o) <? 13); lia |].
  cbn [negb andb]. rewrite Hlo.
  destruct (Z.ltb_spec (len_of (snd o)) 13) as [Hshort | Hlong].
  - rewrite (u8_small (len_of (snd o))) by lia.
    destruct (Z.eqb_spec (len_of (snd o)) 15); [lia |].
    destruct (Z.eqb_spec (len_of (snd o)) 14); [lia |].
    destruct (Z.eqb_spec (len_of (snd o)) 13); [lia |].
    cbn [bind]. unfold count_default. cbn [w_pointer w_newLength w_count].
    replace (len_of pre + (len_of (snd o) + 1))
      with (len_of pre + len_of (wire_option o)) by lia.
    rewrite Hend. reflexivity.
  - rewrite (u8_small 13) by lia. cbn [Z.eqb Pos.eqb].
    unfold count_case_0D. cbn [w_pointer w_newLength w_count].
    assert (Hext : rd m (len_of pre + 1) = Ret (len_of (snd o) - 13)).
    { rewrite Hm, rd_app_r by lia. unfold wire_option.
      destruct (Z.ltb_spec (len_of (snd o)) 13); [lia |].
      cbn [app]. apply rd_second. }
    rewrite Hext. cbn [bind w_pointer w_newLength w_count].
    replace (len_of (snd o) - 13 + 13) with (len_of (snd o)) by lia.
    rewrite (u8_small (len_of (snd o))) by lia.
    replace (len_of pre + 1 + (len_of (snd o) + 1))
      with (len_of pre + len_of (wire_option o)) by lia.
    rewrite Hend. reflexivity.
Qed.

(** With options and no byte behind the message, the count reads the byte
    behind the array. *)
Lemma count_reads_behind (b0 c i1 i2 : Z) (token : list Z)
    (os : list (Z * list Z)) :
  0 <= b0 < 256 -> b0 mod 16 = len_of token -> len_of token <= 8 ->
  Forall option_ok os -> os <> [] -> plain_length token os < 65536 ->
  coapGetOptionCount (plain_buffer b0 c i1 i2 token os []) (plain_length token os)
  = Undef.
Proof.
  intros Hb0 Htkl Htoken Hos Hne Hlen.
  destruct (exists_last Hne) as (os' & o & ->).
  apply Forall_app in Hos as [Hos' Ho].
  apply Forall_cons in Ho as [Ho _].
  pose proof (len_of_nonneg token) as H1.
  pose proof (len_of_nonneg (wire_options os')) as H2.
  pose proof (wire_options_length os') as H3.
  pose proof (wire_option_length o) as Hwl.
  pose proof (len_of_nonneg (snd o)) as Hnn.
  assert (Hw1 : 1 <= len_of (wire_option o))
    by (rewrite Hwl; destruct (len_of (snd o) <? 13); lia).
  set (m := plain_buffer b0 c i1 i2 token (os' ++ [o]) []).
  set (len := plain_length token (os' ++ [o])).
  assert (Hl : len = 4 + len_of token + len_of (wire_options os')
                     + len_of (wire_option o)).
  { unfold len, plain_length, COAP_HDR_BYTES.
    rewrite wire_options_app, len_of_app. lia. }
  fold len in Hlen.
  assert (Hm : m = ([b0; c; i1; i2] ++ token) ++ wire_options os'
                   ++ wire_option o).
  { unfold m, plain_buffer. rewrite wire_options_app, app_nil_r, <- !app_assoc.
    reflexivity. }
  assert (Htl : coapGetTokenLength m len = Ret (len_of token)).
  { rewrite (coapGetTokenLength_spec m len b0);
      [| unfold COAP_HDR_BYTES; lia | reflexivity | exact Hb0].
    rewrite Htkl. destruct (Z.ltb_spec (len_of token) 9); [reflexivity | lia]. }
  unfold coapGetOptionCount. rewrite Htl. cbn [bind].
  destruct (Z.ltb_spec len COAP_HDR_BYTES); [unfold COAP_HDR_BYTES in *; lia |].
  destruct (Z.ltb_spec (len_of token) 0); [lia |].
  destruct (Z.eqb_spec (COAP_HDR_BYTES + len_of token) len);
    [unfold COAP_HDR_BYTES in *; lia |].
  replace (len - (COAP_HDR_BYTES + len_of token))
    with (len_of (wire_options os') + len_of (wire_option o))
    by (unfold COAP_HDR_BYTES; lia).
  rewrite u16_small by lia.
  assert (Hpre : COAP_HDR_BYTES + len_of token
                 = len_of ([b0; c; i1; i2] ++ token)).
  { rewrite len_of_app. reflexivity. }
  rewrite Hpre.
  assert (Hrd : exists b, rd m (len_of ([b0; c; i1; i2] ++ token)) = Ret b).
  { apply rd_inside. rewrite Hm, !len_of_app.
    pose proof (len_of_nonneg [b0; c; i1; i2]). lia. }
  destruct Hrd as [b Hrd]. rewrite Hrd. cbn [bind].
  assert (Hfuel : exists fuel, S (length m) = (length os' + S fuel)%nat).
  { exists (length m - length os')%nat.
    assert (Hle : (length os' <= length m)%nat).
    { rewrite Hm, !length_app. unfold len_of in H3. lia. }
    lia. }
  destruct Hfuel as [fuel ->].
  destruct (count_loop_prefix os' (S fuel) m ([b0; c; i1; i2] ++ token)
              (wire_option o) 0 b (len_of (wire_option o)))
    as (b' & Hb' & Hloop); try assumption; try lia.
  { intros E. rewrite E in Hw1. unfold len_of in Hw1. cbn [length] in Hw1. lia. }
  rewrite Hloop.
  destruct (wire_option_head o) as [tl Htlo].
  assert (Hbo : b' = option_byte o).
  { rewrite <- len_of_app in Hb'. rewrite Hm, app_assoc, rd_app_0, Htlo in Hb'.
    rewrite rd_head in Hb'. congruence. }
  subst b'. rewrite <- len_of_app.
  apply count_loop_last_undef; [exact Ho |].
  rewrite Hm, app_assoc. reflexivity.
Qed.

(** Without options the count is 0 and no option byte is read. *)
Lemma count_no_options (b0 c i1 i2 : Z) (token rest : list Z) :
  0 <= b0 < 256 -> b0 mod 16 = len_of token -> len_of token <= 8 ->
  coapGetOptionCount (plain_buffer b0 c i1 i2 token [] rest)
    (plain_length token [])
  = Ret 0.
Proof.
  intros Hb0 Htkl Htoken. pose proof (len_of_nonneg token) as H1.
  assert (Hpl : plain_length token [] = COAP_HDR_BYTES + len_of token).
  { unfold plain_length. change (len_of (wire_options [])) with 0. lia. }
  rewrite Hpl. unfold coapGetOptionCount.
  rewrite (coapGetTokenLength_spec _ _ b0);
    [| lia | reflexivity | exact Hb0].
  rewrite Htkl. destruct (Z.ltb_spec (len_of token) 9); [| lia]. cbn [bind].
  destruct (Z.ltb_spec (COAP_HDR_BYTES + len_of token) COAP_HDR_BYTES); [lia |].
  destruct (Z.ltb_spec (len_of token) 0); [lia |].
  rewrite Z.eqb_refl. reflexivity.
Qed.

(** The count of a message: without options, or with one more byte of
    the array behind it. *)
Lemma count_plain_message (b0 c i1 i2 : Z) (token : list Z)
    (os : list (Z * list Z)) (rest : list Z) :
  0 <= b0 < 256 -> b0 mod 16 = len_of token -> len_of token <= 8 ->
  Forall option_ok os -> plain_length token os < 65536 ->
  os = [] \/ rest <> [] ->
  coapGetOptionCount (plain_buffer b0 c i1 i2 token os rest)
    (plain_length token os)
  = Ret (Z.of_nat (length os)).
Proof.
  intros Hb0 Htkl Htoken Hos Hlen [-> | Hrest].
  - apply count_no_options; assumption.
  - apply coapGetOptionCount_plain; assumption.
Qed.

(** X18: coapGetOptionCount on a message without delta escape: a first byte
    0..255 whose low nibble is the token length (at most 8), three more
    header bytes, the token and options with deltas 0..12 and values of at
    most 255 bytes, the whole shorter than 65536 bytes. Given the message
    length, it returns the number of options when the message has no
    options or at least one more byte of the array lies behind it; when
    the message has options and fills the array, the walk reads the byte
    behind the array. When the marker 0xFF and a payload follow the
    options (any bytes may follow the payload), it returns the number of
    options for the length of message, marker and payload, provided that
    length is below 65536. *)
Theorem coapGetOptionCount_counts (b0 c i1 i2 : Z) (token : list Z)
    (os : list (Z * list Z)) (rest : list Z) :
  0 <= b0 < 256 -> b0 mod 16 = len_of token -> len_of token <= 8 ->
  Forall option_ok os -> plain_length token os < 65536 ->
  (os = [] \/ rest <> [] ->
   coapGetOptionCount (plain_buffer b0 c i1 i2 token os rest)
     (plain_length token os)
   = Ret (Z.of_nat (length os)))
  /\ (forall payload : list Z,
      plain_length token os + 1 + len_of payload < 65536 ->
      coapGetOptionCount
        (plain_buffer b0 c i1 i2 token os
           (COAP_PAYLOAD_MARKER :: payload ++ rest))
        (plain_length token os + 1 + len_of payload)
      = Ret (Z.of_nat (length os)))
  /\ (os <> [] ->
      coapGetOptionCount (plain_buffer b0 c i1 i2 token os [])
        (plain_length token os)
      = Undef).
Proof.
  intros Hb0 Htkl Htoken Hos Hlen.
  split; [| split].
  - intros Hrest. apply count_plain_message; assumption.
  - intros payload Hpay. pose proof (len_of_nonneg payload) as H3.
    rewrite <- Z.add_assoc. apply count_with_payload; try assumption; lia.
  - intros Hne. apply count_reads_behind; assumption.
Qed.

Lemma coapGetOptionCount_counts_witness :
  coapGetOptionCount
    (plain_buffer 0x40 1 0x12 0x34 [] [(11, [0x61]); (0, repeat 0x62 20)] [0])
    (plain_length [] [(11, [0x61]); (0, repeat 0x62 20)])
  = Ret 2
  /\ coapGetOptionCount
       (plain_buffer 0x40 1 0x12 0x34 [] [(11, [0x61]); (0, repeat 0x62 20)]
          (COAP_PAYLOAD_MARKER :: [0x68; 0x69] ++ [0]))
       (plain_length [] [(11, [0x61]); (0, repeat 0x62 20)] + 1
        + len_of [0x68; 0x69])
     = Ret 2
  /\ coapGetOptionCount
       (plain_buffer 0x40 1 0x12 0x34 [] [(11, [0x61]); (0, repeat 0x62 20)] [])
       (plain_length [] [(11, [0x61]); (0, repeat 0x62 20)])
     = Undef.
Proof.
  destruct (coapGetOptionCount_counts 0x40 1 0x12 0x34 []
              [(11, [0x61]); (0, repeat 0x62 20)] [0])
    as (Hplain & Hpayload & Hbehind).
  - lia.
  - reflexivity.
  - vm_compute; discriminate.
  - repeat constructor; cbn; try lia; vm_compute; discriminate.
  - vm_compute; reflexivity.
  - split; [apply Hplain; right; discriminate |].
    split; [apply (Hpayload [0x68; 0x69]); vm_compute; reflexivity |].
    apply Hbehind. discriminate.
Defined.



(** ** An index behind the last option *)

Lemma getopt_loop_marker (os : list (Z * list Z)) :
  forall (m pre rest : list Z) (newLength : Z) (g : getopt),
  Forall option_ok os ->
  m = pre ++ wire_options os ++ COAP_PAYLOAD_MARKER :: rest ->
  newLength <> 0 ->
  go_pointer g = Some (len_of pre) ->
  getopt_loop (S (length os)) m newLength g
  = Ret (inl COAP_FOUND_PAYLOAD_MARKER).
Proof.
  induction os as [| o os IH]; intros m pre rest newLength g Hok Hm Hlen Hp.
  - cbn [length getopt_loop]. rewrite Hp.
    cbn [wire_options flat_map app] in Hm.
    rewrite Hm, rd_app_0, rd_head. cbn [bind]. rewrite Z.eqb_refl. reflexivity.
  - apply Forall_cons in Hok as [Ho Hok].
    rewrite wire_options_cons in Hm.
    change (length (o :: os)) with (S (length os)).
    remember (S (length os)) as n eqn:En.
    cbn [getopt_loop]. rewrite Hp.
    destruct (option_byte_facts o Ho) as (Hb & _ & _).
    destruct (wire_option_head o) as [tl Htl].
    assert (Hbyte : rd m (len_of pre) = Ret (option_byte o)).
    { rewrite Hm, rd_app_0, <- app_assoc, Htl. apply rd_head. }
    rewrite Hbyte. cbn [bind]. unfold COAP_PAYLOAD_MARKER.
    destruct (Z.eqb_spec (option_byte o) 255) as [E | _]; [lia |].
    rewrite (coapDecodeOption_plain m pre (wire_options os ++ 255 :: rest)
               o newLength (go_optionNumber g) Ho);
      [| rewrite Hm, <- app_assoc; reflexivity | exact Hlen].
    cbn [bind dec_ret dec_number dec_data dec_new].
    pose proof (len_of_nonneg (snd o)) as Hnn. destruct Ho as [Hd Hl].
    rewrite (u8_small (len_of (snd o))) by lia.
    destruct (Z.ltb_spec (len_of (snd o)) 0); [lia |].
    subst n.
    apply (IH m (pre ++ wire_option o) rest); try assumption.
    + rewrite Hm, <- !app_assoc. reflexivity.
    + cbn. rewrite len_of_app. reflexivity.
Qed.

(** X20: An index one behind the last option. The buffer holds a first byte
    0..255 whose low nibble is the token length (at most 8), three more
    header bytes, the token and k options written without delta escape
    (deltas 0..12, values of at most 255 bytes), followed by the payload
    marker 0xFF and any bytes; k is at most 254, so that the index k + 1
    fits the uint8_t parameter, and the claimed length is above 4 + token
    length and below 65536. Then coapGetOption with index k + 1 returns
    COAP_FOUND_PAYLOAD_MARKER from inside its loop and writes neither the
    option number nor the data pointer. *)
Theorem coapGetOption_behind_last (b0 c i1 i2 : Z) (token : list Z)
    (os : list (Z * list Z)) (rest : list Z) (len : Z) :
  0 <= b0 < 256 -> b0 mod 16 = len_of token -> len_of token <= 8 ->
  Forall option_ok os -> (length os < 255)%nat ->
  COAP_HDR_BYTES + len_of token < len < 65536 ->
  coapGetOption
    (plain_buffer b0 c i1 i2 token os (COAP_PAYLOAD_MARKER :: rest)) len
    (Z.of_nat (S (length os)))
  = Ret {| got_ret := COAP_FOUND_PAYLOAD_MARKER;
           got_number := None; got_data := None |}.
Proof.
  intros Hb0 Htkl Htoken Hos Hidx Hlen.
  pose proof (len_of_nonneg token) as H1.
  set (m := plain_buffer b0 c i1 i2 token os (COAP_PAYLOAD_MARKER :: rest)).
  assert (Htl : coapGetTokenLength m len = Ret (len_of token)).
  { rewrite (coapGetTokenLength_spec m len b0);
      [| lia | reflexivity | exact Hb0].
    rewrite Htkl. destruct (Z.ltb_spec (len_of token) 9); [reflexivity | lia]. }
  unfold coapGetOption. rewrite Htl. cbn [bind].
  destruct (Z.ltb_spec len COAP_HDR_BYTES); [lia |].
  destruct (Z.ltb_spec (len_of token) 0); [lia |].
  destruct (Z.eqb_spec (len - (COAP_HDR_BYTES + len_of token)) 0); [lia |].
  rewrite (u8_small (Z.of_nat (S (length os)))) by lia. rewrite Nat2Z.id.
  rewrite (getopt_loop_marker os m ([b0; c; i1; i2] ++ token) rest);
    try assumption.
  - reflexivity.
  - unfold m, plain_buffer. rewrite <- !app_assoc. reflexivity.
  - rewrite u16_small by (unfold COAP_HDR_BYTES in *; lia).
    unfold COAP_HDR_BYTES in *. lia.
  - cbn [go_pointer]. rewrite len_of_app. reflexivity.
Qed.

Lemma coapGetOption_behind_last_witness :
  coapGetOption
    (plain_buffer 0x40 1 0x12 0x34 [] [(11, [0x61])]
       (COAP_PAYLOAD_MARKER :: [0x68]))
    8 (Z.of_nat (S (length [(11, [0x61])])))
  = Ret {| got_ret := COAP_FOUND_PAYLOAD_MARKER;
           got_number := None; got_data := None |}.
Proof.
  apply (coapGetOption_behind_last 0x40 1 0x12 0x34 [] [(11, [0x61])] [0x68] 8).
  - lia.
  - reflexivity.
  - vm_compute; discriminate.
  - constructor; [split; [cbn; lia | vm_compute; discriminate] | constructor].
  - cbn; lia.
  - vm_compute. split; reflexivity.
Defined.

(** ** Size of a zero-terminated buffer *)

Lemma s16_succ (a : Z) : s16 (s16 a + 1) = s16 (a + 1).
Proof.
  unfold s16.
  replace ((a + 32768) mod 65536 - 32768 + 1 + 32768)
    with ((a + 32768) mod 65536 + 1) by lia.
  rewrite Zplus_mod_idemp_l. do 2 f_equal. lia.
Qed.

Lemma size_loop_nonzero (l : list Z) :
  forall (fuel : nat) (m pre rest : list Z) (count : Z),
  Forall (fun b => b <> 0) l -> m = pre ++ l ++ rest ->
  size_loop (length l + fuel) m (len_of pre) (s16 count)
  = size_loop fuel m (len_of pre + len_of l) (s16 (count + len_of l)).
Proof.
  induction l as [| b l IH]; intros fuel m pre rest count Hnz Hm.
  - cbn [length Nat.add]. change (len_of []) with 0. rewrite !Z.add_0_r.
    reflexivity.
  - apply Forall_cons in Hnz as [Hb Hnz].
    cbn [length Nat.add size_loop].
    assert (Hrd : rd m (len_of pre) = Ret b).
    { rewrite Hm, rd_app_0. apply rd_head. }
    rewrite Hrd. cbn [bind].
    destruct (Z.eqb_spec b 0); [contradiction |]. cbn [negb].
    rewrite s16_succ, <- (len_of_snoc pre b).
    rewrite (IH fuel m (pre ++ [b]) rest (count + 1));
      [| exact Hnz | rewrite Hm, <- app_assoc; reflexivity].
    rewrite len_of_snoc.
    assert (Hc : len_of (b :: l) = 1 + len_of l)
      by (unfold len_of; cbn [length]; lia).
    rewrite Hc. f_equal; [lia | f_equal; lia].
Qed.

Lemma size_at_zero (pre rest : list Z) :
  Forall (fun b => b <> 0) pre ->
  coapGetSize (pre ++ 0 :: rest) = Ret (s16 (len_of pre)).
Proof.
  intros Hnz. unfold coapGetSize.
  assert (Hf : S (length (pre ++ 0 :: rest))
               = (length pre + S (S (length rest)))%nat).
  { rewrite length_app. cbn [length]. lia. }
  rewrite Hf. change 0 with (len_of []) at 2. change 0 with (s16 0) at 2.
  rewrite (size_loop_nonzero pre _ _ [] (0 :: rest) 0 Hnz eq_refl).
  cbn [size_loop]. change (len_of [] + len_of pre) with (len_of pre).
  cbn [app]. rewrite rd_app_0, rd_head. cbn [bind]. reflexivity.
Qed.

Lemma size_without_zero (m : list Z) :
  Forall (fun b => b <> 0) m -> coapGetSize m = Undef.
Proof.
  intros Hnz. unfold coapGetSize.
  replace (S (length m)) with (length m + 1)%nat by lia.
  change 0 with (len_of []) at 1. change 0 with (s16 0).
  rewrite (size_loop_nonzero m _ _ [] [] 0 Hnz);
    [| rewrite app_nil_r; reflexivity].
  cbn [size_loop]. rewrite rd_outside; [reflexivity |].
  change (len_of []) with 0. lia.
Qed.

(** X21: coapGetSize counts the bytes in front of the first zero byte, in an
    int16_t (so the count is the number of bytes when that is below 32768); on
    an array without a zero byte it reads behind the array. *)
Theorem coapGetSize_zero_terminated (pre rest m : list Z) :
  Forall (fun b => b <> 0) pre -> Forall (fun b => b <> 0) m ->
  coapGetSize (pre ++ 0 :: rest) = Ret (s16 (len_of pre))
  /\ (len_of pre < 32768 -> coapGetSize (pre ++ 0 :: rest) = Ret (len_of pre))
  /\ coapGetSize m = Undef.
Proof.
  intros Hpre Hm. split; [apply size_at_zero; exact Hpre |].
  split; [| apply size_without_zero; exact Hm].
  intros Hlen. rewrite size_at_zero by exact Hpre.
  rewrite s16_small; [reflexivity |]. pose proof (len_of_nonneg pre). lia.
Qed.

Lemma coapGetSize_zero_terminated_witness :
  coapGetSize ([0x40; 0x01] ++ 0 :: [0x34; 0xB1; 0x61])
  = Ret (s16 (len_of [0x40; 0x01]))
  /\ (len_of [0x40; 0x01] < 32768 ->
      coapGetSize ([0x40; 0x01] ++ 0 :: [0x34; 0xB1; 0x61])
      = Ret (len_of [0x40; 0x01]))
  /\ coapGetSize [0x40; 0x01; 0x12; 0x34] = Undef.
Proof.
  apply (coapGetSize_zero_terminated [0x40; 0x01] [0x34; 0xB1; 0x61]
           [0x40; 0x01; 0x12; 0x34]).
  - repeat constructor; lia.
  - repeat constructor; lia.
Defined.

(** ** The validator on option regions without a delta escape *)

Lemma wire_options_concat (os1 os2 : list (Z * list Z)) :
  wire_options (os1 ++ os2) = wire_options os1 ++ wire_options os2.
Proof. unfold wire_options. apply flat_map_app. Qed.

Lemma get_option_prefix_ok (b0 c i1 i2 : Z) (token : list Z)
    (os1 os2 : list (Z * list Z)) (rest : list Z) (len : Z) :
  0 <= b0 < 256 -> b0 mod 16 = len_of token -> len_of token <= 8 ->
  Forall option_ok os1 -> (length os1 <= 255)%nat ->
  COAP_HDR_BYTES + len_of token < len < 65536 ->
  exists g,
    coapGetOption (plain_buffer b0 c i1 i2 token (os1 ++ os2) rest) len
      (Z.of_nat (length os1)) = Ret g
    /\ 0 <= got_ret g.
Proof.
  intros Hb0 Htkl Htoken Hos Hidx Hlen.
  pose proof (len_of_nonneg token) as H1.
  set (m := plain_buffer b0 c i1 i2 token (os1 ++ os2) rest).
  assert (Htl : coapGetTokenLength m len = Ret (len_of token)).
  { rewrite (coapGetTokenLength_spec m len b0);
      [| lia | reflexivity | exact Hb0].
    rewrite Htkl. destruct (Z.ltb_spec (len_of token) 9); [reflexivity | lia]. }
  unfold coapGetOption. rewrite Htl. cbn [bind].
  destruct (Z.ltb_spec len COAP_HDR_BYTES); [lia |].
  destruct (Z.ltb_spec (len_of token) 0); [lia |].
  destruct (Z.eqb_spec (len - (COAP_HDR_BYTES + len_of token)) 0); [lia |].
  rewrite (u8_small (Z.of_nat (length os1))) by lia. rewrite Nat2Z.id.
  match goal with |- context [getopt_loop _ _ ?nl ?s] =>
    destruct (getopt_loop_plain os1 m ([b0; c; i1; i2] ++ token)
                (wire_options os2 ++ rest) nl s) as [g' [Hloop _]]
  end; try assumption.
  - unfold m, plain_buffer. rewrite wire_options_concat, <- !app_assoc.
    reflexivity.
  - rewrite u16_small by (unfold COAP_HDR_BYTES in *; lia).
    unfold COAP_HDR_BYTES in *. lia.
  - cbn [go_pointer]. rewrite len_of_app. reflexivity.
  - cbn [go_optionNumber]. lia.
  - rewrite Hloop. cbn [bind].
    apply getopt_loop_ret in Hloop; [| cbn [go_optionLength]; lia].
    eexists. split; [reflexivity | exact Hloop].
Qed.

Lemma validate_options_plain (b0 c i1 i2 : Z) (token : list Z)
    (os : list (Z * list Z)) (rest : list Z) (len : Z) :
  0 <= b0 < 256 -> b0 mod 16 = len_of token -> len_of token <= 8 ->
  Forall option_ok os ->
  COAP_HDR_BYTES + len_of token < len < 65536 ->
  forall (n i : nat), (i + n <= length os)%nat -> (i + n <= 256)%nat ->
  validate_options n (plain_buffer b0 c i1 i2 token os rest) len (Z.of_nat i)
  = Ret COAP_OK.
Proof.
  intros Hb0 Htkl Htoken Hos Hlen.
  induction n as [| n IH]; intros i Hi Hu; [reflexivity |].
  cbn [validate_options]. rewrite u8_small by lia.
  assert (Hsplit : os = take i os ++ drop i os) by (symmetry; apply take_drop).
  assert (Hli : length (take i os) = i) by (rewrite length_take; lia).
  destruct (get_option_prefix_ok b0 c i1 i2 token (take i os) (drop i os) rest len)
    as (g & Hg & Hret); try assumption.
  { apply Forall_take. exact Hos. }
  { lia. }
  rewrite <- Hsplit, Hli in Hg. rewrite Hg. cbn [bind].
  destruct (Z.ltb_spec (got_ret g) 0); [lia |].
  replace (Z.of_nat i + 1) with (Z.of_nat (S i)) by lia.
  apply IH; lia.
Qed.

Lemma validate_plain (b0 c i1 i2 : Z) (token : list Z)
    (os : list (Z * list Z)) (rest : list Z) (len : Z) :
  64 <= b0 < 128 -> b0 mod 16 = len_of token -> len_of token <= 8 ->
  Forall option_ok os -> (length os <= 256)%nat ->
  COAP_HDR_BYTES <= len ->
  (os <> [] -> COAP_HDR_BYTES + len_of token < len < 65536) ->
  coapGetOptionCount (plain_buffer b0 c i1 i2 token os rest) len
  = Ret (Z.of_nat (length os)) ->
  coapValidatePacket (plain_buffer b0 c i1 i2 token os rest) len = Ret COAP_OK.
Proof.
  intros Hb0 Htkl Htoken Hos Hn Hlen Hne Hcount.
  assert (Hh : validate_header (plain_buffer b0 c i1 i2 token os rest) len
               = Ret None).
  { rewrite (validate_header_spec _ len b0) by (assumption || reflexivity).
    assert (Hv : Z.shiftr b0 6 = 1).
    { rewrite Z.shiftr_div_pow2 by lia. change (2 ^ 6) with 64.
      symmetry. apply (Z.div_unique b0 64 1 (b0 - 64)); lia. }
    rewrite Hv. reflexivity. }
  unfold coapValidatePacket. rewrite Hh. cbn [bind].
  destruct (len =? COAP_HDR_BYTES); [reflexivity |].
  rewrite Hcount. cbn [bind].
  destruct (Z.ltb_spec (Z.of_nat (length os)) 0); [lia |].
  rewrite Nat2Z.id.
  destruct os as [| o os'] eqn:Eos; [reflexivity |]. rewrite <- Eos in *.
  change 0 with (Z.of_nat 0).
  apply (validate_options_plain b0 c i1 i2 token os rest len);
    try assumption; try lia.
  apply Hne. rewrite Eos. discriminate.
Qed.

(** X22: coapValidatePacket returns COAP_OK for every message with version 1
    and without delta escape: a first byte 64..127 whose low nibble is the
    token length (at most 8), three more header bytes, the token and at
    most 256 options with deltas 0..12 and values of at most 255 bytes,
    the whole shorter than 65536 bytes. This holds for the message given
    with its length when it has no options or at least one more byte of
    the array lies behind it, and for the message followed by the marker
    0xFF and a payload (any bytes may follow the payload), given with the
    length of message, marker and payload, provided that length is below
    65536. *)
Theorem coapValidatePacket_accepts (b0 c i1 i2 : Z) (token : list Z)
    (os : list (Z * list Z)) (rest : list Z) :
  64 <= b0 < 128 -> b0 mod 16 = len_of token -> len_of token <= 8 ->
  Forall option_ok os -> (length os <= 256)%nat ->
  plain_length token os < 65536 ->
  (os = [] \/ rest <> [] ->
   coapValidatePacket (plain_buffer b0 c i1 i2 token os rest)
     (plain_length token os)
   = Ret COAP_OK)
  /\ (forall payload : list Z,
      plain_length token os + 1 + len_of payload < 65536 ->
      coapValidatePacket
        (plain_buffer b0 c i1 i2 token os
           (COAP_PAYLOAD_MARKER :: payload ++ rest))
        (plain_length token os + 1 + len_of payload)
      = Ret COAP_OK).
Proof.
  intros Hb0 Htkl Htoken Hos Hn Hlen.
  pose proof (len_of_nonneg token) as H1.
  pose proof (len_of_nonneg (wire_options os)) as H3.
  pose proof (wire_options_length os) as H4.
  assert (Hpl : plain_length token os
                = 4 + len_of token + len_of (wire_options os)) by reflexivity.
  split.
  - intros Hrest. apply validate_plain; try assumption.
    + unfold COAP_HDR_BYTES. lia.
    + intros Hne. unfold COAP_HDR_BYTES.
      destruct os; [contradiction | cbn [length] in H4; lia].
    + apply count_plain_message; try assumption; lia.
  - intros payload Hpay. pose proof (len_of_nonneg payload) as H2.
    apply validate_plain; try assumption.
    + unfold COAP_HDR_BYTES. lia.
    + intros _. unfold COAP_HDR_BYTES. lia.
    + rewrite <- Z.add_assoc. apply count_with_payload; try assumption; lia.
Qed.

Lemma coapValidatePacket_accepts_witness :
  coapValidatePacket (plain_buffer 0x40 1 0x12 0x34 [] [(11, [0x61])] [0])
    (plain_length [] [(11, [0x61])])
  = Ret COAP_OK
  /\ coapValidatePacket
       (plain_buffer 0x40 1 0x12 0x34 [] [(11, [0x61])]
          (COAP_PAYLOAD_MARKER :: [0x68; 0x69] ++ [0]))
       (plain_length [] [(11, [0x61])] + 1 + len_of [0x68; 0x69])
     = Ret COAP_OK.
Proof.
  destruct (coapValidatePacket_accepts 0x40 1 0x12 0x34 [] [(11, [0x61])] [0])
    as (Hplain & Hpayload).
  - lia.
  - reflexivity.
  - vm_compute; discriminate.
  - constructor; [split; [cbn; lia | vm_compute; discriminate] | constructor].
  - cbn; lia.
  - vm_compute; reflexivity.
  - split; [apply Hplain; right; discriminate |].
    apply (Hpayload [0x68; 0x69]). vm_compute; reflexivity.
Defined.

(** ** What coapAddOption refuses *)

(** X23: What coapAddOption refuses. The array holds a message (first byte
    0..255 with the token length, at most 8, as low nibble; three more
    header bytes; the token; at most 127 options with deltas 0..12 and
    values of at most 255 bytes) followed by at least one more byte; if
    options exist, the number of the last one (the sum of the deltas) is
    1..255. Called with the message length and a non-null tail pointer,
    coapAddOption answers a number that coapOptionIsValid refuses (2, 9,
    10, 128, 132, 136, 140) with COAP_INVALID_OPTION. It answers an
    accepted number that is 0..127 above the last one (above 0 without
    options), given with an optionLength of 0..255 and a tail pointer that
    is not where coapAddOption expects it (the start of the buffer for the
    first option, the end of the message for a later one), with
    COAP_INVALID_PACKET; this test comes after the order check. In both
    cases buffer, length counter and tail pointer are left as they were. *)
Theorem coapAddOption_rejects (b0 c i1 i2 : Z) (token : list Z)
    (os : list (Z * list Z)) (rest : list Z)
    (number optionLength p : Z) (pOptionData : list Z) :
  0 <= b0 < 256 -> b0 mod 16 = len_of token -> len_of token <= 8 ->
  Forall option_ok os -> (length os <= 127)%nat -> rest <> [] ->
  (os <> [] -> 0 < last_number os <= 255) ->
  (coapOptionIsValid number = false ->
   coapAddOption (plain_buffer b0 c i1 i2 token os rest) (plain_length token os)
     number optionLength pOptionData (Some p)
   = Ret {| add_ret := COAP_INVALID_OPTION;
            add_buffer := plain_buffer b0 c i1 i2 token os rest;
            add_length := plain_length token os;
            add_newPointer := Some p |})
  /\ (coapOptionIsValid number = true ->
      0 <= number - last_number os <= 127 -> 0 <= optionLength < 256 ->
      p <> match os with [] => 0 | _ :: _ => plain_length token os end ->
      coapAddOption (plain_buffer b0 c i1 i2 token os rest)
        (plain_length token os) number optionLength pOptionData (Some p)
      = Ret {| add_ret := COAP_INVALID_PACKET;
               add_buffer := plain_buffer b0 c i1 i2 token os rest;
               add_length := plain_length token os;
               add_newPointer := Some p |}).
Proof.
  intros Hb0 Htkl Htoken Hos Hcount Hrest Hlast.
  pose proof (len_of_nonneg token) as H1.
  pose proof (len_of_nonneg (wire_options os)) as H2.
  pose proof (wire_options_bound os Hos) as H4.
  pose proof (last_number_nonneg os Hos) as H5.
  assert (Hpl0 : plain_length token os
                 = 4 + len_of token + len_of (wire_options os))
    by reflexivity.
  assert (Hlen : plain_length token os < 65536) by lia.
  set (m := plain_buffer b0 c i1 i2 token os rest).
  assert (Htl : coapGetTokenLength m (plain_length token os) = Ret (len_of token))
    by (apply plain_token_length; assumption).
  assert (Hc : coapGetOptionCount m (plain_length token os)
               = Ret (Z.of_nat (length os)))
    by (apply coapGetOptionCount_plain; assumption).
  split.
  - intros Hinvalid. unfold coapAddOption.
    destruct (Z.ltb_spec (plain_length token os) COAP_HDR_BYTES) as [E | _];
      [unfold COAP_HDR_BYTES in E; lia |].
    fold m. rewrite Htl, Hc. cbn [bind].
    rewrite (u8_small (len_of token)) by lia.
    rewrite (s8_small (Z.of_nat (length os))) by lia.
    destruct (Z.ltb_spec (len_of token) 0); [lia |].
    destruct (Z.ltb_spec (Z.of_nat (length os)) 0); [lia |].
    rewrite Hinvalid. reflexivity.
  - intros Hvalid Hd HL Hp.
    unfold coapAddOption.
    destruct (Z.ltb_spec (plain_length token os) COAP_HDR_BYTES) as [E | _];
      [unfold COAP_HDR_BYTES in E; lia |].
    rewrite Htl, Hc. cbn [bind].
    rewrite (u8_small (len_of token)) by lia.
    rewrite (s8_small (Z.of_nat (length os))) by lia.
    destruct (Z.ltb_spec (len_of token) 0); [lia |].
    destruct (Z.ltb_spec (Z.of_nat (length os)) 0); [lia |].
    rewrite Hvalid. cbn [negb].
    match goal with |- bind ?x _ = _ =>
      assert (Hprev : exists pv np, x = Ret (pv, Some np)
                        /\ u8 pv = last_number os
                        /\ np <> plain_length token os) end.
    { set (t := match os with [] => 0 | _ :: _ => plain_length token os end)
        in Hp.
      assert (Ht : (os = [] /\ t = 0)
                   \/ (os <> [] /\ t = plain_length token os)).
      { unfold t. clear. destruct os; [left | right]; split;
          try reflexivity; discriminate. }
      clearbody t.
      destruct Ht as [[Hnil Ht] | [Hne Ht]].
      - assert (Hc0 : Z.of_nat (length os) = 0) by (rewrite Hnil; reflexivity).
        assert (Hw0 : len_of (wire_options os) = 0) by (rewrite Hnil; reflexivity).
        assert (Hl0 : last_number os = 0) by (rewrite Hnil; reflexivity).
        rewrite Hc0. cbn [Z.gtb Z.compare].
        exists 0, (p + (COAP_HDR_BYTES + len_of token)).
        split; [reflexivity |]. split; [rewrite Hl0; reflexivity |].
        unfold COAP_HDR_BYTES. lia.
      - assert (Hc0 : 0 < Z.of_nat (length os)).
        { destruct os; [contradiction | cbn [length]; lia]. }
        rewrite Z.gtb_ltb.
        destruct (Z.ltb_spec 0 (Z.of_nat (length os))); [| lia].
        rewrite (u8_small (Z.of_nat (length os))) by lia.
        destruct (coapGetOption_plain b0 c i1 i2 token os rest)
          as (g & Hg & _ & Hgn); try assumption; [lia | apply Hlast; exact Hne |].
        fold m in Hg. rewrite Hg. cbn [bind]. rewrite Hgn.
        destruct (Z.eqb_spec (last_number os) 0) as [E | _];
          [specialize (Hlast Hne); lia |].
        exists (s8 (last_number os)), p. split; [reflexivity |].
        split; [rewrite u8_s8; apply u8_small; specialize (Hlast Hne); lia |].
        lia. }
    destruct Hprev as (pv & np & -> & Hpvu & Hnp). cbn [bind]. rewrite Hpvu.
    rewrite header_length_value by (assumption || lia).
    set (hl := 1 + (if number - last_number os <? 13 then 0 else 1)
               + (if optionLength <? 13 then 0 else 1)).
    assert (Hhl : 1 <= hl <= 3).
    { unfold hl. destruct (number - last_number os <? 13),
        (optionLength <? 13); lia. }
    rewrite (s8_small hl) by lia.
    destruct (Z.ltb_spec hl 0); [lia |].
    unfold MAX_BUFFER_SIZE, COAP_HDR_BYTES.
    destruct (Z.gtb_spec (4 + len_of token + optionLength + hl) 1460); [lia |].
    destruct (Z.eqb_spec np (plain_length token os)); [contradiction |].
    cbn [negb andb]. rewrite bool_decide_eq_true_2 by discriminate.
    reflexivity.
Qed.

Lemma coapAddOption_rejects_witness :
  (coapOptionIsValid 12 = false ->
   coapAddOption (plain_buffer 0x40 1 0x12 0x34 [] [(11, [0x61])] [0; 0; 0])
     (plain_length [] [(11, [0x61])]) 12 1 [0x32] (Some 4)
   = Ret {| add_ret := COAP_INVALID_OPTION;
            add_buffer := plain_buffer 0x40 1 0x12 0x34 [] [(11, [0x61])] [0; 0; 0];
            add_length := plain_length [] [(11, [0x61])];
            add_newPointer := Some 4 |})
  /\ (coapOptionIsValid 12 = true ->
      0 <= 12 - last_number [(11, [0x61])] <= 127 -> 0 <= 1 < 256 ->
      4 <> match [(11, [0x61])] with
           | [] => 0
           | _ :: _ => plain_length [] [(11, [0x61])]
           end ->
      coapAddOption (plain_buffer 0x40 1 0x12 0x34 [] [(11, [0x61])] [0; 0; 0])
        (plain_length [] [(11, [0x61])]) 12 1 [0x32] (Some 4)
      = Ret {| add_ret := COAP_INVALID_PACKET;
               add_buffer :=
                 plain_buffer 0x40 1 0x12 0x34 [] [(11, [0x61])] [0; 0; 0];
               add_length := plain_length [] [(11, [0x61])];
               add_newPointer := Some 4 |}).
Proof.
  apply (coapAddOption_rejects 0x40 1 0x12 0x34 [] [(11, [0x61])] [0; 0; 0]
           12 1 4 [0x32]).
  - lia.
  - reflexivity.
  - vm_compute; discriminate.
  - constructor; [split; [cbn; lia | vm_compute; discriminate] | constructor].
  - cbn; lia.
  - discriminate.
  - intros _. vm_compute. split; [reflexivity | discriminate].
Defined.

(** ** A delta of 13 or more *)

Lemma option_header_byte_13 (l : Z) :
  0 <= l <= 13 -> u8 (Z.lor (Z.shiftl (Z.land 0x0D 0x0F) 4) l) = 13 * 16 + l.
Proof.
  intros Hl. change (Z.land 13 15) with 13.
  rewrite lor_shiftl_4 by lia. apply u8_small. lia.
Qed.

Lemma build_header_escape_short (m pre rest : list Z)
    (x y len number previous L hl tl : Z) :
  COAP_HDR_BYTES <= len ->
  coapOptionIsValid number = true -> coapOptionIsValid previous = true ->
  coapGetTokenLength m len = Ret tl -> 0 <= tl <= 8 ->
  13 <= number - previous <= 255 -> 0 <= L < 13 -> 0 <= hl <= 3 ->
  m = pre ++ x :: y :: rest ->
  coapBuildOptionHeader m len number previous L hl (len_of pre)
  = Ret (s8 (len_of pre + 1),
         pre ++ (13 * 16 + L) :: u8 (number - 13) :: rest, len_of pre + 1).
Proof.
  intros Hlen Hv Hp Htl Htr Hd HL Hhl Hm.
  unfold coapBuildOptionHeader.
  destruct (Z.ltb_spec len COAP_HDR_BYTES); [lia |].
  rewrite Hv, Hp. cbn [negb orb]. rewrite Htl. cbn [bind].
  destruct (Z.ltb_spec tl 0); [lia |].
  unfold COAP_HDR_BYTES, MAX_BUFFER_SIZE.
  destruct (Z.gtb_spec (4 + tl + L + hl) 1460); [lia |].
  rewrite (u8_small (number - previous)) by lia.
  destruct (Z.ltb_spec (number - previous) 0); [lia |].
  destruct (Z.ltb_spec (number - previous) 13); [lia |].
  destruct (Z.geb_spec (number - previous) 13); [| lia].
  destruct (Z.ltb_spec (number - previous) 269); [| lia]. cbn [andb].
  rewrite Hm. rewrite (snoc_app pre (y :: rest) x).
  rewrite <- (len_of_snoc pre x), wr_app_0. cbn [bind].
  destruct (Z.geb_spec L 13); [lia |]. cbn [andb].
  destruct (Z.geb_spec L 269); [lia |]. cbn [bind].
  rewrite <- (snoc_app pre (_ :: rest) x), wr_app_0. cbn [bind].
  rewrite option_header_byte_13 by lia.
  rewrite len_of_snoc. reflexivity.
Qed.

Lemma build_header_escape_long (m pre rest : list Z)
    (x y len number previous L hl tl : Z) :
  COAP_HDR_BYTES <= len ->
  coapOptionIsValid number = true -> coapOptionIsValid previous = true ->
  coapGetTokenLength m len = Ret tl -> 0 <= tl <= 8 ->
  13 <= number - previous <= 255 -> 13 <= L <= 255 -> 0 <= hl <= 3 ->
  m = pre ++ x :: y :: rest ->
  coapBuildOptionHeader m len number previous L hl (len_of pre)
  = Ret (s8 (len_of pre + 2),
         pre ++ (13 * 16 + 13) :: (L - 13) :: rest, len_of pre + 2).
Proof.
  intros Hlen Hv Hp Htl Htr Hd HL Hhl Hm.
  unfold coapBuildOptionHeader.
  destruct (Z.ltb_spec len COAP_HDR_BYTES); [lia |].
  rewrite Hv, Hp. cbn [negb orb]. rewrite Htl. cbn [bind].
  destruct (Z.ltb_spec tl 0); [lia |].
  unfold COAP_HDR_BYTES, MAX_BUFFER_SIZE.
  destruct (Z.gtb_spec (4 + tl + L + hl) 1460); [lia |].
  rewrite (u8_small (number - previous)) by lia.
  destruct (Z.ltb_spec (number - previous) 0); [lia |].
  destruct (Z.ltb_spec (number - previous) 13); [lia |].
  destruct (Z.geb_spec (number - previous) 13); [| lia].
  destruct (Z.ltb_spec (number - previous) 269); [| lia]. cbn [andb].
  rewrite Hm. rewrite (snoc_app pre (y :: rest) x).
  rewrite <- (len_of_snoc pre x), wr_app_0. cbn [bind].
  destruct (Z.geb_spec L 13); [| lia].
  destruct (Z.ltb_spec L 269); [| lia]. cbn [andb].
  rewrite (u8_small (L - 13)) by lia.
  rewrite wr_app_0. cbn [bind].
  rewrite <- (snoc_app pre (_ :: rest) x), wr_app_0. cbn [bind].
  rewrite option_header_byte_13 by lia.
  rewrite len_of_snoc.
  replace (len_of pre + 1 + 1) with (len_of pre + 2) by lia. reflexivity.
Qed.

Lemma add_option_escape (b0 c i1 i2 : Z) (token : list Z)
    (os : list (Z * list Z)) (old rest : list Z)
    (number : Z) (value more : list Z) :
  0 <= b0 < 256 -> b0 mod 16 = len_of token -> len_of token <= 8 ->
  Forall option_ok os -> (length os <= 127)%nat ->
  (os <> [] -> last_number os <> 0) ->
  coapOptionIsValid (last_number os) = true ->
  coapOptionIsValid number = true ->
  13 <= number - last_number os <= 127 -> number <= 255 ->
  1 <= len_of value <= 255 ->
  length old = length (wire_option (13, value)) ->
  coapAddOption (plain_buffer b0 c i1 i2 token os (old ++ rest))
    (plain_length token os) number (len_of value) (value ++ more)
    (Some (match os with [] => 0 | _ :: _ => plain_length token os end))
  = Ret {| add_ret := COAP_OK;
           add_buffer :=
             plain_buffer b0 c i1 i2 token (os ++ [(13, value)]) rest;
           add_length :=
             u16 (u16 (s8 (plain_length token (os ++ [(13, value)])
                           - len_of value))
                  + len_of value);
           add_newPointer :=
             Some (plain_length token (os ++ [(13, value)])) |}.
Proof.
  intros Hb0 Htkl Htoken Hos Hcount Hlast0 Hpv Hvalid Hd Hnum Hval Hold.
  match goal with |- context [Some (match os with [] => _ | _ => _ end)] =>
    set (tail := match os with [] => 0 | _ :: _ => plain_length token os end)
  end.
  assert (Htail : (os = [] /\ tail = 0)
                  \/ (os <> [] /\ tail = plain_length token os)).
  { unfold tail. clear. destruct os; [left | right]; split;
      try reflexivity; discriminate. }
  clearbody tail.
  set (o := (13, value)) in *.
  pose proof (len_of_nonneg token) as H1.
  pose proof (len_of_nonneg (wire_options os)) as H2.
  pose proof (wire_options_bound os Hos) as H4.
  pose proof (last_number_nonneg os Hos) as H5.
  pose proof (wire_option_length o) as Hwl. cbn [snd o] in Hwl.
  destruct (plain_buffer_snoc b0 c i1 i2 token os o rest) as [Hbuf Hpl].
  rewrite Hpl in *.
  assert (Hpl0 : plain_length token os
                 = 4 + len_of token + len_of (wire_options os))
    by reflexivity.
  assert (Hlen : plain_length token os < 65536) by lia.
  assert (Hn : Z.of_nat (length os) <= 127) by lia.
  assert (Hrest : old ++ rest <> []).
  { destruct old; [| discriminate]. exfalso.
    unfold wire_option in Hold. destruct (_ <? _) in Hold; discriminate. }
  set (m := plain_buffer b0 c i1 i2 token os (old ++ rest)).
  assert (Htl : coapGetTokenLength m (plain_length token os) = Ret (len_of token))
    by (apply plain_token_length; assumption).
  unfold coapAddOption.
  destruct (Z.ltb_spec (plain_length token os) COAP_HDR_BYTES) as [E | _];
    [unfold COAP_HDR_BYTES in E; lia |].
  fold m. rewrite Htl. cbn [bind].
  unfold m at 1. rewrite coapGetOptionCount_plain by assumption. cbn [bind].
  rewrite (u8_small (len_of token)) by lia.
  rewrite (s8_small (Z.of_nat (length os))) by lia.
  destruct (Z.ltb_spec (len_of token) 0); [lia |].
  destruct (Z.ltb_spec (Z.of_nat (length os)) 0); [lia |].
  rewrite Hvalid. cbn [negb].
  match goal with |- bind ?x _ = _ =>
    assert (Hprev : exists pv, x = Ret (pv, Some (plain_length token os))
                               /\ u8 pv = last_number os) end.
  { destruct Htail as [[Hnil Ht] | [Hne Ht]].
    - assert (Hc0 : Z.of_nat (length os) = 0) by (rewrite Hnil; reflexivity).
      assert (Hw0 : len_of (wire_options os) = 0) by (rewrite Hnil; reflexivity).
      assert (Hl0 : last_number os = 0) by (rewrite Hnil; reflexivity).
      rewrite Hc0, Ht. cbn [Z.gtb Z.compare].
      exists 0. split; [| rewrite Hl0; reflexivity].
      do 3 f_equal. unfold COAP_HDR_BYTES. lia.
    - assert (Hc0 : 0 < Z.of_nat (length os)).
      { destruct os; [contradiction | cbn [length]; lia]. }
      rewrite Z.gtb_ltb. destruct (Z.ltb_spec 0 (Z.of_nat (length os))); [| lia].
      rewrite (u8_small (Z.of_nat (length os))) by lia.
      destruct (coapGetOption_plain b0 c i1 i2 token os (old ++ rest))
        as (g & Hg & _ & Hgn); try assumption; [lia | lia |].
      fold m in Hg. rewrite Hg. cbn [bind]. rewrite Hgn.
      destruct (Z.eqb_spec (last_number os) 0) as [E | _].
      { exfalso. apply Hlast0; assumption. }
      exists (s8 (last_number os)). rewrite Ht. split; [reflexivity |].
      rewrite u8_s8. apply u8_small. lia. }
  destruct Hprev as (pv & -> & Hpvu). cbn [bind]. rewrite Hpvu.
  rewrite header_length_value by (assumption || lia).
  destruct (Z.ltb_spec (number - last_number os) 13); [lia |].
  set (hl := 1 + 1 + (if len_of value <? 13 then 0 else 1)).
  assert (Hhl : 2 <= hl <= 3) by (unfold hl; destruct (len_of value <? 13); lia).
  rewrite (s8_small hl) by lia.
  destruct (Z.ltb_spec hl 0); [lia |].
  unfold MAX_BUFFER_SIZE at 1.
  destruct (Z.gtb_spec (COAP_HDR_BYTES + len_of token + len_of value + hl) 1460);
    [unfold COAP_HDR_BYTES in *; lia |].
  rewrite Z.eqb_refl. cbn [negb andb].
  rewrite (u8_small hl) by lia. clear Htail.
  destruct (plain_buffer_split b0 c i1 i2 token os (old ++ rest)) as [Hm Hpre].
  fold m in Hm.
  set (pre := ([b0; c; i1; i2] ++ token) ++ wire_options os) in *.
  pose proof Htl as Htl'. rewrite <- Hpre in Htl'.
  rewrite <- Hpre.
  assert (Hgoal : plain_buffer b0 c i1 i2 token (os ++ [o]) rest
                  = pre ++ wire_option o ++ rest).
  { rewrite Hbuf. apply plain_buffer_split. }
  rewrite Hgoal.
  assert (Hu16 : forall r, (u16 r <? 0) = false).
  { intros r. pose proof (Z.mod_pos_bound r 65536 ltac:(lia)). unfold u16.
    destruct (Z.ltb_spec (r mod 65536) 0); [lia | reflexivity]. }
  rewrite Hwl.
  unfold wire_option in Hold |- *. cbn [fst snd o] in Hold |- *.
  unfold hl in *. clear hl.
  destruct (Z.ltb_spec (len_of value) 13) as [Hs | Hl].
  - destruct old as [| x [| y vold]];
      [discriminate | cbn [length] in Hold; unfold len_of in Hval; lia |].
    cbn [length] in Hold.
    rewrite (build_header_escape_short m pre (vold ++ rest) x y (len_of pre)
               number (last_number os) (len_of value) (1 + 1 + 0)
               (len_of token));
      try assumption; try (unfold COAP_HDR_BYTES; lia).
    cbn [bind]. rewrite Hu16.
    rewrite (snoc_app pre (_ :: vold ++ rest)),
      <- (len_of_snoc pre (13 * 16 + len_of value)).
    change (u8 (number - 13) :: vold ++ rest)
      with ((u8 (number - 13) :: vold) ++ rest).
    rewrite memcpy_app by (cbn [length]; lia). cbn [bind].
    rewrite len_of_snoc.
    rewrite <- app_assoc. cbn [app].
    replace (len_of pre + (1 + 0 + len_of value) - len_of value)
      with (len_of pre + 1) by lia.
    replace (len_of pre + (1 + 0 + len_of value))
      with (len_of pre + 1 + len_of value) by lia.
    reflexivity.
  - destruct old as [| x [| y vold]]; try discriminate.
    cbn [length] in Hold.
    rewrite (build_header_escape_long m pre (vold ++ rest) x y (len_of pre)
               number (last_number os) (len_of value) (1 + 1 + 1)
               (len_of token));
      try assumption; try (unfold COAP_HDR_BYTES; lia).
    cbn [bind]. rewrite Hu16.
    assert (Hsplit : forall l, pre ++ (13 * 16 + 13) :: (len_of value - 13) :: l
                     = (pre ++ [13 * 16 + 13; len_of value - 13]) ++ l).
    { intros l. rewrite <- app_assoc. reflexivity. }
    assert (Hl2 : len_of (pre ++ [13 * 16 + 13; len_of value - 13])
                  = len_of pre + 2).
    { rewrite len_of_app. reflexivity. }
    rewrite Hsplit, <- Hl2.
    rewrite memcpy_app by lia. cbn [bind].
    rewrite Hl2.
    rewrite <- app_assoc. cbn [app].
    replace (len_of pre + (1 + 1 + len_of value) - len_of value)
      with (len_of pre + 2) by lia.
    replace (len_of pre + (1 + 1 + len_of value))
      with (len_of pre + 2 + len_of value) by lia.
    reflexivity.
Qed.

(** X24: The array holds a message (first byte 0..255 with the token length,
    at most 8, as low nibble; three more header bytes; the token; options
    with deltas 0..12 and values of at most 255 bytes) followed by at
    least as many bytes as the option written takes. The last option
    number L (the sum of the deltas; 0 without options) is not 0 if
    options exist; L and the new number are accepted by coapOptionIsValid;
    the new number is at most 255 and 13..127 above L; the value has
    1..255 bytes; the header written ends at an offset of at most 127.
    Called with the message length, the value with its length, and the
    tail pointer (the buffer start if no options exist, else the message
    end), coapAddOption returns COAP_OK but leaves no delta escape byte:
    written are the option byte 0xD0 + length nibble, the length extension
    byte for a length of 13 or more, and the value; length counter and
    tail pointer end behind the value; the header is one byte shorter than
    coapBuildOptionHeaderLength computed. *)
Theorem coapAddOption_delta_escape (b0 c i1 i2 : Z) (token : list Z)
    (os : list (Z * list Z)) (old rest : list Z)
    (number : Z) (value more : list Z) :
  0 <= b0 < 256 -> b0 mod 16 = len_of token -> len_of token <= 8 ->
  Forall option_ok os ->
  (os <> [] -> last_number os <> 0) ->
  coapOptionIsValid (last_number os) = true ->
  coapOptionIsValid number = true ->
  13 <= number - last_number os <= 127 -> number <= 255 ->
  1 <= len_of value <= 255 ->
  length old = length (wire_option (13, value)) ->
  plain_length token (os ++ [(13, value)]) - len_of value <= 127 ->
  coapAddOption (plain_buffer b0 c i1 i2 token os (old ++ rest))
    (plain_length token os) number (len_of value) (value ++ more)
    (Some (match os with [] => 0 | _ :: _ => plain_length token os end))
  = Ret {| add_ret := COAP_OK;
           add_buffer :=
             plain_buffer b0 c i1 i2 token (os ++ [(13, value)]) rest;
           add_length := plain_length token (os ++ [(13, value)]);
           add_newPointer :=
             Some (plain_length token (os ++ [(13, value)])) |}
  /\ len_of (wire_option (13, value)) - len_of value
     = coapBuildOptionHeaderLength number (len_of value) (last_number os) - 1.
Proof.
  intros Hb0 Htkl Htoken Hos Hlast0 Hpv Hvalid Hd Hnum Hval Hold Hend.
  pose proof (len_of_nonneg token) as H1.
  pose proof (wire_options_length os) as H4.
  pose proof (wire_option_length (13, value)) as Hwl.
  cbn [snd] in Hwl.
  destruct (plain_buffer_snoc b0 c i1 i2 token os (13, value) rest) as [_ Hpl].
  assert (Hpl0 : plain_length token os
                 = 4 + len_of token + len_of (wire_options os))
    by reflexivity.
  assert (Hcount : (length os <= 127)%nat)
    by (destruct (len_of value <? 13); lia).
  split.
  - rewrite add_option_escape by assumption.
    rewrite s8_small by (destruct (len_of value <? 13); lia).
    rewrite (u16_small (_ - _)) by (destruct (len_of value <? 13); lia).
    rewrite u16_small by (destruct (len_of value <? 13); lia).
    do 2 f_equal. lia.
  - rewrite header_length_value by (assumption || lia).
    destruct (Z.ltb_spec (number - last_number os) 13); [lia |].
    rewrite Hwl. destruct (len_of value <? 13); lia.
Qed.

Lemma coapAddOption_delta_escape_witness :
  coapAddOption
    (plain_buffer 0x40 1 0x12 0x34 [] [(3, [0x68])] ([0; 0; 0] ++ [0; 0]))
    (plain_length [] [(3, [0x68])]) 17 (len_of [0x28; 0x29])
    ([0x28; 0x29] ++ [])
    (Some (match [(3, [0x68])] with
           | [] => 0
           | _ :: _ => plain_length [] [(3, [0x68])]
           end))
  = Ret {| add_ret := COAP_OK;
           add_buffer :=
             plain_buffer 0x40 1 0x12 0x34 []
               ([(3, [0x68])] ++ [(13, [0x28; 0x29])]) [0; 0];
           add_length :=
             plain_length [] ([(3, [0x68])] ++ [(13, [0x28; 0x29])]);
           add_newPointer :=
             Some (plain_length [] ([(3, [0x68])] ++ [(13, [0x28; 0x29])])) |}
  /\ len_of (wire_option (13, [0x28; 0x29])) - len_of [0x28; 0x29]
     = coapBuildOptionHeaderLength 17 (len_of [0x28; 0x29])
         (last_number [(3, [0x68])]) - 1.
Proof.
  apply (coapAddOption_delta_escape 0x40 1 0x12 0x34 [] [(3, [0x68])] [0; 0; 0]
           [0; 0] 17 [0x28; 0x29] []).
  - lia.
  - reflexivity.
  - vm_compute; discriminate.
  - constructor; [split; [cbn; lia | vm_compute; discriminate] | constructor].
  - intros _. vm_compute; discriminate.
  - reflexivity.
  - reflexivity.
  - vm_compute. split; discriminate.
  - lia.
  - vm_compute. split; discriminate.
  - reflexivity.
  - vm_compute; discriminate.
Defined.

(** ** Messages whose options need no delta escape *)

Lemma deltas_ok (opts : list (Z * list Z)) :
  forall previous, options_plain previous opts ->
  Forall option_ok (deltas previous opts).
Proof.
  induction opts as [| [n v] opts IH]; intros previous H; [constructor |].
  cbn [options_plain] in H. destruct H as (_ & _ & Hd & Hl & Hrest).
  cbn [deltas]. constructor; [split; cbn [fst snd]; assumption |].
  apply IH. exact Hrest.
Qed.

Lemma deltas_length (opts : list (Z * list Z)) :
  forall previous, length (deltas previous opts) = length opts.
Proof.
  induction opts as [| [n v] opts IH]; intros previous; [reflexivity |].
  cbn [deltas length]. rewrite IH. reflexivity.
Qed.

Lemma plain_buffer_mid (b0 c i1 i2 : Z) (token : list Z)
    (os ds : list (Z * list Z)) (o : Z * list Z) (rest : list Z) :
  plain_buffer b0 c i1 i2 token (os ++ o :: ds) rest
  = plain_buffer b0 c i1 i2 token (os ++ [o]) (wire_options ds ++ rest)
  /\ plain_length token (os ++ o :: ds)
     = plain_length token (os ++ [o]) + len_of (wire_options ds).
Proof.
  assert (H : wire_options (os ++ o :: ds)
              = wire_options (os ++ [o]) ++ wire_options ds).
  { unfold wire_options. rewrite !flat_map_app. cbn [flat_map].
    rewrite app_nil_r, <- app_assoc. reflexivity. }
  unfold plain_buffer, plain_length. rewrite H, len_of_app, <- !app_assoc.
  split; [reflexivity | lia].
Qed.

(** ** The encoder *)

Lemma add_options_plain (b0 c i1 i2 : Z) (token : list Z) :
  0 <= b0 < 256 -> b0 mod 16 = len_of token -> len_of token <= 8 ->
  forall (opts os : list (Z * list Z)) (filler rest : list Z),
  Forall option_ok os -> (os <> [] -> last_number os <> 0) ->
  coapOptionIsValid (last_number os) = true ->
  options_plain (last_number os) opts ->
  length filler = length (wire_options (deltas (last_number os) opts)) ->
  plain_length token (os ++ deltas (last_number os) opts) <= 127 ->
  add_options opts (plain_buffer b0 c i1 i2 token os (filler ++ rest))
    (plain_length token os)
    (Some (match os with [] => 0 | _ :: _ => plain_length token os end))
  = Ret (Some (plain_buffer b0 c i1 i2 token
                 (os ++ deltas (last_number os) opts) rest,
               plain_length token (os ++ deltas (last_number os) opts),
               Some (match os ++ deltas (last_number os) opts with
                     | [] => 0
                     | _ :: _ =>
                         plain_length token
                           (os ++ deltas (last_number os) opts)
                     end))).
Proof.
  intros Hb0 Htkl Htoken.
  induction opts as [| [n v] opts IH];
    intros os filler rest Hos Hlast0 Hpv Hopts Hfill Hend.
  - cbn [deltas] in *. destruct filler; [| discriminate].
    rewrite app_nil_r. reflexivity.
  - cbn [options_plain] in Hopts.
    destruct Hopts as (Hvalid & Hn & Hd & Hl & Hrest).
    cbn [deltas] in *.
    set (o := (n - last_number os, v)) in *.
    set (ds := deltas n opts) in *.
    pose proof (len_of_nonneg (wire_options ds)) as Hnn.
    pose proof (len_of_nonneg v) as Hnv.
    destruct (plain_buffer_mid b0 c i1 i2 token os ds o rest) as [Hbuf Hpl].
    rewrite wire_options_cons, length_app in Hfill.
    set (a := length (wire_option o)) in *.
    assert (Hsplit : filler = take a filler ++ drop a filler)
      by (symmetry; apply take_drop).
    assert (Hla : length (take a filler) = a) by (rewrite length_take; lia).
    assert (Hlb : length (drop a filler) = length (wire_options ds))
      by (rewrite length_drop; lia).
    pose proof (coapAddOption_appends_aux b0 c i1 i2 token os (take a filler)
                  (drop a filler ++ rest) n v []) as Hadd.
    rewrite app_nil_r, app_assoc, <- Hsplit in Hadd.
    cbn [add_options]. fold o in Hadd.
    rewrite Hadd; try assumption; try lia.
    cbn [bind add_ret add_buffer add_length add_newPointer].
    change (COAP_OK <? 0) with false. cbv iota.
    assert (Hnum : last_number (os ++ [o]) = n).
    { rewrite last_number_app. cbn [fst o]. lia. }
    assert (Hne : os ++ [o] <> []) by (destruct os; discriminate).
    specialize (IH (os ++ [o]) (drop a filler) rest).
    rewrite Hnum in IH. fold ds in IH.
    replace ((os ++ [o]) ++ ds) with (os ++ o :: ds) in IH
      by (rewrite <- app_assoc; reflexivity).
    assert (Htail : forall (x : Z),
              match os ++ [o] with [] => 0 | _ :: _ => x end = x).
    { intros x. destruct (os ++ [o]); [contradiction | reflexivity]. }
    rewrite Htail in IH. apply IH; try assumption.
    + apply option_ok_snoc; [exact Hos | split; cbn [fst snd o]; lia].
    + intros _. lia.
Qed.

Lemma zeros_app (a b : nat) : zeros (a + b) = zeros a ++ zeros b.
Proof. unfold zeros. apply repeat_app. Qed.

Lemma zeros_length (a : nat) : length (zeros a) = a.
Proof. unfold zeros. apply repeat_length. Qed.

Lemma encode_plain (capacity : nat) (M : message) :
  message_plain M -> encoded_length M <= Z.of_nat capacity ->
  exists rest,
    encode capacity M = Ret (Some (encoded M rest, encoded_length M)).
Proof.
  destruct M as [version type tok code id opts payload].
  unfold message_plain, encoded_length, encoded.
  cbn [msg_version msg_type msg_token msg_code msg_id msg_options msg_payload].
  intros (Hversion & Htype & Htok & Hcode & Hcode80 & Hid & Hopts & Hend & Hpay)
         Hcap.
  subst version.
  set (os := deltas 0 opts) in *.
  set (b0 := 64 + 16 * type + len_of tok).
  pose proof (len_of_nonneg tok) as H1.
  pose proof (len_of_nonneg (wire_options os)) as H2.
  pose proof (len_of_nonneg payload) as H3.
  assert (Hb0 : 0 <= b0 < 256) by (unfold b0; lia).
  assert (Hmod : b0 mod 16 = len_of tok).
  { unfold b0. replace (64 + 16 * type + len_of tok)
      with (len_of tok + (4 + type) * 16) by lia.
    rewrite Z.mod_add by lia. apply Z.mod_small. lia. }
  assert (Hpl : plain_length tok os = 4 + len_of tok + len_of (wire_options os))
    by reflexivity.
  set (nq := match payload with [] => O | _ :: _ => S (length payload) end).
  assert (Hnq : Z.of_nat nq
                = match payload with [] => 0 | _ :: _ => 1 + len_of payload end).
  { unfold nq, len_of. destruct payload; lia. }
  set (r := (capacity - (4 + length tok + length (wire_options os) + nq))%nat).
  assert (Hcapacity : capacity
            = (4 + (length tok + (length (wire_options os) + (nq + r))))%nat).
  { unfold r. unfold len_of in *. lia. }
  exists (zeros r).
  assert (Hz : zeros capacity
               = 0 :: 0 :: 0 :: 0
                 :: zeros (length tok)
                    ++ zeros (length (wire_options os)) ++ zeros nq ++ zeros r).
  { rewrite Hcapacity at 1. rewrite !zeros_app. reflexivity. }
  unfold encode.
  cbn [msg_version msg_type msg_token msg_code msg_id msg_options msg_payload].
  rewrite Hz.
  rewrite (coapSetPacketHeader_writes 0 0 0 0 _ 0 type (len_of tok) code id);
    try assumption; try lia; [| reflexivity].
  cbn [bind]. change (COAP_OK <? 0) with false. cbv iota.
  fold b0.
  pose proof (token_written b0 code (id / 256) (id mod 256)
                (zeros (length tok)) tok []
                (zeros (length (wire_options os)) ++ zeros nq ++ zeros r)
                COAP_HDR_BYTES Htok (zeros_length _)) as Htw.
  rewrite app_nil_r in Htw. cbn [app] in Htw. cbn [app]. rewrite Htw.
  cbn [bind]. change (COAP_OK <? 0) with false. cbv iota.
  pose proof (add_options_plain b0 code (id / 256) (id mod 256) tok Hb0 Hmod Htok
                opts [] (zeros (length (wire_options os))) (zeros nq ++ zeros r))
    as Hadd.
  change (last_number []) with 0 in Hadd. fold os in Hadd.
  cbn [app] in Hadd.
  assert (Hp0 : plain_length tok [] = COAP_HDR_BYTES + len_of tok).
  { unfold plain_length. change (len_of (wire_options [])) with 0. lia. }
  rewrite Hp0 in Hadd.
  assert (Hm0 : plain_buffer b0 code (id / 256) (id mod 256) tok []
                  (zeros (length (wire_options os)) ++ zeros nq ++ zeros r)
                = b0 :: code :: id / 256 :: id mod 256
                  :: tok ++ zeros (length (wire_options os)) ++ zeros nq ++ zeros r)
    by reflexivity.
  rewrite Hm0 in Hadd.
  rewrite Hadd; [| constructor | intros H; contradiction | reflexivity
                 | exact Hopts | apply zeros_length | exact Hend].
  cbn [bind].
  destruct payload as [| first ps].
  - subst opts. cbn [zeros repeat app nq]. rewrite Z.add_0_r. reflexivity.
  - destruct Hpay as [Hfirst Hmax].
    pose proof Hmax as Hmax'. unfold COAP_HDR_BYTES, MAX_BUFFER_SIZE in Hmax'.
    set (payload := first :: ps) in *.
    set (m := plain_buffer b0 code (id / 256) (id mod 256) tok os
                (zeros nq ++ zeros r)).
    set (tail := Some match os with
                      | [] => 0
                      | _ :: _ => plain_length tok os
                      end).
    assert (Hptr : match opts with
                   | [] => plain_length tok os
                   | _ :: _ => match os with
                               | [] => 0
                               | _ :: _ => plain_length tok os
                               end
                   end = plain_length tok os).
    { unfold os. destruct opts as [| [n v] opts']; reflexivity. }
    rewrite Hptr.
    destruct (plain_buffer_split b0 code (id / 256) (id mod 256) tok os
                (zeros nq ++ zeros r)) as [Hm Hpre].
    fold m in Hm.
    pose proof (set_payload_at
                  (([b0; code; id / 256; id mod 256] ++ tok) ++ wire_options os)
                  (zeros nq) (zeros r) payload [] b0 (plain_length tok os)
                  first ps tail) as Hset.
    rewrite app_nil_r, <- Hm, Hpre in Hset.
    rewrite Hset; try assumption; try reflexivity.
    + cbn [bind ps_ret ps_buffer ps_length].
      change (COAP_OK <? 0) with false. cbv iota.
      rewrite u16_small by lia.
      destruct (plain_buffer_split b0 code (id / 256) (id mod 256) tok os
                  (COAP_PAYLOAD_MARKER :: payload ++ zeros r)) as [Hm' _].
      rewrite Hm'. do 3 f_equal. lia.
    + rewrite Hmod. exact Htok.
    + unfold COAP_HDR_BYTES. lia.
    + rewrite Hmod. exact Hmax.
    + unfold nq. apply zeros_length.
Qed.

(** ** The decoder *)

Lemma token_read_len (b0 c i1 i2 : Z) (tok rest : list Z) (len : Z) :
  0 <= b0 < 256 -> b0 mod 16 = len_of tok -> len_of tok <= 8 ->
  COAP_HDR_BYTES + len_of tok <= len ->
  coapGetToken ([b0; c; i1; i2] ++ tok ++ rest) len
  = Ret (COAP_OK, if len_of tok =? 0 then None else Some tok).
Proof.
  intros Hb Hm Hk Hlen. pose proof (len_of_nonneg tok) as Hn.
  unfold coapGetToken.
  destruct (Z.ltb_spec len COAP_HDR_BYTES); [lia |].
  rewrite (coapGetTokenLength_spec _ _ b0) by
    (try reflexivity; unfold COAP_HDR_BYTES in *; lia).
  rewrite Hm. destruct (Z.ltb_spec (len_of tok) 9); [| lia]. cbn [bind].
  destruct (Z.ltb_spec (len_of tok) 0); [lia |].
  destruct (Z.gtb_spec (COAP_HDR_BYTES + len_of tok) len); [lia |].
  destruct (Z.gtb_spec (len_of tok) 0), (Z.eqb_spec (len_of tok) 0); try lia;
    [| reflexivity].
  unfold len_of at 1. rewrite Nat2Z.id.
  change COAP_HDR_BYTES with (len_of [b0; c; i1; i2]).
  rewrite rd_range_app. reflexivity.
Qed.

Lemma get_options_plain (b0 c i1 i2 : Z) (token : list Z) (R : list Z)
    (len : Z) :
  0 <= b0 < 256 -> b0 mod 16 = len_of token -> len_of token <= 8 ->
  COAP_HDR_BYTES + len_of token < len < 65536 ->
  forall (opts os : list (Z * list Z)),
  Forall option_ok os -> options_plain (last_number os) opts ->
  (length os + length opts <= 255)%nat ->
  get_options (length opts)
    (plain_buffer b0 c i1 i2 token (os ++ deltas (last_number os) opts) R)
    len (Z.of_nat (length os) + 1)
  = Ret (Some opts).
Proof.
  intros Hb0 Htkl Htoken Hlen.
  induction opts as [| [n v] opts IH]; intros os Hos Hopts Hidx;
    [reflexivity |].
  cbn [options_plain] in Hopts. cbn [length] in Hidx.
  destruct Hopts as (Hvalid & Hn & Hd & Hl & Hrest).
  cbn [deltas length get_options].
  set (o := (n - last_number os, v)).
  set (ds := deltas n opts).
  pose proof (len_of_nonneg v) as Hnv.
  destruct (plain_buffer_mid b0 c i1 i2 token os ds o R) as [Hbuf Hpl].
  assert (Ho : option_ok o) by (split; cbn [fst snd o]; lia).
  assert (Hnum : last_number (os ++ [o]) = n).
  { rewrite last_number_app. cbn [fst o]. lia. }
  assert (Hget : get_option
                   (plain_buffer b0 c i1 i2 token (os ++ o :: ds) R) len
                   (Z.of_nat (length os) + 1)
                 = Ret (Some (n, v))).
  { unfold get_option. rewrite Hbuf.
    replace (Z.of_nat (length os) + 1) with (Z.of_nat (S (length os))) by lia.
    rewrite get_option_at; try assumption; [| lia | lia].
    cbn [bind got_ret got_number got_data snd o].
    destruct (Z.ltb_spec (len_of v) 0); [lia |].
    rewrite Hnum. destruct (Z.eqb_spec n 0); [lia |].
    unfold len_of at 2. rewrite Nat2Z.id.
    pose proof (plain_value_at b0 c i1 i2 token os o (wire_options ds ++ R))
      as Hval.
    cbn [snd o] in Hval. rewrite Hval. reflexivity. }
  rewrite Hget. cbn [bind].
  specialize (IH (os ++ [o])). rewrite Hnum in IH. fold ds in IH.
  replace ((os ++ [o]) ++ ds) with (os ++ o :: ds) in IH
    by (rewrite <- app_assoc; reflexivity).
  rewrite length_app in IH. cbn [length] in IH.
  replace (Z.of_nat (length os + 1) + 1) with (Z.of_nat (length os) + 1 + 1)
    in IH by lia.
  rewrite IH; [reflexivity | apply option_ok_snoc; assumption | exact Hrest |].
  lia.
Qed.

Lemma count_header_only (b0 c i1 i2 : Z) (token rest : list Z) :
  0 <= b0 < 256 -> b0 mod 16 = len_of token -> len_of token <= 8 ->
  coapGetOptionCount (plain_buffer b0 c i1 i2 token [] rest)
    (plain_length token [])
  = Ret 0
  /\ coapGetPayload (plain_buffer b0 c i1 i2 token [] rest)
       (plain_length token [])
     = Ret (0, None).
Proof.
  intros Hb0 Htkl Htoken. pose proof (len_of_nonneg token) as H1.
  assert (Hpl : plain_length token [] = COAP_HDR_BYTES + len_of token).
  { unfold plain_length. change (len_of (wire_options [])) with 0. lia. }
  rewrite Hpl.
  assert (Htl : coapGetTokenLength (plain_buffer b0 c i1 i2 token [] rest)
                  (COAP_HDR_BYTES + len_of token) = Ret (len_of token)).
  { rewrite (coapGetTokenLength_spec _ _ b0);
      [| lia | reflexivity | exact Hb0].
    rewrite Htkl. destruct (Z.ltb_spec (len_of token) 9); [reflexivity | lia]. }
  assert (Hc : coapGetOptionCount (plain_buffer b0 c i1 i2 token [] rest)
                 (COAP_HDR_BYTES + len_of token) = Ret 0).
  { unfold coapGetOptionCount. rewrite Htl. cbn [bind].
    destruct (Z.ltb_spec (COAP_HDR_BYTES + len_of token) COAP_HDR_BYTES); [lia |].
    destruct (Z.ltb_spec (len_of token) 0); [lia |].
    rewrite Z.eqb_refl. reflexivity. }
  split; [exact Hc |].
  unfold coapGetPayload. rewrite Hc, Htl. cbn [bind].
  destruct (Z.ltb_spec (COAP_HDR_BYTES + len_of token) COAP_HDR_BYTES); [lia |].
  destruct (Z.ltb_spec (len_of token) 0); [lia |].
  rewrite Z.gtb_ltb, !Z.ltb_irrefl, Z.eqb_refl. reflexivity.
Qed.

Lemma decode_plain (M : message) (rest : list Z) :
  message_plain M ->
  decode (encoded M rest) (encoded_length M) = Ret (Some M).
Proof.
  destruct M as [version type tok code id opts payload].
  unfold message_plain, encoded_length, encoded.
  cbn [msg_version msg_type msg_token msg_code msg_id msg_options msg_payload].
  intros (Hversion & Htype & Htok & Hcode & Hcode80 & Hid & Hopts & Hend & Hpay).
  subst version.
  set (os := deltas 0 opts) in *.
  set (b0 := 64 + 16 * type + len_of tok).
  pose proof (len_of_nonneg tok) as H1.
  pose proof (len_of_nonneg (wire_options os)) as H2.
  pose proof (len_of_nonneg payload) as H3.
  assert (Hb0 : 0 <= b0 < 256) by (unfold b0; lia).
  assert (Hmod : b0 mod 16 = len_of tok).
  { unfold b0. replace (64 + 16 * type + len_of tok)
      with (len_of tok + (4 + type) * 16) by lia.
    rewrite Z.mod_add by lia. apply Z.mod_small. lia. }
  assert (Hq : b0 / 64 = 1).
  { symmetry. apply (Z.div_unique _ 64 1 (16 * type + len_of tok));
      unfold b0; lia. }
  assert (Hq2 : (b0 / 16) mod 4 = type).
  { unfold b0. replace (64 + 16 * type + len_of tok)
      with (len_of tok + (4 + type) * 16) by lia.
    rewrite Z.div_add by lia. rewrite (Z.div_small (len_of tok) 16) by lia.
    replace (0 + (4 + type)) with (type + 1 * 4) by lia.
    rewrite Z.mod_add by lia. apply Z.mod_small. lia. }
  assert (Hpl : plain_length tok os = 4 + len_of tok + len_of (wire_options os))
    by reflexivity.
  destruct (coap_codes_bytes code Hcode) as [Hcr Hcv].
  set (R := match payload with
            | [] => rest
            | _ :: _ => COAP_PAYLOAD_MARKER :: payload ++ rest
            end).
  set (len := plain_length tok os
              + match payload with [] => 0 | _ :: _ => 1 + len_of payload end).
  set (m := plain_buffer b0 code (id / 256) (id mod 256) tok os R).
  assert (Hlen4 : COAP_HDR_BYTES + len_of tok <= len).
  { unfold len, COAP_HDR_BYTES. destruct payload; lia. }
  assert (Hlen16 : len < 32768).
  { unfold len. destruct payload as [| first ps]; [lia |].
    destruct Hpay as [_ Hmax]. unfold COAP_HDR_BYTES, MAX_BUFFER_SIZE in Hmax.
    lia. }
  destruct (byte0_fields m len b0) as (Hv & Hty & _);
    [unfold COAP_HDR_BYTES in *; lia | reflexivity | exact Hb0 |].
  rewrite Hq in Hv. rewrite Hq2 in Hty. cbn [Z.eqb Pos.eqb] in Hv.
  assert (Htoken : coapGetToken m len
                   = Ret (COAP_OK, if len_of tok =? 0 then None else Some tok)).
  { apply token_read_len; assumption. }
  assert (Hgc : coapGetCode m len = Ret code).
  { rewrite (get_code_value m len code);
      [| unfold COAP_HDR_BYTES in *; lia | reflexivity | exact Hcr].
    rewrite Hcv. destruct (Z.ltb_spec code 128); [reflexivity | lia]. }
  assert (Hgi : coapGetMessageId m len = Ret id).
  { assert (0 <= id / 256 < 256).
    { split; [apply Z.div_pos; lia | apply Z.div_lt_upper_bound; lia]. }
    pose proof (Z.mod_pos_bound id 256 ltac:(lia)).
    rewrite (get_message_id_value m len (id / 256) (id mod 256));
      [| unfold COAP_HDR_BYTES in *; lia | reflexivity | reflexivity | lia | lia].
    pose proof (Z.div_mod id 256 ltac:(lia)).
    replace (id / 256 * 256 + id mod 256) with id by lia.
    rewrite s16_small by lia. reflexivity. }
  assert (Hok : Forall option_ok os) by (apply deltas_ok; exact Hopts).
  assert (Hcount : coapGetOptionCount m len = Ret (Z.of_nat (length os))
                   /\ coapGetPayload m len
                      = Ret (len_of payload,
                             match payload with
                             | [] => None
                             | _ :: _ => Some (plain_length tok os + 1)
                             end)).
  { unfold m, R, len. destruct payload as [| first ps].
    - subst opts. rewrite Z.add_0_r. apply count_header_only; assumption.
    - split.
      + apply count_with_payload; try assumption; lia.
      + rewrite Z.add_assoc. apply payload_after_marker; try assumption. lia. }
  destruct Hcount as [Hcount Hpayload].
  assert (Hgo : get_options (length os) m len 1 = Ret (Some opts)).
  { unfold os. rewrite deltas_length.
    destruct payload as [| first ps] eqn:Epay.
    - rewrite Hpay. reflexivity.
    - apply (get_options_plain b0 code (id / 256) (id mod 256) tok R len Hb0 Hmod
               Htok) with (os := []); [| constructor | exact Hopts |].
      + unfold len, COAP_HDR_BYTES. lia.
      + pose proof (wire_options_length os) as Hwl.
        unfold os in Hwl. rewrite deltas_length in Hwl.
        fold os in Hwl. cbn [length Nat.add]. lia. }
  assert (Hrange : match match payload with
                         | [] => None
                         | _ :: _ => Some (plain_length tok os + 1)
                         end with
                   | Some p => rd_range m p (Z.to_nat (len_of payload))
                   | None => Ret []
                   end = Ret payload).
  { unfold m, R. destruct payload as [| first ps]; [reflexivity |].
    unfold len_of at 1. rewrite Nat2Z.id. apply payload_bytes_at. }
  unfold decode. fold m len.
  rewrite Hv, Hty, Htoken, Hgc, Hgi, Hcount, Hpayload. cbn [bind].
  rewrite Nat2Z.id, Hgo. cbn [bind]. rewrite Hrange. cbn [bind].
  assert (Hneg : (1 <? 0) || (type <? 0) || (COAP_OK <? 0) || (code <? 0)
                 || (Z.of_nat (length os) <? 0) || (len_of payload <? 0)
                 = false).
  { destruct (Z.ltb_spec type 0); [lia |].
    destruct (Z.ltb_spec code 0); [lia |].
    destruct (Z.ltb_spec (Z.of_nat (length os)) 0); [lia |].
    destruct (Z.ltb_spec (len_of payload) 0); [lia |]. reflexivity. }
  rewrite Hneg.
  do 3 f_equal.
  destruct (Z.eqb_spec (len_of tok) 0) as [E | _]; [| reflexivity].
  destruct tok; [reflexivity | discriminate].
Qed.

(** ** The round trip *)

(** X25: the round trip of a message.  Every message of [message_plain] that
    fits the capacity of the buffer is written by [encode] and read back by
    [decode] as the same message: version, type, token, code, message id,
    options with their numbers and values, and payload. *)
Theorem round_trip_plain (capacity : nat) (M : message) :
  message_plain M -> encoded_length M <= Z.of_nat capacity ->
  round_trip capacity M.
Proof.
  intros HM Hcap.
  destruct (encode_plain capacity M HM Hcap) as [rest Henc].
  exists (encoded M rest), (encoded_length M).
  split; [exact Henc | apply decode_plain; exact HM].
Qed.

Lemma round_trip_plain_witness :
  round_trip 64
    {| msg_version := 1; msg_type := 1; msg_token := [0xAA; 0xBB];
       msg_code := 0x02; msg_id := 0x1234;
       msg_options := [(11, [0x61]); (11, repeat 0x62 20); (12, [50])];
       msg_payload := [0x68; 0x69] |}.
Proof.
  apply round_trip_plain.
  - unfold message_plain.
    cbn [msg_version msg_type msg_token msg_code msg_id msg_options msg_payload
         options_plain].
    repeat split; try reflexivity; try lia; try (cbn; tauto);
      try (vm_compute; discriminate).
  - vm_compute; discriminate.
Defined.

(** ** Instances of the general facts on the validator and the payload walk *)

Lemma coapValidatePacket_codes_witness :
  coapValidatePacket [0x40; 0x05; 0x12; 0x34; 0x2F] 5 = Ret COAP_OK
  /\ (COAP_OK = COAP_OK \/ COAP_OK = COAP_INVALID_VERSION
      \/ COAP_OK = COAP_INVALID_TOKEN_LENGTH
      \/ COAP_OK = COAP_END_OF_PACKET \/ COAP_OK = COAP_FOUND_PAYLOAD_MARKER).
Proof.
  split; [vm_compute; reflexivity |].
  apply (coapValidatePacket_codes [0x40; 0x05; 0x12; 0x34; 0x2F] 5 COAP_OK).
  - vm_compute; discriminate.
  - vm_compute; reflexivity.
Defined.

Lemma coapValidatePacket_count_error_witness :
  coapValidatePacket [0x40; 0x01; 0x12; 0x34; 0x2F] 5 = Ret COAP_OK.
Proof.
  apply (coapValidatePacket_count_error [0x40; 0x01; 0x12; 0x34; 0x2F] 5 0x40
           COAP_INVALID_PACKET).
  - vm_compute; reflexivity.
  - reflexivity.
  - reflexivity.
  - vm_compute; reflexivity.
  - vm_compute; reflexivity.
Defined.

